(** * IELTS Speaking Simulator: a shallow embedding of the client-side logic

    The development follows the repository's layout:
    - [JS]: the JavaScript values the code manipulates (strings as sequences
      of UTF-16 code units, [String.prototype.trim], [split], regular
      expressions without flags, numbers as IEEE binary64);
    - [Types]: the interfaces of [types.ts] and the platform built-ins;
    - [Async]: promises and [await], as a free monad over the requests sent
      to the generative service;
    - [GeminiService], [WelcomeScreen], [TestScreen], [EvaluationScreen],
      [App]: the source files of the same names, each in the version that
      knows the five test types (the one [App.tsx] drives);
    - [Sample]: a platform and a session to run the definitions on.

    Definitions come first; the properties follow in the second half. *)

From Stdlib Require Import NArith ZArith Bool Lia Floats.
From stdpp Require Import base option list gmap strings pretty.

Set Default Proof Using "Type".

(** ** JavaScript values *)

Module JS.

(** A JavaScript string is a finite sequence of UTF-16 code units;
    [length] counts code units and every operation below works on them. *)
Abbreviation jsstring := (list N).

(** An ASCII literal of the source, as code units. *)
Fixpoint lit (s : string) : jsstring :=
  match s with
  | EmptyString => []
  | String a s' => Ascii.N_of_ascii a :: lit s'
  end.

Arguments lit : simpl never.

Definition LF : N := 10.
Definition DQUOTE : N := 34.
Definition COMMA : N := 44.
Definition SLASH : N := 47.

(** ECMAScript LineTerminator: LF, CR, LS, PS. *)
Definition isLineTerminator (c : N) : bool :=
  ((c =? 10) || (c =? 13) || (c =? 8232) || (c =? 8233))%N.

(** ECMAScript WhiteSpace: TAB, VT, FF, SP, NBSP, ZWNBSP and the
    Unicode space separators (all in the basic plane). *)
Definition isWhiteSpace (c : N) : bool :=
  ((c =? 9) || (c =? 11) || (c =? 12) || (c =? 32) || (c =? 160)
   || (c =? 5760) || ((8192 <=? c) && (c <=? 8202))
   || (c =? 8239) || (c =? 8287) || (c =? 12288) || (c =? 65279))%N.

(** What [String.prototype.trim] strips at both ends. *)
Definition isTrimmed (c : N) : bool := isWhiteSpace c || isLineTerminator c.

Fixpoint trimStart (s : jsstring) : jsstring :=
  match s with
  | [] => []
  | c :: s' => if isTrimmed c then trimStart s' else s
  end.

Definition trimEnd (s : jsstring) : jsstring := rev (trimStart (rev s)).

Definition trim (s : jsstring) : jsstring := trimEnd (trimStart s).

(** [s.split(sep)] for a one-code-unit separator: the pieces between the
    separators, in order; the result always has at least one piece. *)
Fixpoint split (sep : N) (s : jsstring) : list jsstring :=
  match s with
  | [] => [[]]
  | c :: s' =>
      if (c =? sep)%N then [] :: split sep s'
      else match split sep s' with
           | [] => [[c]]
           | piece :: pieces => (c :: piece) :: pieces
           end
  end.

(** [pieces.join(sep)]. *)
Fixpoint join (sep : jsstring) (pieces : list jsstring) : jsstring :=
  match pieces with
  | [] => []
  | [p] => p
  | p :: ps => p ++ sep ++ join sep ps
  end.

(** [s.slice(1)]. *)
Definition slice1 (s : jsstring) : jsstring := drop 1 s.

(** [s || fallback] on strings: the empty string is the only falsy one. *)
Definition orElse (s fallback : jsstring) : jsstring :=
  match s with [] => fallback | _ => s end.

(** A JavaScript number is an IEEE 754 binary64 value. *)
Abbreviation number := float.

(** ** Regular expressions without flags

    The fragment the source uses. Without the [u] flag a pattern is
    matched code unit by code unit, and without [s] the dot refuses line
    terminators. *)
Inductive regex : Type :=
| Never
| Empty
| Char (c : N)
| Dot
| Seq (r1 r2 : regex)
| Alt (r1 r2 : regex)
| Opt (r : regex)
| Star (r : regex)
| Plus (r : regex).

(** A literal run of pattern characters. *)
Fixpoint word (w : jsstring) : regex :=
  match w with
  | [] => Empty
  | c :: w' => Seq (Char c) (word w')
  end.

Fixpoint nullable (r : regex) : bool :=
  match r with
  | Never | Char _ | Dot => false
  | Empty | Opt _ | Star _ => true
  | Seq r1 r2 => nullable r1 && nullable r2
  | Alt r1 r2 => nullable r1 || nullable r2
  | Plus r => nullable r
  end.

(** Brzozowski derivative: what remains to be matched after reading [c]. *)
Fixpoint deriv (c : N) (r : regex) : regex :=
  match r with
  | Never | Empty => Never
  | Char a => if (a =? c)%N then Empty else Never
  | Dot => if isLineTerminator c then Never else Empty
  | Seq r1 r2 =>
      if nullable r1 then Alt (Seq (deriv c r1) r2) (deriv c r2)
      else Seq (deriv c r1) r2
  | Alt r1 r2 => Alt (deriv c r1) (deriv c r2)
  | Opt r => deriv c r
  | Star r => Seq (deriv c r) (Star r)
  | Plus r => Seq (deriv c r) (Star r)
  end.

(** [/^r$/.test(s)]: with both anchors and no [m] flag the pattern has to
    cover the whole input, so the test succeeds exactly when some way of
    matching [r] consumes all of [s]. *)
Definition test_anchored (r : regex) (s : jsstring) : bool :=
  nullable (foldl (fun r c => deriv c r) r s).

(** The declarative reading of a pattern: the strings it denotes. *)
Inductive Matches : regex -> jsstring -> Prop :=
| MEmpty : Matches Empty []
| MChar c : Matches (Char c) [c]
| MDot c : isLineTerminator c = false -> Matches Dot [c]
| MSeq r1 r2 s1 s2 : Matches r1 s1 -> Matches r2 s2 -> Matches (Seq r1 r2) (s1 ++ s2)
| MAltL r1 r2 s : Matches r1 s -> Matches (Alt r1 r2) s
| MAltR r1 r2 s : Matches r2 s -> Matches (Alt r1 r2) s
| MOptNone r : Matches (Opt r) []
| MOptSome r s : Matches r s -> Matches (Opt r) s
| MStarNil r : Matches (Star r) []
| MStarCons r s1 s2 : Matches r s1 -> Matches (Star r) s2 -> Matches (Star r) (s1 ++ s2)
| MPlus r s1 s2 : Matches r s1 -> Matches (Star r) s2 -> Matches (Plus r) (s1 ++ s2).

(** The number of positions of [hay] at which [needle] starts. *)
Fixpoint startsWith (needle hay : jsstring) : bool :=
  match needle, hay with
  | [], _ => true
  | _ :: _, [] => false
  | a :: needle', b :: hay' => (a =? b)%N && startsWith needle' hay'
  end.


(** [hay.includes(needle)]. *)
Definition includes (needle hay : jsstring) : Prop :=
  exists before after, hay = before ++ needle ++ after.

(** [s.replace(searchValue, replaceValue)] for a string pattern and a
    replacement without [$]: the first occurrence of the pattern is
    replaced, if there is one. *)
Fixpoint replace (searchValue replaceValue s : jsstring) : jsstring :=
  if startsWith searchValue s then replaceValue ++ drop (length searchValue) s
  else match s with
       | [] => []
       | c :: s' => c :: replace searchValue replaceValue s'
       end.

End JS.
Export JS.

(** ** The interfaces of [types.ts] *)

Module Types.

Inductive SpeakingQuestionType := introduction | cue_card | discussion.

Record CueCard := { cc_topic : jsstring; cc_points : list jsstring }.

Record IQuestion := {
  q_part : number;
  q_type : SpeakingQuestionType;
  q_question : jsstring;
  q_cueCard : option CueCard;
}.

Record ICriterion := {
  criterion : jsstring;
  score : number;
  feedback : jsstring;
}.

Record IImprovedSpeakingAnswer := {
  isa_question : jsstring;
  improvedAnswer : jsstring;
}.

Record IImprovedAnswers := {
  writingTask1 : jsstring;
  writingTask2 : jsstring;
  ia_speaking : list IImprovedSpeakingAnswer;
}.

(** [improvedAnswers] is required by the interface; the report tests it
    for presence all the same, so it is kept optional here. *)
Record IEvaluation := {
  overallBandScore : number;
  detailedScores : list ICriterion;
  summary : jsstring;
  improvedAnswers : option IImprovedAnswers;
}.

Record IPracticeItem := {
  area : jsstring;
  title : jsstring;
  description : jsstring;
  exercise : jsstring;
}.

Inductive ListeningQuestionType := lq_multiple_choice | lq_short_answer.

(** [answer] is the correct answer the generation schema adds to each
    objective question; the answer key reads it. *)
Record IListeningQuestion := {
  lq_question : jsstring;
  lq_type : ListeningQuestionType;
  lq_options : option (list jsstring);
  lq_answer : jsstring;
}.

Inductive ReadingQuestionType := rq_multiple_choice | rq_short_answer | rq_true_false_not_given.

Record IReadingQuestion := {
  rq_question : jsstring;
  rq_type : ReadingQuestionType;
  rq_options : option (list jsstring);
  rq_answer : jsstring;
}.

Record IListeningSection := { ls_questions : list IListeningQuestion }.

Record IReadingSection := {
  rs_transcript : jsstring;
  rs_questions : list IReadingQuestion;
}.

Inductive ChartType := bar_chart | line_chart | pie_chart | table.

#[global] Instance ChartType_eq_dec : EqDecision ChartType.
Proof. solve_decision. Defined.

Definition chartTypeName (t : ChartType) : jsstring :=
  match t with
  | bar_chart => lit "bar chart"
  | line_chart => lit "line chart"
  | pie_chart => lit "pie chart"
  | table => lit "table"
  end.

Record IChartData := {
  cd_type : ChartType;
  cd_title : jsstring;
  cd_data : jsstring;
}.

(** [chartData] is tested for presence before it is used, [chartImage] is
    attached after generation. *)
Record WritingTask1 := {
  t1_prompt : jsstring;
  chartData : option IChartData;
  chartImage : option jsstring;
}.

Record IWritingSection := {
  ws_task1 : WritingTask1;
  ws_task2 : jsstring;
}.

Record IComprehensiveTest := {
  ct_listening : IListeningSection;
  ct_reading : IReadingSection;
  ct_writing : IWritingSection;
  ct_speaking : list IQuestion;
}.

(** Modelled from the spec: the declaration of [TestType] is not among the
    source files; the welcome screen offers these five values and the
    workflow tells the two objective ones from the three subjective ones. *)
Inductive TestType := full | listening | reading | writing | speaking.

#[global] Instance TestType_eq_dec : EqDecision TestType.
Proof. solve_decision. Defined.

(** [type TestSection = 'listening' | 'reading' | 'writing' | 'speaking']. *)
Inductive TestSection := sec_listening | sec_reading | sec_writing | sec_speaking.

Record WritingAnswers := { wa_task1 : jsstring; wa_task2 : jsstring }.

Record SpeakingAnswer := { sa_question : jsstring; sa_answer : jsstring }.

(** The answers object of the test screen,
    [{listening: {}, reading: {}, writing: {task1, task2}, speaking: []}]:
    two objects keyed by question index, two essays and the list of spoken
    answers in the order they were given. *)
Record Answers := {
  ans_listening : gmap nat jsstring;
  ans_reading : gmap nat jsstring;
  ans_writing : WritingAnswers;
  ans_speaking : list SpeakingAnswer;
}.

(** What [new URL(s)] exposes to the code. *)
Record URL := {
  hostname : jsstring;
  pathname : jsstring;
  searchParams : list (jsstring * jsstring);
}.

(** [url.searchParams.get(name)]: the value of the first pair named [name],
    [None] for [null]. *)
Fixpoint searchParams_get (name : jsstring) (params : list (jsstring * jsstring)) : option jsstring :=
  match params with
  | [] => None
  | (k, v) :: rest => if decide (k = name) then Some v else searchParams_get name rest
  end.

(** The built-ins of the JavaScript platform the code calls and whose
    results it takes as given: the URL parser ([None] when the constructor
    throws), [JSON.parse] at the three types its result is cast to ([None]
    when it throws), [JSON.stringify], the two number formatters, and
    whether the browser offers speech recognition. *)
Class Platform := {
  URL_new : jsstring -> option URL;
  JSON_parse_test : jsstring -> option IComprehensiveTest;
  JSON_parse_evaluation : jsstring -> option IEvaluation;
  JSON_parse_plan : jsstring -> option (list IPracticeItem);
  JSON_stringify_strings : list jsstring -> jsstring;
  JSON_stringify_record : gmap nat jsstring -> jsstring;
  Number_toString : number -> jsstring;
  Number_toFixed1 : number -> jsstring;
  SpeechRecognition_supported : bool;
}.

(** The decimal digits of an array index. *)
Definition decimal (n : nat) : jsstring := lit (pretty n).

End Types.
Export Types.

(** ** Promises and [await] *)

Module Async.

(** The three response schemas of [geminiService.ts], sent along verbatim. *)
Inductive Schema := comprehensiveTestSchema | comprehensiveEvaluationSchema | practicePlanSchema.

(** The two calls made on [ai.models]. *)
Inductive Request :=
| generateContent (model contents responseMimeType : jsstring) (responseSchema : Schema)
| generateImages (model prompt : jsstring) (numberOfImages : N)
    (outputMimeType aspectRatio : jsstring).

(** What the code reads off a response: [response.text] and
    [response.generatedImages], each possibly undefined; an image is
    represented by its [image.imageBytes]. *)
Record Response := {
  text : option jsstring;
  generatedImages : option (list jsstring);
}.

Inductive Outcome := Resolved (r : Response) | Rejected (reason : jsstring).

(** Entry into one of the four exported functions of the service. *)
Inductive ServiceCall :=
| call_generateComprehensiveTest (videoUrl transcript : jsstring) (testType : TestType)
| call_generateChartImage (chartData : IChartData)
| call_evaluateComprehensiveTest (testContent : IComprehensiveTest) (userAnswers : Answers)
| call_getPracticePlan (evaluation : IEvaluation).

(** An asynchronous computation over a component state [S]: it returns,
    throws, or is suspended on a request with the state committed so far
    (what is on screen while the promise is pending). [Enter] records the
    entry into a service function and has no other effect. *)
Inductive Prog (S A : Type) : Type :=
| Ret (s : S) (a : A)
| Throw (s : S) (e : jsstring)
| Enter (c : ServiceCall) (p : Prog S A)
| Await (s : S) (req : Request) (k : Outcome -> Prog S A).
Arguments Ret {S A}.
Arguments Throw {S A}.
Arguments Enter {S A}.
Arguments Await {S A}.

Definition M (S A : Type) : Type := S -> Prog S A.

Fixpoint bindP {S A B} (p : Prog S A) (f : A -> M S B) : Prog S B :=
  match p with
  | Ret s a => f a s
  | Throw s e => Throw s e
  | Enter c p' => Enter c (bindP p' f)
  | Await s req k => Await s req (fun o => bindP (k o) f)
  end.

(** [try { p } catch (e) { h e }]. *)
Fixpoint catchP {S A} (p : Prog S A) (h : jsstring -> M S A) : Prog S A :=
  match p with
  | Ret s a => Ret s a
  | Throw s e => h e s
  | Enter c p' => Enter c (catchP p' h)
  | Await s req k => Await s req (fun o => catchP (k o) h)
  end.

#[global] Instance M_ret {S} : MRet (M S) := fun A a s => Ret s a.
#[global] Instance M_bind {S} : MBind (M S) := fun A B f m s => bindP (m s) f.

Definition throw {S A} (e : jsstring) : M S A := fun s => Throw s e.
Definition tryCatch {S A} (m : M S A) (h : jsstring -> M S A) : M S A :=
  fun s => catchP (m s) h.
Definition enter {S} (c : ServiceCall) : M S unit := fun s => Enter c (Ret s tt).
(** A state setter of the component. *)
Definition set {S} (f : S -> S) : M S unit := fun s => Ret (f s) tt.
(** [await ai.models.f(request)]: a rejected promise throws at the [await]. *)
Definition await {S} (req : Request) : M S Response :=
  fun s => Await s req (fun o =>
    match o with
    | Resolved r => Ret s r
    | Rejected reason => Throw s reason
    end).
(** Reading through an undefined value throws (a [TypeError]). *)
Definition defined {S A} (o : option A) : M S A :=
  match o with
  | Some a => mret a
  | None => throw (lit "TypeError")
  end.

(** What a run shows: the service functions entered and the requests sent,
    each with the state on screen at that moment. *)
Inductive Event (S : Type) : Type :=
| Called (c : ServiceCall)
| Requested (s : S) (req : Request).
Arguments Called {S}.
Arguments Requested {S}.

(** How a run ends: the handler returned or threw, or it is still waiting
    for a reply that has not come. *)
Inductive Ending (S A : Type) : Type :=
| Returned (s : S) (a : A)
| Threw (s : S) (e : jsstring)
| Pending (s : S).
Arguments Returned {S A}.
Arguments Threw {S A}.
Arguments Pending {S A}.

(** Running a computation against the replies of the service, in the order
    the requests are made: what the run shows, how it ends, and the
    replies left over. *)
Fixpoint run {S A} (p : Prog S A) (replies : list Outcome)
  : list (Event S) * Ending S A * list Outcome :=
  match p with
  | Ret s a => ([], Returned s a, replies)
  | Throw s e => ([], Threw s e, replies)
  | Enter c p' => let '(tr, fin, rest) := run p' replies in (Called c :: tr, fin, rest)
  | Await s req k =>
      match replies with
      | [] => ([Requested s req], Pending s, [])
      | o :: rest => let '(tr, fin, rest') := run (k o) rest in (Requested s req :: tr, fin, rest')
      end
  end.

Definition exec {S A} (p : Prog S A) (replies : list Outcome) : list (Event S) * Ending S A :=
  (run p replies).1.

Definition calls {S} (tr : list (Event S)) : list ServiceCall :=
  omap (fun ev => match ev with Called c => Some c | Requested _ _ => None end) tr.

Definition requests {S} (tr : list (Event S)) : list Request :=
  omap (fun ev => match ev with Called _ => None | Requested _ req => Some req end) tr.

Definition screens {S} (tr : list (Event S)) : list S :=
  omap (fun ev => match ev with Called _ => None | Requested s _ => Some s end) tr.

Definition final {S A} (fin : Ending S A) : S :=
  match fin with
  | Returned s _ | Threw s _ | Pending s => s
  end.

End Async.
Export Async.

(** Unfolds the monad operations, down to [bindP] and [catchP]. *)
Ltac async_unfold :=
  unfold mbind, M_bind, mret, M_ret, Async.set, enter, throw, tryCatch, await, defined;
  simpl.

(** ** [services/geminiService.ts] *)

Module GeminiService.

Definition textModel : jsstring := lit "gemini-2.5-pro".
Definition imageModel : jsstring := lit "imagen-4.0-generate-001".

Section Service.
Context `{Platform} {S : Type}.

(** The template literal of [generateComprehensiveTest]. *)
Definition testPrompt (requestedSection videoUrl transcript : jsstring) : jsstring :=
  lit "
      You are an expert IELTS test creator. Your task is to create a realistic IELTS mock test based on the provided video transcript. You must generate content for "
  ++ requestedSection
  ++ lit ".

      Video URL: "
  ++ videoUrl
  ++ lit "
      
      **Video Transcript:**
      ---
      "
  ++ transcript
  ++ lit "
      ---

      **Instructions:**
      1.  **Always** place the user-provided transcript **unmodified** into the 'transcript' field of the 'reading' section in the final JSON output.
      2.  Generate questions/prompts for the requested section(s) ONLY. All content must be thematically linked to the transcript.
      3.  For any sections NOT requested, you MUST provide empty or default values (e.g., empty arrays for questions, empty strings for prompts) to satisfy the schema. Do not omit any top-level keys.
      4.  For Listening and Reading questions, you MUST provide a correct 'answer' for each question.
      5.  For Writing Task 1, if you generate a table, the 'data' field must be a string in a clean, unformatted, raw CSV format. The first line MUST be the comma-separated headers. Subsequent lines are data rows. DO NOT include any markdown, code blocks, or styling characters. For example: 'Year,Revenue\n2022,5M\n2023,8M'.
      
      Strictly adhere to the JSON schema provided.
    ".

Definition generateComprehensiveTest (videoUrl transcript : jsstring) (testType : TestType)
  : M S IComprehensiveTest :=
  enter (call_generateComprehensiveTest videoUrl transcript testType) ;;
  let requestedSection :=
    match testType with
    | full => lit "all sections"
    | listening => lit "only the listening section"
    | reading => lit "only the reading section"
    | writing => lit "only the writing section"
    | speaking => lit "only the speaking section"
    end in
  let prompt := testPrompt requestedSection videoUrl transcript in
  response ← await (generateContent textModel prompt (lit "application/json") comprehensiveTestSchema);
  tryCatch
    (responseText ← defined (text response);
     let jsonText := trim responseText in
     defined (JSON_parse_test jsonText))
    (fun _ => throw (lit "Could not generate the test from the AI. The response was not valid JSON.")).

(** The template literal of [generateChartImage]. *)
Definition chartPrompt (chartData : IChartData) : jsstring :=
  lit "Generate a clean, simple, and easy-to-read "
  ++ chartTypeName (cd_type chartData)
  ++ lit " for an IELTS test. The title of the chart should be "
  ++ [DQUOTE]
  ++ cd_title chartData
  ++ [DQUOTE]
  ++ lit ". The data for the chart is: "
  ++ cd_data chartData
  ++ lit ". The chart should be visually clear, with labeled axes if appropriate. Do not add any text outside of the chart image itself. The style should be professional, minimalist, and use a muted color palette.".

Definition generateChartImage (chartData : IChartData) : M S jsstring :=
  enter (call_generateChartImage chartData) ;;
  let prompt := chartPrompt chartData in
  response ← await (generateImages imageModel prompt 1 (lit "image/png") (lit "16:9"));
  match generatedImages response with
  | Some (imageBytes :: _) => mret imageBytes
  | Some [] | None => throw (lit "Failed to generate chart image.")
  end.

(** The template literals of [evaluateComprehensiveTest]. *)
Definition speakingLine (i : nat) (t : SpeakingAnswer) : jsstring :=
  lit "Question "
  ++ decimal (i + 1)
  ++ lit ": "
  ++ [DQUOTE]
  ++ sa_question t
  ++ [DQUOTE]
  ++ lit "
Answer: "
  ++ [DQUOTE]
  ++ sa_answer t
  ++ [DQUOTE].

Definition evaluationPrompt (testContent : IComprehensiveTest) (userAnswers : Answers) : jsstring :=
  lit "
      You are an expert IELTS examiner. Evaluate a user's full IELTS test performance. Provide scores for each of the four main skills (Listening, Reading, Writing, Speaking) and for the specific sub-criteria of Writing and Speaking. The evaluation should be strict and align with official IELTS band descriptors.

      **Primary Task:** Evaluate the user's answers and provide scores/feedback for any submitted Writing and Speaking responses.
      **Secondary Task:** Rewrite the user's Writing and Speaking answers to a Band 7.5 level. These improved versions will be shown to the user for learning.

      Test Content and User Answers:
      
      **Source Text (Video Transcript):** "
  ++ [DQUOTE]
  ++ rs_transcript (ct_reading testContent)
  ++ [DQUOTE]
  ++ lit "

      1. Listening:
      (The user has been provided with the correct answers separately. Do not evaluate this section, but acknowledge it was part of the test.)
      Questions: "
  ++ JSON_stringify_strings (lq_question <$> ls_questions (ct_listening testContent))
  ++ lit "
      User's Answers: "
  ++ JSON_stringify_record (ans_listening userAnswers)
  ++ lit "

      2. Reading:
      (The user has been provided with the correct answers separately. Do not evaluate this section, but acknowledge it was part of the test.)
      Reading passage is the source text above.
      Questions: "
  ++ JSON_stringify_strings (rq_question <$> rs_questions (ct_reading testContent))
  ++ lit "
      User's Answers: "
  ++ JSON_stringify_record (ans_reading userAnswers)
  ++ lit "

      3. Writing:
      Task 1 Prompt: "
  ++ [DQUOTE]
  ++ t1_prompt (ws_task1 (ct_writing testContent))
  ++ [DQUOTE]
  ++ lit "
      User's Task 1 Answer: "
  ++ [DQUOTE]
  ++ wa_task1 (ans_writing userAnswers)
  ++ [DQUOTE]
  ++ lit "
      Task 2 Prompt: "
  ++ [DQUOTE]
  ++ ws_task2 (ct_writing testContent)
  ++ [DQUOTE]
  ++ lit "
      User's Task 2 Answer: "
  ++ [DQUOTE]
  ++ wa_task2 (ans_writing userAnswers)
  ++ [DQUOTE]
  ++ lit "

      4. Speaking:
      "
  ++ join (lit "\n\n") (imap speakingLine (ans_speaking userAnswers))
  ++ lit "

      **Instructions for Output:**
      1.  **Evaluation:** Provide an overall band score and a detailed breakdown of scores and feedback for each criterion provided in the user answers. If a section (e.g., Writing) was not part of the test, reflect this in the scores.
      2.  **Model Answers:** In the 'improvedAnswers' field, provide high-quality, rewritten versions of the user's Writing (Task 1 & 2) and all Speaking answers if they exist. These rewrites must exemplify a Band 7.5 level of English.
      
      Strictly adhere to the JSON schema provided.
    ".

Definition evaluateComprehensiveTest (testContent : IComprehensiveTest) (userAnswers : Answers)
  : M S IEvaluation :=
  enter (call_evaluateComprehensiveTest testContent userAnswers) ;;
  let prompt := evaluationPrompt testContent userAnswers in
  response ← await (generateContent textModel prompt (lit "application/json") comprehensiveEvaluationSchema);
  tryCatch
    (responseText ← defined (text response);
     let jsonText := trim responseText in
     defined (JSON_parse_evaluation jsonText))
    (fun _ => throw (lit "Could not parse the evaluation from the AI.")).

(** [s.score < 7.5] on binary64 values. *)
Definition belowTarget (s : ICriterion) : bool := (score s <? 7.5)%float.

(** The item returned when nothing is below the target. *)
Definition maintainExcellence : IPracticeItem := {|
  area := lit "Overall Excellence";
  title := lit "Maintain Your High Standard";
  description := lit "Your performance is already at a high level. The key now is to maintain consistency and continue practicing with a wide range of topics to stay sharp.";
  exercise := lit "Challenge yourself with complex abstract topics. Record yourself speaking for 2 minutes on topics like 'The future of artificial intelligence' or 'The role of art in society', then self-evaluate.";
|}.

(** The template literals of [getPracticePlan]. *)
Definition weaknessLine (w : ICriterion) : jsstring :=
  lit "- "
  ++ criterion w
  ++ lit " (Score: "
  ++ Number_toString (score w)
  ++ lit "): "
  ++ feedback w.

Definition practicePrompt (overallBandScore : number) (weaknesses : list ICriterion) : jsstring :=
  lit "
      Based on the following IELTS speaking evaluation, create a personalized practice plan to help the user achieve a band score of 7.5. 
      The user's current evaluation is:
      Overall Score: "
  ++ Number_toString overallBandScore
  ++ lit "
      Weakest Areas:
      "
  ++ join [LF] (weaknessLine <$> weaknesses)
  ++ lit "

      Generate 3 distinct, actionable practice exercises. Each exercise should target one of the user's weakest areas across any of the four skills (Listening, Reading, Writing, Speaking).
      
      Strictly adhere to the JSON schema provided.
    ".

Definition getPracticePlan (evaluation : IEvaluation) : M S (list IPracticeItem) :=
  enter (call_getPracticePlan evaluation) ;;
  let weaknesses := filter (fun s => belowTarget s = true) (detailedScores evaluation) in
  if decide (length weaknesses = 0) then
    mret [maintainExcellence]
  else
    let prompt := practicePrompt (overallBandScore evaluation) weaknesses in
    response ← await (generateContent textModel prompt (lit "application/json") practicePlanSchema);
    tryCatch
      (responseText ← defined (text response);
       let jsonText := trim responseText in
       defined (JSON_parse_plan jsonText))
      (fun _ => throw (lit "Could not parse the practice plan from the AI.")).

(** What each function makes of the reply to its request: the value it
    returns, or nothing when it throws (the promise was rejected, the
    response has no text or no image, or the text does not parse). *)
Definition textOf (o : Outcome) : option jsstring :=
  match o with
  | Resolved r => trim <$> text r
  | Rejected _ => None
  end.

Definition testOf (o : Outcome) : option IComprehensiveTest := textOf o ≫= JSON_parse_test.

Definition evaluationOf (o : Outcome) : option IEvaluation := textOf o ≫= JSON_parse_evaluation.

Definition planOf (o : Outcome) : option (list IPracticeItem) := textOf o ≫= JSON_parse_plan.

Definition imageOf (o : Outcome) : option jsstring :=
  match o with
  | Resolved r => generatedImages r ≫= head
  | Rejected _ => None
  end.

(** The criteria [getPracticePlan] reports to the service. *)
Definition weaknessesOf (evaluation : IEvaluation) : list ICriterion :=
  filter (fun s => belowTarget s = true) (detailedScores evaluation).

(** The requests of the four functions. *)
Definition testRequest (videoUrl transcript : jsstring) (testType : TestType) : Request :=
  generateContent textModel
    (testPrompt
       match testType with
       | full => lit "all sections"
       | listening => lit "only the listening section"
       | reading => lit "only the reading section"
       | writing => lit "only the writing section"
       | speaking => lit "only the speaking section"
       end videoUrl transcript)
    (lit "application/json") comprehensiveTestSchema.

Definition chartRequest (chartData : IChartData) : Request :=
  generateImages imageModel (chartPrompt chartData) 1 (lit "image/png") (lit "16:9").

Definition evaluationRequest (testContent : IComprehensiveTest) (userAnswers : Answers) : Request :=
  generateContent textModel (evaluationPrompt testContent userAnswers)
    (lit "application/json") comprehensiveEvaluationSchema.

Definition practiceRequest (evaluation : IEvaluation) : Request :=
  generateContent textModel
    (practicePrompt (overallBandScore evaluation) (weaknessesOf evaluation))
    (lit "application/json") practicePlanSchema.

End Service.

Arguments generateComprehensiveTest : simpl never.
Arguments generateChartImage : simpl never.
Arguments evaluateComprehensiveTest : simpl never.
Arguments getPracticePlan : simpl never.
Arguments testPrompt : simpl never.
Arguments chartPrompt : simpl never.
Arguments evaluationPrompt : simpl never.
Arguments practicePrompt : simpl never.

End GeminiService.
Export GeminiService.

(** ** [components/WelcomeScreen.tsx] *)

Module WelcomeScreen.

(** The three [useState] cells of the component. *)
Record State := {
  videoUrl : jsstring;
  transcript : jsstring;
  validationError : jsstring;
}.

Definition initial : State := {|
  videoUrl := lit "https://youtu.be/p1yCOdp2vs0?si=pKV47XzCq44ERMGO";
  transcript := [];
  validationError := [];
|}.

Definition setVideoUrl (v : jsstring) (w : State) : State :=
  {| videoUrl := v; transcript := transcript w; validationError := validationError w |}.
Definition setTranscript (v : jsstring) (w : State) : State :=
  {| videoUrl := videoUrl w; transcript := v; validationError := validationError w |}.
Definition setValidationError (v : jsstring) (w : State) : State :=
  {| videoUrl := videoUrl w; transcript := transcript w; validationError := v |}.

(** [/^(https?:\/\/)?(www\.)?(youtube\.com|youtu\.?be)\/.+$/],
    group by group. *)
Definition youtubeRegex : regex :=
  Seq (Opt (Seq (word (lit "http")) (Seq (Opt (Char 115)) (word (lit "://")))))
 (Seq (Opt (word (lit "www.")))
 (Seq (Alt (word (lit "youtube.com"))
           (Seq (word (lit "youtu")) (Seq (Opt (Char 46)) (word (lit "be")))))
 (Seq (Char SLASH)
      (Plus Dot)))).

(** The same pattern in words: an optional scheme, an optional [www.], one
    of three host spellings, a slash, and at least one more code unit, none
    of them a line terminator. *)
Definition YouTubeUrl (s : jsstring) : Prop :=
  exists scheme www host rest,
    scheme ∈ [[]; lit "http://"; lit "https://"]
    /\ www ∈ [[]; lit "www."]
    /\ host ∈ [lit "youtube.com"; lit "youtu.be"; lit "youtube"]
    /\ rest <> []
    /\ Forall (fun c => isLineTerminator c = false) rest
    /\ s = scheme ++ www ++ host ++ [SLASH] ++ rest.

(** The click handler of the five test-type buttons: the new state of the
    screen and the arguments [onStart] is called with, if it is called. *)
Definition handleStart (testType : TestType) (w : State)
  : State * option (jsstring * jsstring * TestType) :=
  if negb (test_anchored youtubeRegex (videoUrl w)) then
    (setValidationError (lit "Please enter a valid YouTube URL.") w, None)
  else if decide (length (trim (transcript w)) < 50) then
    (setValidationError
       (lit "Please paste the video transcript. It should be at least 50 characters long.") w,
     None)
  else
    (setValidationError [] w, Some (videoUrl w, transcript w, testType)).

(** [{validationError && <p>{validationError}</p>}]: the message on screen. *)
Definition shownValidation (w : State) : option jsstring :=
  match validationError w with
  | [] => None
  | msg => Some msg
  end.

End WelcomeScreen.

(** ** [components/TestScreen.tsx] *)

Module TestScreen.

(** What the table renderer returns: the invalid-table paragraph, the
    table with its title, header cells and body rows, or the paragraph of
    its [catch] branch. *)
Inductive TableView :=
| InvalidTable
| Table (title : jsstring) (headers : list jsstring) (bodyRows : list (list jsstring))
| TableError.

Definition TableRenderer (data title : jsstring) : TableView :=
  let rows := filter (fun row => trim row <> []) (split LF data) in
  if decide (length rows < 2) then InvalidTable
  else
    match rows !! 0 with
    | Some row0 =>
        let headers := trim <$> split COMMA row0 in
        let bodyRows := (fun row => trim <$> split COMMA row) <$> drop 1 rows in
        Table title headers bodyRows
    | None => TableError
    end.

(** The sections whose inputs call [handleAnswerChange]. *)
Inductive ObjectiveSection := obj_listening | obj_reading.

Inductive WritingTask := task1 | task2.

(** The state of the component: its own [useState] cells and those of
    [useSpeechToText] ([recognition] records whether an instance exists). *)
Record State := {
  currentSection : TestSection;
  answers : Answers;
  isListening : bool;
  transcript : jsstring;
  recognition : bool;
  currentSpeakingQuestionIndex : nat;
}.

Definition getInitialSection (testType : TestType) : TestSection :=
  match testType with
  | full | listening => sec_listening
  | reading => sec_reading
  | writing => sec_writing
  | speaking => sec_speaking
  end.

Definition noAnswers : Answers := {|
  ans_listening := ∅;
  ans_reading := ∅;
  ans_writing := {| wa_task1 := []; wa_task2 := [] |};
  ans_speaking := [];
|}.

(** The state after mounting; [speechSupported] tells whether the browser
    offers the speech recognition interface. *)
Definition initial (testType : TestType) (speechSupported : bool) : State := {|
  currentSection := getInitialSection testType;
  answers := noAnswers;
  isListening := false;
  transcript := [];
  recognition := speechSupported;
  currentSpeakingQuestionIndex := 0;
|}.

Definition setCurrentSection (v : TestSection) (t : State) : State :=
  {| currentSection := v; answers := answers t; isListening := isListening t;
     transcript := transcript t; recognition := recognition t;
     currentSpeakingQuestionIndex := currentSpeakingQuestionIndex t |}.
Definition setAnswers (f : Answers -> Answers) (t : State) : State :=
  {| currentSection := currentSection t; answers := f (answers t); isListening := isListening t;
     transcript := transcript t; recognition := recognition t;
     currentSpeakingQuestionIndex := currentSpeakingQuestionIndex t |}.
Definition setIsListening (v : bool) (t : State) : State :=
  {| currentSection := currentSection t; answers := answers t; isListening := v;
     transcript := transcript t; recognition := recognition t;
     currentSpeakingQuestionIndex := currentSpeakingQuestionIndex t |}.
Definition setTranscript (v : jsstring) (t : State) : State :=
  {| currentSection := currentSection t; answers := answers t; isListening := isListening t;
     transcript := v; recognition := recognition t;
     currentSpeakingQuestionIndex := currentSpeakingQuestionIndex t |}.
Definition setCurrentSpeakingQuestionIndex (f : nat -> nat) (t : State) : State :=
  {| currentSection := currentSection t; answers := answers t; isListening := isListening t;
     transcript := transcript t; recognition := recognition t;
     currentSpeakingQuestionIndex := f (currentSpeakingQuestionIndex t) |}.

Definition startListening (t : State) : State :=
  if recognition t then setIsListening true (setTranscript [] t) else t.

Definition stopListening (t : State) : State :=
  if recognition t then setIsListening false t else t.

Definition toggleRecording (t : State) : State :=
  if isListening t then stopListening t else startListening t.

Definition withSpeaking (speaking : list SpeakingAnswer) (a : Answers) : Answers :=
  {| ans_listening := ans_listening a; ans_reading := ans_reading a;
     ans_writing := ans_writing a; ans_speaking := speaking |}.

Definition handleAnswerChange (section : ObjectiveSection) (index : nat) (value : jsstring)
  : State -> State :=
  setAnswers (fun prev =>
    match section with
    | obj_listening =>
        {| ans_listening := <[index := value]> (ans_listening prev);
           ans_reading := ans_reading prev;
           ans_writing := ans_writing prev; ans_speaking := ans_speaking prev |}
    | obj_reading =>
        {| ans_listening := ans_listening prev;
           ans_reading := <[index := value]> (ans_reading prev);
           ans_writing := ans_writing prev; ans_speaking := ans_speaking prev |}
    end).

Definition handleWritingChange (task : WritingTask) (value : jsstring) : State -> State :=
  setAnswers (fun prev =>
    {| ans_listening := ans_listening prev; ans_reading := ans_reading prev;
       ans_writing :=
         match task with
         | task1 => {| wa_task1 := value; wa_task2 := wa_task2 (ans_writing prev) |}
         | task2 => {| wa_task1 := wa_task1 (ans_writing prev); wa_task2 := value |}
         end;
       ans_speaking := ans_speaking prev |}).

Section Component.
Context `{Platform}.
(** The props of the component. *)
Context (testContent : IComprehensiveTest) (videoUrl : jsstring) (testType : TestType).

(** The [useMemo] that extracts the id of the embedded video. *)
Definition videoId : jsstring :=
  match URL_new videoUrl with
  | Some url =>
      if decide (hostname url = lit "youtu.be") then slice1 (pathname url)
      else orElse (default [] (searchParams_get (lit "v") (searchParams url))) []
  | None => []
  end.

Definition sections : list TestSection :=
  [sec_listening; sec_reading; sec_writing; sec_speaking].

(** [sections.indexOf(currentSection)]. *)
Definition indexOfSection (s : TestSection) : nat :=
  match s with
  | sec_listening => 0
  | sec_reading => 1
  | sec_writing => 2
  | sec_speaking => 3
  end.

(** Each handler returns the new state and the answers [onTestComplete] is
    called with, if it is called. *)
Definition nextSection (t : State) : State * option Answers :=
  if decide (testType <> full) then (t, Some (answers t))
  else
    let currentIndex := indexOfSection (currentSection t) in
    if decide (currentIndex < length sections - 1) then
      match sections !! (currentIndex + 1) with
      | Some s => (setCurrentSection s t, None)
      | None => (t, None)
      end
    else (t, None).

Definition currentSpeakingQuestion (t : State) : option IQuestion :=
  ct_speaking testContent !! currentSpeakingQuestionIndex t.

(** [currentSpeakingQuestionIndex === testContent.speaking.length - 1],
    on integers: the right-hand side is -1 for an empty list. *)
Definition isLastSpeakingQuestion (t : State) : bool :=
  (Z.of_nat (currentSpeakingQuestionIndex t) =? Z.of_nat (length (ct_speaking testContent)) - 1)%Z.

Definition handleNextSpeakingQuestion (t : State) : State * option Answers :=
  match currentSpeakingQuestion t with
  | None => (t, None)
  | Some q =>
      let t1 := if isListening t then stopListening t else t in
      let newAnswer := {| sa_question := q_question q; sa_answer := transcript t |} in
      let updatedSpeakingAnswers := ans_speaking (answers t) ++ [newAnswer] in
      let t2 := setAnswers (withSpeaking updatedSpeakingAnswers) t1 in
      if isLastSpeakingQuestion t then
        (t2, Some (withSpeaking updatedSpeakingAnswers (answers t)))
      else
        (setTranscript [] (setCurrentSpeakingQuestionIndex (fun prev => prev + 1) t2), None)
  end.

(** The entry recorded for a question answered with [buffer]. *)
Definition spoken (q : IQuestion) (buffer : jsstring) : SpeakingAnswer :=
  {| sa_question := q_question q; sa_answer := buffer |}.

(** What the user and the speech recogniser can do to the mounted screen. *)
Inductive Event :=
| AnswerChange (section : ObjectiveSection) (index : nat) (value : jsstring)
| WritingChange (task : WritingTask) (value : jsstring)
| NextSectionClick
| RecordingToggle
| RecognitionResult (fullTranscript : jsstring)
| TranscriptEdit (value : jsstring)
| NextSpeakingQuestionClick.

Definition handle (ev : Event) (t : State) : State * option Answers :=
  match ev with
  | AnswerChange section index value => (handleAnswerChange section index value t, None)
  | WritingChange task value => (handleWritingChange task value t, None)
  | NextSectionClick => nextSection t
  | RecordingToggle => (toggleRecording t, None)
  | RecognitionResult fullTranscript => (setTranscript fullTranscript t, None)
  | TranscriptEdit value => (setTranscript value t, None)
  | NextSpeakingQuestionClick => handleNextSpeakingQuestion t
  end.

(** The events of the speaking section that leave the question pointer
    alone: recording, recognition results and edits of the buffer. *)
Definition isBufferEvent (ev : Event) : bool :=
  match ev with
  | RecordingToggle | RecognitionResult _ | TranscriptEdit _ => true
  | _ => false
  end.

(** A run of events, with every completion signalled on the way. *)
Fixpoint play (evs : list Event) (t : State) : State * list Answers :=
  match evs with
  | [] => (t, [])
  | ev :: rest =>
      let '(t1, done1) := handle ev t in
      let '(t2, done2) := play rest t1 in
      (t2, option_list done1 ++ done2)
  end.

(** One round of the speaking section: the user works on the buffer, then
    advances. The result carries the buffer as it stood at the advance. *)
Definition speakingRound (buffer : list Event) (t : State) : State * jsstring * option Answers :=
  let t1 := (play buffer t).1 in
  let '(t2, done) := handleNextSpeakingQuestion t1 in
  (t2, transcript t1, done).

Fixpoint speakingRounds (rounds : list (list Event)) (t : State)
  : State * list jsstring * list Answers :=
  match rounds with
  | [] => (t, [], [])
  | buffer :: rest =>
      let '(t1, snapshot, done1) := speakingRound buffer t in
      let '(t2, snapshots, done2) := speakingRounds rest t1 in
      (t2, snapshot :: snapshots, option_list done1 ++ done2)
  end.

(** *** What the screen shows

    The render functions, as the content they put on the page and the
    controls they offer; class names and layout are left out. A render
    function that throws (reading a property of [undefined]) yields
    [None]. *)

#[global] Instance TestSection_eq_dec : EqDecision TestSection.
Proof. solve_decision. Defined.

#[global] Instance ObjectiveSection_eq_dec : EqDecision ObjectiveSection.
Proof. solve_decision. Defined.

#[global] Instance WritingTask_eq_dec : EqDecision WritingTask.
Proof. solve_decision. Defined.

#[global] Instance Event_eq_dec : EqDecision Event.
Proof. solve_decision. Defined.

(** [YoutubePlayer]: the address of the embedded frame. *)
Definition YoutubePlayer (videoId : jsstring) : jsstring :=
  lit "https://www.youtube.com/embed/" ++ videoId.

(** What stands above the Task 1 prompt: the table, the chart image with
    its [src] and [alt], or nothing. *)
Inductive Visual :=
| TableVisual (table : TableView)
| ImageVisual (src alt : jsstring)
| NoVisual.

(** The content of a section: a lone paragraph, or the section with its
    texts, the values of its controlled inputs and the labels of its
    buttons. *)
Inductive SectionView :=
| Notice (text : jsstring)
| ListeningView (player : option jsstring) (questions : list jsstring)
| ReadingView (passage : jsstring) (questions : list jsstring)
| WritingView (visual : Visual) (prompt1 value1 prompt2 value2 : jsstring)
| SpeakingView (heading question : jsstring) (cueCard : option CueCard) (value : jsstring)
    (recording : bool) (advance : jsstring).

Definition renderListening : SectionView :=
  ListeningView
    (match videoId with
     | [] => None
     | _ => Some (YoutubePlayer videoId)
     end)
    (imap (fun index q => decimal (index + 1) ++ lit ". " ++ lq_question q)
       (ls_questions (ct_listening testContent))).

Definition renderReading : SectionView :=
  ReadingView (rs_transcript (ct_reading testContent))
    (imap (fun index q => decimal (index + 1) ++ lit ". " ++ rq_question q)
       (rs_questions (ct_reading testContent))).

(** [chartData?.type === 'table' ? <TableRenderer/> : chartImage && <img/>];
    the image takes its [alt] from [chartData.title], which throws when
    there is an image and no chart data. *)
Definition renderWriting (t : State) : option SectionView :=
  let task1 := ws_task1 (ct_writing testContent) in
  visual ←
    (if decide (cd_type <$> chartData task1 = Some table) then
       chart ← chartData task1;
       Some (TableVisual (TableRenderer (cd_data chart) (cd_title chart)))
     else
       match chartImage task1 with
       | Some (c :: image) =>
           chart ← chartData task1;
           Some (ImageVisual (lit "data:image/png;base64," ++ c :: image) (cd_title chart))
       | Some [] | None => Some NoVisual
       end);
  Some (WritingView visual
          (t1_prompt task1) (wa_task1 (ans_writing (answers t)))
          (ws_task2 (ct_writing testContent)) (wa_task2 (ans_writing (answers t)))).

Definition renderSpeaking (t : State) : SectionView :=
  match currentSpeakingQuestion t with
  | None => Notice (lit "Loading speaking question...")
  | Some q =>
      SpeakingView
        (lit "Part " ++ Number_toString (q_part q) ++ lit " - Question "
         ++ decimal (currentSpeakingQuestionIndex t + 1) ++ lit "/"
         ++ decimal (length (ct_speaking testContent)))
        (q_question q) (q_cueCard q) (transcript t) (isListening t)
        (if isLastSpeakingQuestion t then lit "Finish & Evaluate" else lit "Next Question")
  end.

Definition renderContent (t : State) : option SectionView :=
  match currentSection t with
  | sec_listening =>
      if decide (0 < length (ls_questions (ct_listening testContent))) then Some renderListening
      else Some (Notice (lit "No listening questions generated for this test."))
  | sec_reading =>
      if decide (0 < length (rs_questions (ct_reading testContent))) then Some renderReading
      else Some (Notice (lit "No reading questions generated for this test."))
  | sec_writing =>
      if decide (orElse (t1_prompt (ws_task1 (ct_writing testContent)))
                   (ws_task2 (ct_writing testContent)) <> [])
      then renderWriting t
      else Some (Notice (lit "No writing tasks generated for this test."))
  | sec_speaking =>
      if decide (0 < length (ct_speaking testContent)) then Some (renderSpeaking t)
      else Some (Notice (lit "No speaking questions generated for this test."))
  end.

(** The screen: the content of the current section and, outside the
    speaking section, the button that calls [nextSection], with its label. *)
Record View := {
  shown : SectionView;
  nextButton : option jsstring;
}.

Definition render (t : State) : option View :=
  section ← renderContent t;
  Some {| shown := section;
          nextButton :=
            if decide (currentSection t <> sec_speaking) then
              Some (if decide (testType = full) then lit "Next Section"
                    else lit "Finish & Submit")
            else None |}.

(** Whether an event can reach its handler in state [t]: the element that
    carries the handler is on the page and not disabled. Inputs exist for
    the questions of the section shown; the buffer and the advance button
    of the speaking section are disabled while recording; the recogniser
    reports results only if an instance was created. Nothing can happen on
    a screen whose render threw. *)
Definition enabled (ev : Event) (t : State) : bool :=
  match render t with
  | None => false
  | Some view =>
      match ev, shown view with
      | AnswerChange obj_listening index _, ListeningView _ questions =>
          bool_decide (index < length questions)
      | AnswerChange obj_reading index _, ReadingView _ questions =>
          bool_decide (index < length questions)
      | WritingChange _ _, WritingView _ _ _ _ _ => true
      | NextSectionClick, _ => bool_decide (is_Some (nextButton view))
      | RecordingToggle, SpeakingView _ _ _ _ _ _ => true
      | TranscriptEdit _, SpeakingView _ _ _ _ recording _ => negb recording
      | NextSpeakingQuestionClick, SpeakingView _ _ _ _ recording _ => negb recording
      | RecognitionResult _, _ => recognition t
      | _, _ => false
      end
  end.

(** A run of events each of which can happen when its turn comes. *)
Fixpoint allowed (evs : list Event) (t : State) : bool :=
  match evs with
  | [] => true
  | ev :: rest => enabled ev t && allowed rest (handle ev t).1
  end.

(** The text handed to the download by [handleDownloadTest]. *)
Definition handleDownloadTest : jsstring :=
  let content := lit "IELTS Mock Test Content" ++ [LF; LF] in
  let content := content ++ lit "Video URL: " ++ videoUrl ++ [LF; LF] in
  let content := content ++ lit "--- TRANSCRIPT / READING PASSAGE ---" ++ [LF] in
  let content := content ++ rs_transcript (ct_reading testContent) ++ [LF; LF] in
  let content :=
    if decide (0 < length (ls_questions (ct_listening testContent))) then
      content ++ lit "--- LISTENING QUESTIONS ---" ++ [LF]
      ++ mjoin (imap (fun i q => decimal (i + 1) ++ lit ". " ++ lq_question q ++ [LF])
                  (ls_questions (ct_listening testContent)))
      ++ [LF]
    else content in
  let content :=
    if decide (0 < length (rs_questions (ct_reading testContent))) then
      content ++ lit "--- READING QUESTIONS ---" ++ [LF]
      ++ mjoin (imap (fun i q => decimal (i + 1) ++ lit ". " ++ rq_question q ++ [LF])
                  (rs_questions (ct_reading testContent)))
      ++ [LF]
    else content in
  let content :=
    if decide (orElse (t1_prompt (ws_task1 (ct_writing testContent)))
                 (ws_task2 (ct_writing testContent)) <> [])
    then
      content ++ lit "--- WRITING QUESTIONS ---" ++ [LF]
      ++ lit "Task 1: " ++ t1_prompt (ws_task1 (ct_writing testContent)) ++ [LF]
      ++ match chartData (ws_task1 (ct_writing testContent)) with
         | Some chart =>
             lit "Chart Title: " ++ cd_title chart ++ [LF]
             ++ lit "Chart Type: " ++ chartTypeName (cd_type chart) ++ [LF]
             ++ lit "Chart Data: " ++ cd_data chart ++ [LF]
         | None => []
         end
      ++ [LF] ++ lit "Task 2: " ++ ws_task2 (ct_writing testContent) ++ [LF]
    else content in
  content.

(** The text of a table in the format the generation prompt asks for: one
    line per row, the header row first, the cells of a row separated by
    commas. *)
Definition csv (rows : list (list jsstring)) : jsstring :=
  join [LF] (join [COMMA] <$> rows).

(** A cell as the renderer shows it: no comma, no line feed, no white
    space around it. *)
Definition cellShown (cell : jsstring) : Prop :=
  (COMMA ∉ cell) /\ (LF ∉ cell) /\ trim cell = cell.

(** A row as the renderer shows it: at least one cell, and not a lone
    empty one (the line of such a row would be blank). *)
Definition rowShown (row : list jsstring) : Prop :=
  row <> [] /\ row <> [[]] /\ Forall cellShown row.

(** The one shape of test content the writing section cannot show: there
    is a writing task and an image for it, but no chart data to take the
    image's [alt] text from. *)
Definition writingBroken : Prop :=
  orElse (t1_prompt (ws_task1 (ct_writing testContent))) (ws_task2 (ct_writing testContent)) <> []
  /\ chartData (ws_task1 (ct_writing testContent)) = None
  /\ exists c image, chartImage (ws_task1 (ct_writing testContent)) = Some (c :: image).

End Component.

End TestScreen.

(** ** [components/EvaluationScreen.tsx] *)

Module EvaluationScreen.

Section Component.
Context `{Platform}.
(** The props the export reads. *)
Context (userAnswers : Answers) (testContent : IComprehensiveTest).

Definition mainSkills : list jsstring :=
  [lit "Listening"; lit "Reading"; lit "Writing"; lit "Speaking"].

Definition mainScores (evaluation : IEvaluation) : list ICriterion :=
  filter (fun s => criterion s ∈ mainSkills) (detailedScores evaluation).

Definition detailedCriteria (evaluation : IEvaluation) : list ICriterion :=
  filter (fun s => criterion s ∉ mainSkills) (detailedScores evaluation).

(** The pieces appended to [markdownContent], statement by statement. *)
Definition reportTitle : jsstring :=
  lit "# IELTS Evaluation Report"
  ++ [LF; LF].

Definition scoreTableHead (evaluation : IEvaluation) : jsstring :=
  lit "## Overall Band Score: "
  ++ Number_toFixed1 (overallBandScore evaluation)
  ++ [LF; LF]
  ++ lit "| Section   | Score |"
  ++ [LF]
  ++ lit "|-----------|-------|"
  ++ [LF].

Definition mainScoreRow (score : ICriterion) : jsstring :=
  lit "| "
  ++ criterion score
  ++ lit " | "
  ++ Number_toFixed1 (Types.score score)
  ++ lit " |"
  ++ [LF].

Definition summarySection (evaluation : IEvaluation) : jsstring :=
  [LF]
  ++ lit "## Examiner's Summary"
  ++ [LF; LF]
  ++ summary evaluation
  ++ [LF; LF]
  ++ lit "## Detailed Feedback"
  ++ [LF; LF].

Definition detailedBlock (item : ICriterion) : jsstring :=
  lit "### "
  ++ criterion item
  ++ lit ": "
  ++ Number_toFixed1 (score item)
  ++ [LF]
  ++ feedback item
  ++ [LF; LF].

Definition writingSection (improved : IImprovedAnswers) : jsstring :=
  lit "## Path to Band 7.5: Model Answers"
  ++ [LF; LF]
  ++ lit "### Writing Task 1"
  ++ [LF; LF]
  ++ lit "#### Question"
  ++ [LF; LF]
  ++ t1_prompt (ws_task1 (ct_writing testContent))
  ++ [LF; LF]
  ++ lit "#### Your Answer"
  ++ [LF; LF]
  ++ lit "```"
  ++ [LF]
  ++ orElse (wa_task1 (ans_writing userAnswers)) (lit "No answer provided.")
  ++ [LF]
  ++ lit "```"
  ++ [LF; LF]
  ++ lit "#### Model Answer (Band 7.5)"
  ++ [LF; LF]
  ++ lit "```"
  ++ [LF]
  ++ writingTask1 improved
  ++ [LF]
  ++ lit "```"
  ++ [LF; LF]
  ++ lit "### Writing Task 2"
  ++ [LF; LF]
  ++ lit "#### Question"
  ++ [LF; LF]
  ++ ws_task2 (ct_writing testContent)
  ++ [LF; LF]
  ++ lit "#### Your Answer"
  ++ [LF; LF]
  ++ lit "```"
  ++ [LF]
  ++ orElse (wa_task2 (ans_writing userAnswers)) (lit "No answer provided.")
  ++ [LF]
  ++ lit "```"
  ++ [LF; LF]
  ++ lit "#### Model Answer (Band 7.5)"
  ++ [LF; LF]
  ++ lit "```"
  ++ [LF]
  ++ writingTask2 improved
  ++ [LF]
  ++ lit "```"
  ++ [LF; LF].

Definition speakingBlock (index : nat) (item : IImprovedSpeakingAnswer) : jsstring :=
  lit "### Speaking Question: "
  ++ [DQUOTE]
  ++ isa_question item
  ++ [DQUOTE]
  ++ [LF; LF]
  ++ lit "#### Your Answer"
  ++ [LF; LF]
  ++ lit "```"
  ++ [LF]
  ++ orElse (default [] (sa_answer <$> ans_speaking userAnswers !! index)) (lit "No answer provided.")
  ++ [LF]
  ++ lit "```"
  ++ [LF; LF]
  ++ lit "#### Model Answer (Band 7.5)"
  ++ [LF; LF]
  ++ lit "```"
  ++ [LF]
  ++ improvedAnswer item
  ++ [LF]
  ++ lit "```"
  ++ [LF; LF].

Definition practiceHead : jsstring :=
  lit "## Your Personalized Practice Plan"
  ++ [LF; LF].

Definition practiceBlock (item : IPracticeItem) : jsstring :=
  lit "### "
  ++ title item
  ++ [LF; LF]
  ++ lit "**Focus Area:** "
  ++ area item
  ++ [LF; LF]
  ++ description item
  ++ [LF; LF]
  ++ lit "**Exercise:**"
  ++ [LF]
  ++ lit "```"
  ++ [LF]
  ++ exercise item
  ++ [LF]
  ++ lit "```"
  ++ [LF; LF].

(** The text handed to the download: what [handleSaveAsMarkdown] builds
    before it creates the blob. *)
Definition handleSaveAsMarkdown (evaluation : option IEvaluation)
  (practicePlan : option (list IPracticeItem)) : jsstring :=
  let markdownContent := reportTitle in
  let markdownContent :=
    match evaluation with
    | Some evaluation =>
        markdownContent
        ++ scoreTableHead evaluation
        ++ mjoin (mainScoreRow <$> mainScores evaluation)
        ++ summarySection evaluation
        ++ mjoin (detailedBlock <$> detailedCriteria evaluation)
    | None => markdownContent
    end in
  let markdownContent :=
    match evaluation ≫= improvedAnswers with
    | Some improved =>
        markdownContent
        ++ writingSection improved
        ++ mjoin (imap speakingBlock (ia_speaking improved))
    | None => markdownContent
    end in
  let markdownContent :=
    match practicePlan with
    | Some practicePlan =>
        markdownContent
        ++ practiceHead
        ++ mjoin (practiceBlock <$> practicePlan)
    | None => markdownContent
    end in
  markdownContent.

(** *** Texts written once

    For reading the export as a function of one of the values it prints:
    the text of the value is written exactly once when the document is
    what stands before the text, the text, and what stands after it, the
    two sides being the same whatever the value is. *)
Definition WrittenOnce {A} (text document : A -> jsstring) : Prop :=
  exists before after, forall a, document a = before ++ text a ++ after.

(** The same evaluation with another overall score or other detailed
    scores, the same criterion with another feedback, the same practice
    item with another exercise. *)
Definition withOverallBandScore (overall : number) (evaluation : IEvaluation) : IEvaluation :=
  {| overallBandScore := overall; detailedScores := detailedScores evaluation;
     summary := summary evaluation; improvedAnswers := improvedAnswers evaluation |}.

Definition withDetailedScores (scores : list ICriterion) (evaluation : IEvaluation)
  : IEvaluation :=
  {| overallBandScore := overallBandScore evaluation; detailedScores := scores;
     summary := summary evaluation; improvedAnswers := improvedAnswers evaluation |}.

Definition withFeedback (text : jsstring) (c : ICriterion) : ICriterion :=
  {| criterion := criterion c; score := score c; feedback := text |}.

Definition withExercise (text : jsstring) (item : IPracticeItem) : IPracticeItem :=
  {| area := area item; title := title item; description := description item;
     exercise := text |}.

(** *** What the screen shows

    The components of the report, as the texts they put on the page. *)

(** [ScoreCircle]: the class of the figure, the class of the ring derived
    from it, and the figure. *)
Definition getScoreColor (score : number) : jsstring :=
  if (7.5 <=? score)%float then lit "text-green-500"
  else if (6.0 <=? score)%float then lit "text-yellow-500"
  else lit "text-red-500".

Record ScoreCircleView := {
  ring : jsstring;
  figureColor : jsstring;
  figure : jsstring;
}.

Definition ScoreCircle (score : number) : ScoreCircleView := {|
  ring := replace (lit "text-") (lit "border-") (getScoreColor score);
  figureColor := getScoreColor score;
  figure := Number_toFixed1 score;
|}.

(** [AnswerComparison]: the user's answer, or the placeholder, beside the
    model answer. *)
Record ComparisonView := {
  cmp_title : jsstring;
  cmp_prompt : option jsstring;
  cmp_original : jsstring;
  cmp_improved : jsstring;
}.

Definition AnswerComparison (title : jsstring) (original : option jsstring) (improved : jsstring)
  : ComparisonView := {|
  cmp_title := title;
  cmp_prompt := None;
  cmp_original := orElse (default [] original) (lit "No answer provided.");
  cmp_improved := improved;
|}.

(** [AnswerKey]: one row per question, with the answer recorded under the
    index of the question; [None] stands for the placeholder shown when
    that answer is missing or empty. *)
Record KeyRow := {
  key_question : jsstring;
  key_yourAnswer : option jsstring;
  key_correctAnswer : jsstring;
}.

Record AnswerKeyView := {
  key_title : jsstring;
  key_rows : list KeyRow;
}.

Definition AnswerKey {Q} (question answer : Q -> jsstring) (title : jsstring)
    (questions : list Q) (answers : gmap nat jsstring) : AnswerKeyView := {|
  key_title := title ++ lit " Answer Key";
  key_rows :=
    imap (fun index q =>
            {| key_question := decimal (index + 1) ++ lit ". " ++ question q;
               key_yourAnswer :=
                 match answers !! index with
                 | Some (c :: value) => Some (c :: value)
                 | Some [] | None => None
                 end;
               key_correctAnswer := answer q |})
      questions;
|}.

(** The evaluation report: the circle, the cards of the main skills and of
    the detailed criteria, the summary, and the model answers if the
    evaluation has them. *)
Record ReportView := {
  rep_circle : ScoreCircleView;
  rep_mainScores : list (jsstring * jsstring);
  rep_summary : jsstring;
  rep_detailed : list (jsstring * jsstring * jsstring);
  rep_modelAnswers : option (list ComparisonView);
}.

(** The three blocks of the page, each present or not. *)
Record View := {
  answerKeys : option (list AnswerKeyView);
  report : option ReportView;
  plan : option (list IPracticeItem);
}.

Definition render (evaluation : option IEvaluation) (practicePlan : option (list IPracticeItem))
  : View := {|
  answerKeys :=
    let listeningQuestions := ls_questions (ct_listening testContent) in
    let readingQuestions := rs_questions (ct_reading testContent) in
    if decide (0 < length listeningQuestions \/ 0 < length readingQuestions) then
      Some ((if decide (0 < length listeningQuestions) then
               [AnswerKey lq_question lq_answer (lit "Listening") listeningQuestions
                  (ans_listening userAnswers)]
             else [])
            ++ (if decide (0 < length readingQuestions) then
                  [AnswerKey rq_question rq_answer (lit "Reading") readingQuestions
                     (ans_reading userAnswers)]
                else []))
    else None;
  report :=
    evaluation ← evaluation;
    Some {|
      rep_circle := ScoreCircle (overallBandScore evaluation);
      rep_mainScores :=
        (fun score => (criterion score, Number_toFixed1 (Types.score score)))
        <$> mainScores evaluation;
      rep_summary := summary evaluation;
      rep_detailed :=
        (fun item => (criterion item, Number_toFixed1 (score item), feedback item))
        <$> detailedCriteria evaluation;
      rep_modelAnswers :=
        improved ← improvedAnswers evaluation;
        Some ([{| cmp_title := lit "Writing Task 1";
                  cmp_prompt := Some (t1_prompt (ws_task1 (ct_writing testContent)));
                  cmp_original :=
                    orElse (wa_task1 (ans_writing userAnswers)) (lit "No answer provided.");
                  cmp_improved := writingTask1 improved |};
               {| cmp_title := lit "Writing Task 2";
                  cmp_prompt := Some (ws_task2 (ct_writing testContent));
                  cmp_original :=
                    orElse (wa_task2 (ans_writing userAnswers)) (lit "No answer provided.");
                  cmp_improved := writingTask2 improved |}]
              ++ imap (fun index item =>
                         AnswerComparison
                           (lit "Speaking Question: " ++ [DQUOTE] ++ isa_question item ++ [DQUOTE])
                           (sa_answer <$> ans_speaking userAnswers !! index)
                           (improvedAnswer item))
                   (ia_speaking improved))
    |};
  plan :=
    match practicePlan with
    | Some (item :: items) => Some (item :: items)
    | Some [] | None => None
    end;
|}.

(** *** The export, read off the screen

    The text the export would hold if it were written from what the screen
    shows: the figures as displayed, the cards in their order, one block
    per comparison. *)
Definition comparisonBlock (c : ComparisonView) : jsstring :=
  lit "### " ++ cmp_title c ++ [LF; LF]
  ++ match cmp_prompt c with
     | Some prompt => lit "#### Question" ++ [LF; LF] ++ prompt ++ [LF; LF]
     | None => []
     end
  ++ lit "#### Your Answer" ++ [LF; LF]
  ++ lit "```" ++ [LF] ++ cmp_original c ++ [LF] ++ lit "```" ++ [LF; LF]
  ++ lit "#### Model Answer (Band 7.5)" ++ [LF; LF]
  ++ lit "```" ++ [LF] ++ cmp_improved c ++ [LF] ++ lit "```" ++ [LF; LF].

Definition reportText (r : ReportView) : jsstring :=
  lit "## Overall Band Score: " ++ figure (rep_circle r) ++ [LF; LF]
  ++ lit "| Section   | Score |" ++ [LF]
  ++ lit "|-----------|-------|" ++ [LF]
  ++ mjoin ((fun card => lit "| " ++ card.1 ++ lit " | " ++ card.2 ++ lit " |" ++ [LF])
            <$> rep_mainScores r)
  ++ [LF] ++ lit "## Examiner's Summary" ++ [LF; LF]
  ++ rep_summary r ++ [LF; LF]
  ++ lit "## Detailed Feedback" ++ [LF; LF]
  ++ mjoin ((fun card => lit "### " ++ card.1.1 ++ lit ": " ++ card.1.2 ++ [LF]
                         ++ card.2 ++ [LF; LF])
            <$> rep_detailed r)
  ++ match rep_modelAnswers r with
     | Some comparisons =>
         lit "## Path to Band 7.5: Model Answers" ++ [LF; LF]
         ++ mjoin (comparisonBlock <$> comparisons)
     | None => []
     end.

End Component.

End EvaluationScreen.

(** ** [App.tsx] *)

Module App.

Inductive AppState := welcome | generating | test | evaluating | results.

#[global] Instance AppState_eq_dec : EqDecision AppState.
Proof. solve_decision. Defined.

(** The eight [useState] cells of the application. *)
Record Data := {
  appState : AppState;
  evaluation : option IEvaluation;
  practicePlan : option (list IPracticeItem);
  comprehensiveTest : option IComprehensiveTest;
  userAnswers : option Answers;
  videoUrl : jsstring;
  error : option jsstring;
  testType : option TestType;
}.

Definition initial : Data := {|
  appState := welcome; evaluation := None; practicePlan := None;
  comprehensiveTest := None; userAnswers := None; videoUrl := [];
  error := None; testType := None;
|}.

Definition setAppState (v : AppState) (a : Data) : Data :=
  {| appState := v; evaluation := evaluation a; practicePlan := practicePlan a;
     comprehensiveTest := comprehensiveTest a; userAnswers := userAnswers a;
     videoUrl := videoUrl a; error := error a; testType := testType a |}.
Definition setEvaluation (v : option IEvaluation) (a : Data) : Data :=
  {| appState := appState a; evaluation := v; practicePlan := practicePlan a;
     comprehensiveTest := comprehensiveTest a; userAnswers := userAnswers a;
     videoUrl := videoUrl a; error := error a; testType := testType a |}.
Definition setPracticePlan (v : option (list IPracticeItem)) (a : Data) : Data :=
  {| appState := appState a; evaluation := evaluation a; practicePlan := v;
     comprehensiveTest := comprehensiveTest a; userAnswers := userAnswers a;
     videoUrl := videoUrl a; error := error a; testType := testType a |}.
Definition setComprehensiveTest (v : option IComprehensiveTest) (a : Data) : Data :=
  {| appState := appState a; evaluation := evaluation a; practicePlan := practicePlan a;
     comprehensiveTest := v; userAnswers := userAnswers a;
     videoUrl := videoUrl a; error := error a; testType := testType a |}.
Definition setUserAnswers (v : option Answers) (a : Data) : Data :=
  {| appState := appState a; evaluation := evaluation a; practicePlan := practicePlan a;
     comprehensiveTest := comprehensiveTest a; userAnswers := v;
     videoUrl := videoUrl a; error := error a; testType := testType a |}.
Definition setVideoUrl (v : jsstring) (a : Data) : Data :=
  {| appState := appState a; evaluation := evaluation a; practicePlan := practicePlan a;
     comprehensiveTest := comprehensiveTest a; userAnswers := userAnswers a;
     videoUrl := v; error := error a; testType := testType a |}.
Definition setError (v : option jsstring) (a : Data) : Data :=
  {| appState := appState a; evaluation := evaluation a; practicePlan := practicePlan a;
     comprehensiveTest := comprehensiveTest a; userAnswers := userAnswers a;
     videoUrl := videoUrl a; error := v; testType := testType a |}.
Definition setTestType (v : option TestType) (a : Data) : Data :=
  {| appState := appState a; evaluation := evaluation a; practicePlan := practicePlan a;
     comprehensiveTest := comprehensiveTest a; userAnswers := userAnswers a;
     videoUrl := videoUrl a; error := error a; testType := v |}.

Definition generationError : jsstring :=
  lit "Failed to generate the test. Please check the video URL or try again.".
Definition evaluationError : jsstring :=
  lit "An error occurred during evaluation. Please try again.".
Definition missingContentError : jsstring :=
  lit "Test content is missing. Please restart.".

(** [testContent.writing.task1.chartImage = chartImageBase64]. *)
Definition attachChartImage (chartImageBase64 : jsstring) (testContent : IComprehensiveTest)
  : IComprehensiveTest :=
  {| ct_listening := ct_listening testContent;
     ct_reading := ct_reading testContent;
     ct_writing :=
       {| ws_task1 :=
            {| t1_prompt := t1_prompt (ws_task1 (ct_writing testContent));
               chartData := chartData (ws_task1 (ct_writing testContent));
               chartImage := Some chartImageBase64 |};
          ws_task2 := ws_task2 (ct_writing testContent) |};
     ct_speaking := ct_speaking testContent |}.

(** The test types whose answers are sent for evaluation. *)
Definition isSubjective (t : TestType) : bool :=
  match t with
  | writing | speaking | full => true
  | listening | reading => false
  end.

Section Handlers.
Context `{Platform}.

(** Whether [startTest] asks for an image of the chart. *)
Definition chartToDraw (testContent : IComprehensiveTest) : option IChartData :=
  match chartData (ws_task1 (ct_writing testContent)) with
  | Some chart => if decide (cd_type chart <> table) then Some chart else None
  | None => None
  end.

(** The data on screen while the test is generated. *)
Definition generatingData (url : jsstring) (type : TestType) (a : Data) : Data :=
  setTestType (Some type) (setVideoUrl url (setError None (setAppState generating a))).

(** How far the generation gets on the replies of the service: the test
    content is awaited, unusable, or usable; then the chart image is not
    asked for, awaited, unusable, or usable. *)
Inductive GenerationRun :=
| contentPending
| contentFailed
| chartPending (testContent : IComprehensiveTest) (chart : IChartData)
| chartFailed (testContent : IComprehensiveTest) (chart : IChartData)
| generated (testContent : IComprehensiveTest) (chart : option IChartData).

Definition generationRun (replies : list Outcome) : GenerationRun :=
  match replies with
  | [] => contentPending
  | o :: rest =>
      match testOf o with
      | None => contentFailed
      | Some testContent =>
          match chartToDraw testContent, rest with
          | None, _ => generated testContent None
          | Some chart, [] => chartPending testContent chart
          | Some chart, o' :: _ =>
              match imageOf o' with
              | None => chartFailed testContent chart
              | Some chartImageBase64 =>
                  generated (attachChartImage chartImageBase64 testContent) (Some chart)
              end
          end
      end
  end.

(** The events of a generation, as far as it got. *)
Definition generationTrace (url transcript : jsstring) (type : TestType) (a : Data)
    (r : GenerationRun) : list (Event Data) :=
  [Called (call_generateComprehensiveTest url transcript type);
   Requested (generatingData url type a) (testRequest url transcript type)]
  ++ match r with
     | contentPending | contentFailed | generated _ None => []
     | chartPending _ chart | chartFailed _ chart | generated _ (Some chart) =>
         [Called (call_generateChartImage chart);
          Requested (generatingData url type a) (chartRequest chart)]
     end.

Definition generationEnding (url : jsstring) (type : TestType) (a : Data) (r : GenerationRun)
  : Ending Data unit :=
  match r with
  | contentPending | chartPending _ _ => Pending (generatingData url type a)
  | contentFailed | chartFailed _ _ =>
      Returned (setAppState welcome (setError (Some generationError)
                  (generatingData url type a))) tt
  | generated testContent _ =>
      Returned (setAppState test (setComprehensiveTest (Some testContent)
                  (generatingData url type a))) tt
  end.

Definition startTest (url transcript : jsstring) (type : TestType) : M Data unit :=
  set (setAppState generating) ;;
  set (setError None) ;;
  set (setVideoUrl url) ;;
  set (setTestType (Some type)) ;;
  tryCatch
    (testContent ← generateComprehensiveTest url transcript type;
     testContent ←
       match chartData (ws_task1 (ct_writing testContent)) with
       | Some chart =>
           if decide (cd_type chart <> table) then
             chartImageBase64 ← generateChartImage chart;
             mret (attachChartImage chartImageBase64 testContent)
           else mret testContent
       | None => mret testContent
       end;
     set (setComprehensiveTest (Some testContent)) ;;
     set (setAppState test))
    (fun err =>
       set (setError (Some generationError)) ;;
       set (setAppState welcome)).

Definition restartTest (a : Data) : Data :=
  setTestType None (setVideoUrl [] (setUserAnswers None (setComprehensiveTest None
    (setPracticePlan None (setEvaluation None (setError None (setAppState welcome a))))))).

(** The callback closes over [comprehensiveTest] and [testType] as they
    stand when the test screen is rendered. *)
Definition handleTestComplete (answers : Answers) : M Data unit := fun a =>
  match comprehensiveTest a, testType a with
  | Some testContent, Some type =>
      (set (setUserAnswers (Some answers)) ;;
       set (setError None) ;;
       if isSubjective type then
         set (setAppState evaluating) ;;
         tryCatch
           (evalResult ← evaluateComprehensiveTest testContent answers;
            set (setEvaluation (Some evalResult)) ;;
            practiceResult ← getPracticePlan evalResult;
            set (setPracticePlan (Some practiceResult)) ;;
            set (setAppState results))
           (fun err =>
              set (setError (Some evaluationError)) ;;
              set (setAppState test))
       else
         set (setEvaluation None) ;;
         set (setPracticePlan None) ;;
         set (setAppState results)) a
  | _, _ =>
      (set (setError (Some missingContentError)) ;;
       set (setAppState welcome)) a
  end.

(** The data on screen while the answers are evaluated. *)
Definition evaluatingData (answers : Answers) (a : Data) : Data :=
  setAppState evaluating (setError None (setUserAnswers (Some answers) a)).

(** How far the evaluation of a subjective test gets on the replies of the
    service: the evaluation reply is awaited, unusable, or usable; then the
    practice plan is local (nothing below the target), awaited, unusable,
    or usable. *)
Inductive EvaluationRun :=
| evaluationPending
| evaluationFailed
| planPending (evalResult : IEvaluation)
| planFailed (evalResult : IEvaluation)
| evaluated (evalResult : IEvaluation) (practiceResult : list IPracticeItem).

Definition evaluationRun (replies : list Outcome) : EvaluationRun :=
  match replies with
  | [] => evaluationPending
  | o :: rest =>
      match evaluationOf o with
      | None => evaluationFailed
      | Some evalResult =>
          match weaknessesOf evalResult, rest with
          | [], _ => evaluated evalResult [maintainExcellence]
          | _ :: _, [] => planPending evalResult
          | _ :: _, o' :: _ =>
              match planOf o' with
              | None => planFailed evalResult
              | Some practiceResult => evaluated evalResult practiceResult
              end
          end
      end
  end.

(** The events of an evaluation, as far as it got. *)
Definition evaluationTrace (testContent : IComprehensiveTest) (answers : Answers) (a : Data)
    (r : EvaluationRun) : list (Event Data) :=
  [Called (call_evaluateComprehensiveTest testContent answers);
   Requested (evaluatingData answers a) (evaluationRequest testContent answers)]
  ++ match r with
     | evaluationPending | evaluationFailed => []
     | planPending evalResult | planFailed evalResult | evaluated evalResult _ =>
         Called (call_getPracticePlan evalResult)
         :: match weaknessesOf evalResult with
            | [] => []
            | _ :: _ =>
                [Requested (setEvaluation (Some evalResult) (evaluatingData answers a))
                   (practiceRequest evalResult)]
            end
     end.

Definition evaluationEnding (answers : Answers) (a : Data) (r : EvaluationRun)
  : Ending Data unit :=
  match r with
  | evaluationPending => Pending (evaluatingData answers a)
  | evaluationFailed =>
      Returned (setAppState test (setError (Some evaluationError) (evaluatingData answers a))) tt
  | planPending evalResult =>
      Pending (setEvaluation (Some evalResult) (evaluatingData answers a))
  | planFailed evalResult =>
      Returned (setAppState test (setError (Some evaluationError)
                  (setEvaluation (Some evalResult) (evaluatingData answers a)))) tt
  | evaluated evalResult practiceResult =>
      Returned (setAppState results (setPracticePlan (Some practiceResult)
                  (setEvaluation (Some evalResult) (evaluatingData answers a)))) tt
  end.

(** What [renderContent] returns; [RestartFallback] stands for the two
    branches that call [restartTest] and render nothing. *)
Inductive Element :=
| WelcomeScreenElement (error : option jsstring)
| LoaderElement (message : jsstring)
| TestScreenElement (testContent : IComprehensiveTest) (videoUrl : jsstring) (testType : TestType)
| EvaluationScreenElement (evaluation : option IEvaluation)
    (practicePlan : option (list IPracticeItem)) (userAnswers : Answers)
    (testContent : IComprehensiveTest)
| RestartFallback.

Definition renderContent (a : Data) : Element :=
  match appState a with
  | welcome => WelcomeScreenElement (error a)
  | generating =>
      LoaderElement (lit "Analyzing transcript, creating test, and generating visuals...")
  | test =>
      match comprehensiveTest a, testType a with
      | Some testContent, Some type =>
          if decide (videoUrl a <> []) then TestScreenElement testContent (videoUrl a) type
          else RestartFallback
      | _, _ => RestartFallback
      end
  | evaluating =>
      LoaderElement
        (lit "Our AI examiner is evaluating your performance and preparing model answers...")
  | results =>
      match comprehensiveTest a, userAnswers a with
      | Some testContent, Some answers =>
          EvaluationScreenElement (evaluation a) (practicePlan a) answers testContent
      | _, _ => RestartFallback
      end
  end.

(** The component on screen, with its own state. The state of a component
    lives as long as the component stays mounted. *)
Inductive Mounted :=
| WelcomeMounted (w : WelcomeScreen.State)
| LoaderMounted
| TestMounted (t : TestScreen.State)
| EvaluationMounted
| NothingMounted.

(** Reconciliation at the one position [renderContent] fills: an element of
    the component already there keeps that component and its state; any
    other element unmounts it and mounts a new component, whose state
    starts from its [useState] initialisers. *)
Definition mount (el : Element) (old : Mounted) : Mounted :=
  match el with
  | WelcomeScreenElement _ =>
      match old with
      | WelcomeMounted _ => old
      | _ => WelcomeMounted WelcomeScreen.initial
      end
  | LoaderElement _ => LoaderMounted
  | TestScreenElement _ _ type =>
      match old with
      | TestMounted _ => old
      | _ => TestMounted (TestScreen.initial type SpeechRecognition_supported)
      end
  | EvaluationScreenElement _ _ _ _ => EvaluationMounted
  | RestartFallback => NothingMounted
  end.

(** The page: the data of [App] and the screen it shows. *)
Record UI := { app : Data; mounted : Mounted }.

(** A render after a state change. The fallback branches reset the data
    and the welcome screen is rendered in their place. *)
Definition commit (a : Data) (old : Mounted) : UI :=
  match renderContent a with
  | RestartFallback =>
      let a' := restartTest a in
      {| app := a'; mounted := mount (renderContent a') NothingMounted |}
  | el => {| app := a; mounted := mount el old |}
  end.

Definition boot : UI := commit initial NothingMounted.

(** The page after a handler has run: it was rendered each time the
    handler was suspended, and once more when it ended (or is rendered as
    it stands at the request still pending). *)
Definition settle {A} (tr : list (Event Data)) (fin : Ending Data A) (old : Mounted) : UI :=
  commit (final fin) (foldl (fun m s => mounted (commit s m)) old (screens tr)).

Definition runHandler (h : M Data unit) (replies : list Outcome) (ui : UI)
  : list (Event Data) * UI :=
  let '(tr, fin) := exec (h (app ui)) replies in
  (tr, settle tr fin (mounted ui)).

(** A click on one of the test-type buttons of the welcome screen;
    [onStart] is [startTest]. *)
Definition clickStart (type : TestType) (replies : list Outcome) (ui : UI)
  : list (Event Data) * UI :=
  match mounted ui with
  | WelcomeMounted w =>
      let '(w', onStart) := WelcomeScreen.handleStart type w in
      let ui' := {| app := app ui; mounted := WelcomeMounted w' |} in
      match onStart with
      | Some (url, transcript, type') => runHandler (startTest url transcript type') replies ui'
      | None => ([], ui')
      end
  | _ => ([], ui)
  end.

(** An event on the test screen; [onTestComplete] is [handleTestComplete]. *)
Definition testScreenEvent (ev : TestScreen.Event) (replies : list Outcome) (ui : UI)
  : list (Event Data) * UI :=
  match mounted ui, renderContent (app ui) with
  | TestMounted t, TestScreenElement testContent _ type =>
      let '(t', onTestComplete) := TestScreen.handle testContent type ev t in
      let ui' := {| app := app ui; mounted := TestMounted t' |} in
      match onTestComplete with
      | Some answers => runHandler (handleTestComplete answers) replies ui'
      | None => ([], ui')
      end
  | _, _ => ([], ui)
  end.

(** The answers held by the test screen, when it is the one on the page. *)
Definition screenAnswers (ui : UI) : option Answers :=
  match mounted ui with
  | TestMounted t => Some (TestScreen.answers t)
  | _ => None
  end.

(** Several events on the test screen, none of which reaches the service. *)
Definition testScreenEvents (evs : list TestScreen.Event) (ui : UI) : UI :=
  foldl (fun ui ev => (testScreenEvent ev [] ui).2) ui evs.

(** *** Sessions

    What the user can do on the page, screen by screen: type into the two
    inputs of the welcome screen, press one of its test-type buttons, act
    on the test screen, press Take Another Test on the report. The replies
    of the service to the requests an action triggers come with the action. *)
Inductive Action :=
| VideoUrlInput (value : jsstring)
| TranscriptInput (value : jsstring)
| StartClick (type : TestType) (replies : list Outcome)
| OnTestScreen (ev : TestScreen.Event) (replies : list Outcome)
| RestartClick.

(** An action reaches a handler only on the screen that offers it; on the
    test screen, only if the control is there and enabled. The report's
    [onRestart] is [restartTest]. *)
Definition act (action : Action) (ui : UI) : UI :=
  match action, mounted ui with
  | VideoUrlInput value, WelcomeMounted w =>
      {| app := app ui; mounted := WelcomeMounted (WelcomeScreen.setVideoUrl value w) |}
  | TranscriptInput value, WelcomeMounted w =>
      {| app := app ui; mounted := WelcomeMounted (WelcomeScreen.setTranscript value w) |}
  | StartClick type replies, WelcomeMounted _ => (clickStart type replies ui).2
  | OnTestScreen ev replies, TestMounted t =>
      match renderContent (app ui) with
      | TestScreenElement testContent videoUrl type =>
          if TestScreen.enabled testContent videoUrl type ev t
          then (testScreenEvent ev replies ui).2
          else ui
      | _ => ui
      end
  | RestartClick, EvaluationMounted => commit (restartTest (app ui)) (mounted ui)
  | _, _ => ui
  end.

(** The page after a sequence of actions, from the first render. *)
Definition session (actions : list Action) : UI :=
  foldl (fun ui action => act action ui) boot actions.

End Handlers.

End App.

(** ** Sample data

    A platform and a session to run the definitions on. *)

Module Sample.

Definition sampleUrl : jsstring := lit "https://youtu.be/p1yCOdp2vs0?si=pKV47XzCq44ERMGO".

Definition sampleTranscript : jsstring :=
  lit "  Today we look at how cities plan their public transport networks.  ".

Definition criterionOf (name : string) (s : number) (fb : string) : ICriterion :=
  {| criterion := lit name; score := s; feedback := lit fb |}.

Definition sampleEvaluation : IEvaluation := {|
  overallBandScore := 6.5%float;
  detailedScores :=
    [criterionOf "Writing" 6.5%float "Clear overall.";
     criterionOf "Speaking" 7.5%float "Fluent.";
     criterionOf "Lexical Resource" 6%float "Widen your vocabulary.";
     criterionOf "Fluency and Coherence" 8%float "Keep it up."];
  summary := lit "A solid attempt.";
  improvedAnswers := Some {|
    writingTask1 := lit "The chart shows steady growth.";
    writingTask2 := lit "Public transport deserves investment.";
    ia_speaking := [{| isa_question := lit "Do you use buses?";
                       improvedAnswer := lit "Yes, I commute by bus daily." |}];
  |};
|}.


Definition samplePlan : list IPracticeItem :=
  [{| area := lit "Lexical Resource"; title := lit "Topic vocabulary";
      description := lit "Learn ten transport collocations.";
      exercise := lit "Write five sentences with them." |};
   {| area := lit "Writing"; title := lit "Overviews";
      description := lit "Open Task 1 with a one-sentence overview.";
      exercise := lit "Write overviews for three charts." |}].

Definition sampleTest : IComprehensiveTest := {|
  ct_listening := {| ls_questions := [] |};
  ct_reading := {| rs_transcript := sampleTranscript; rs_questions := [] |};
  ct_writing := {|
    ws_task1 := {|
      t1_prompt := lit "Summarise the chart.";
      chartData := Some {| cd_type := bar_chart; cd_title := lit "Riders";
                           cd_data := lit "2022: 5M, 2023: 8M" |};
      chartImage := None |};
    ws_task2 := lit "Should cities invest in public transport?" |};
  ct_speaking :=
    [{| q_part := 1%float; q_type := introduction;
        q_question := lit "Do you use buses?"; q_cueCard := None |};
     {| q_part := 3%float; q_type := discussion;
        q_question := lit "How will transport change?"; q_cueCard := None |}];
|}.

(** [x.toFixed(1)] for a finite [x] of magnitude [m * 2^e] below 1e21:
    the integer nearest to ten times the magnitude, the larger one on a
    tie, with a point before its last digit. *)
Definition tenths (m : positive) (e : Z) : Z :=
  if (0 <=? e)%Z then (Z.pos m * 2 ^ e * 10)%Z
  else ((20 * Z.pos m + 2 ^ (- e)) / 2 ^ (1 - e))%Z.

Definition digits (n : Z) : jsstring := lit (pretty (Z.to_N n)).

Definition toFixed1 (x : number) : jsstring :=
  match Prim2SF x with
  | S754_nan => lit "NaN"
  | S754_infinity negative => if negative then lit "-Infinity" else lit "Infinity"
  | S754_zero _ => lit "0.0"
  | S754_finite negative m e =>
      (if negative then lit "-" else [])
      ++ digits (tenths m e / 10) ++ lit "." ++ digits (tenths m e mod 10)
  end.

(** [String(x)], exact on the values with at most one decimal digit, band
    scores among them. *)
Definition toString (x : number) : jsstring :=
  match Prim2SF x with
  | S754_finite negative m e =>
      if (tenths m e mod 10 =? 0)%Z then
        (if negative then lit "-" else []) ++ digits (tenths m e / 10)
      else toFixed1 x
  | S754_zero _ => lit "0"
  | _ => toFixed1 x
  end.

(** JSON text, for strings that need no escapes. *)
Definition quoted (s : jsstring) : jsstring := [DQUOTE] ++ s ++ [DQUOTE].

Definition member (name : string) (value : jsstring) : jsstring :=
  quoted (lit name) ++ lit ":" ++ value.

Definition object (members : list jsstring) : jsstring :=
  lit "{" ++ join (lit ",") members ++ lit "}".

Definition array (items : list jsstring) : jsstring :=
  lit "[" ++ join (lit ",") items ++ lit "]".

Definition planJson (plan : list IPracticeItem) : jsstring :=
  array ((fun item =>
            object [member "area" (quoted (area item));
                    member "title" (quoted (title item));
                    member "description" (quoted (description item));
                    member "exercise" (quoted (exercise item))]) <$> plan).

Definition evaluationJson (e : IEvaluation) : jsstring :=
  object
    ([member "overallBandScore" (toString (overallBandScore e));
      member "detailedScores"
        (array ((fun c =>
                   object [member "criterion" (quoted (criterion c));
                           member "score" (toString (score c));
                           member "feedback" (quoted (feedback c))]) <$> detailedScores e));
      member "summary" (quoted (summary e))]
     ++ match improvedAnswers e with
        | Some improved =>
            [member "improvedAnswers"
               (object
                  [member "writingTask1" (quoted (writingTask1 improved));
                   member "writingTask2" (quoted (writingTask2 improved));
                   member "speaking"
                     (array ((fun a =>
                                object [member "question" (quoted (isa_question a));
                                        member "improvedAnswer" (quoted (improvedAnswer a))])
                             <$> ia_speaking improved))])]
        | None => []
        end).

(** The JSON text of a test without listening and reading questions and
    without cue cards, as the sample test is. *)
Definition testJson (t : IComprehensiveTest) : jsstring :=
  object
    [member "listening" (object [member "questions" (array [])]);
     member "reading"
       (object [member "transcript" (quoted (rs_transcript (ct_reading t)));
                member "questions" (array [])]);
     member "writing"
       (object
          [member "task1"
             (object
                ([member "prompt" (quoted (t1_prompt (ws_task1 (ct_writing t))))]
                 ++ match chartData (ws_task1 (ct_writing t)) with
                    | Some chart =>
                        [member "chartData"
                           (object [member "type" (quoted (chartTypeName (cd_type chart)));
                                    member "title" (quoted (cd_title chart));
                                    member "data" (quoted (cd_data chart))])]
                    | None => []
                    end));
           member "task2" (quoted (ws_task2 (ct_writing t)))]);
     member "speaking"
       (array ((fun q =>
                  object [member "part" (toString (q_part q));
                          member "type"
                            (quoted match q_type q with
                                    | introduction => lit "introduction"
                                    | cue_card => lit "cue-card"
                                    | discussion => lit "discussion"
                                    end);
                          member "question" (quoted (q_question q))])
               <$> ct_speaking t))].

(** The sample platform parses one URL and the JSON text of the three
    sample documents, writes JSON for strings without escapes, and formats
    numbers as above. *)
Definition samplePlatform : Platform := {|
  URL_new s :=
    if decide (s = sampleUrl) then
      Some {| hostname := lit "youtu.be"; pathname := lit "/p1yCOdp2vs0";
              searchParams := [(lit "si", lit "pKV47XzCq44ERMGO")] |}
    else None;
  JSON_parse_test s := if decide (s = testJson sampleTest) then Some sampleTest else None;
  JSON_parse_evaluation s :=
    if decide (s = evaluationJson sampleEvaluation) then Some sampleEvaluation else None;
  JSON_parse_plan s := if decide (s = planJson samplePlan) then Some samplePlan else None;
  JSON_stringify_strings l := array (quoted <$> l);
  JSON_stringify_record m :=
    object ((fun kv => quoted (decimal kv.1) ++ lit ":" ++ quoted kv.2) <$> map_to_list m);
  Number_toString := toString;
  Number_toFixed1 := toFixed1;
  SpeechRecognition_supported := true;
|}.

(** A fulfilled text response, with a line break after the text as the
    service sends it, and a fulfilled image response. *)
Definition reply (t : jsstring) : Outcome :=
  Resolved {| text := Some (t ++ [LF]); generatedImages := None |}.

Definition imageReply (images : list jsstring) : Outcome :=
  Resolved {| text := None; generatedImages := Some images |}.

Definition sampleWelcome : WelcomeScreen.State := {|
  WelcomeScreen.videoUrl := sampleUrl;
  WelcomeScreen.transcript := sampleTranscript;
  WelcomeScreen.validationError := [];
|}.

Definition welcomePage : App.UI :=
  {| App.app := App.initial; App.mounted := App.WelcomeMounted sampleWelcome |}.

(** The replies of the service to a generation: the test, then one image. *)
Definition generationReplies : list Outcome :=
  [reply (testJson sampleTest); imageReply [lit "iVBORw0KGgo"]].

(** The test as the test screen gets it. *)
Definition generatedTest : IComprehensiveTest := App.attachChartImage (lit "iVBORw0KGgo") sampleTest.

(** The page once a test of the given type has been generated. *)
Definition testPage (type : TestType) : App.UI :=
  (App.clickStart (H := samplePlatform) type generationReplies welcomePage).2.

Definition essay1 : jsstring := lit "The bar chart compares riders in 2022 and 2023.".
Definition essay2 : jsstring := lit "Cities should invest in buses and trams.".

(** The writing test with both essays typed in. *)
Definition typedPage : App.UI :=
  App.testScreenEvents (H := samplePlatform)
    [TestScreen.WritingChange TestScreen.task1 essay1;
     TestScreen.WritingChange TestScreen.task2 essay2]
    (testPage writing).

Definition typedAnswers : Answers := {|
  ans_listening := ∅;
  ans_reading := ∅;
  ans_writing := {| wa_task1 := essay1; wa_task2 := essay2 |};
  ans_speaking := [];
|}.

(** The same page after [Finish & Submit], the evaluation request being
    rejected. *)
Definition rejectedPage : App.UI :=
  (App.testScreenEvent (H := samplePlatform) TestScreen.NextSectionClick
     [Rejected (lit "503 Service Unavailable")] typedPage).2.

(** The replies of the service to an evaluation: the evaluation, then a
    practice plan of two items. *)
Definition evaluationReplies : list Outcome :=
  [reply (evaluationJson sampleEvaluation); reply (planJson samplePlan)].

(** Two rounds of the speaking section: dictate, stop, correct, advance. *)
Definition speakingRoundsSample : list (list TestScreen.Event) :=
  [[TestScreen.RecordingToggle; TestScreen.RecognitionResult (lit "yes i do");
    TestScreen.RecordingToggle; TestScreen.TranscriptEdit (lit "Yes, I do.")];
   [TestScreen.TranscriptEdit (lit "It will be electric.")]].

(** The sample test with two listening questions and one reading
    question. *)
Definition quizTest : IComprehensiveTest := {|
  ct_listening := {| ls_questions :=
    [{| lq_question := lit "What do cities plan?"; lq_type := lq_short_answer;
        lq_options := None; lq_answer := lit "public transport" |};
     {| lq_question := lit "Who pays for the network?"; lq_type := lq_multiple_choice;
        lq_options := Some [lit "riders"; lit "the city"]; lq_answer := lit "the city" |}] |};
  ct_reading := {|
    rs_transcript := sampleTranscript;
    rs_questions :=
      [{| rq_question := lit "Cities plan their networks."; rq_type := rq_true_false_not_given;
          rq_options := None; rq_answer := lit "True" |}] |};
  ct_writing := ct_writing sampleTest;
  ct_speaking := ct_speaking sampleTest;
|}.

(** The page showing a fresh listening test on it. *)
Definition quizPage : App.UI := {|
  App.app := {|
    App.appState := App.test; App.evaluation := None; App.practicePlan := None;
    App.comprehensiveTest := Some quizTest; App.userAnswers := None;
    App.videoUrl := sampleUrl; App.error := None; App.testType := Some listening |};
  App.mounted := App.TestMounted (TestScreen.initial listening true);
|}.

(** Typing into the two listening inputs: the first answer is corrected,
    the second is typed and emptied again. *)
Definition quizTyping : list TestScreen.Event :=
  [TestScreen.AnswerChange TestScreen.obj_listening 0 (lit "busses");
   TestScreen.AnswerChange TestScreen.obj_listening 1 (lit "riders");
   TestScreen.AnswerChange TestScreen.obj_listening 0 (lit "public transport");
   TestScreen.AnswerChange TestScreen.obj_listening 1 []].

(** A speaking test taken by typing the two answers. *)
Definition typedSpeaking : list TestScreen.Event :=
  [TestScreen.TranscriptEdit (lit "Yes, I do."); TestScreen.NextSpeakingQuestionClick;
   TestScreen.TranscriptEdit (lit "It will be electric.");
   TestScreen.NextSpeakingQuestionClick].

Definition spokenAnswers : Answers :=
  TestScreen.withSpeaking
    [{| sa_question := lit "Do you use buses?"; sa_answer := lit "Yes, I do." |};
     {| sa_question := lit "How will transport change?";
        sa_answer := lit "It will be electric." |}]
    TestScreen.noAnswers.

(** A session that takes a listening test to its report. *)
Definition listeningSession : list App.Action :=
  [App.TranscriptInput sampleTranscript;
   App.StartClick listening generationReplies;
   App.OnTestScreen TestScreen.NextSectionClick []].

(** A table of two columns, as text with blanks around the cells and a
    blank line at the end. *)
Definition ridersCsv : jsstring :=
  lit "Year , Riders" ++ [LF] ++ lit " 2022,5M" ++ [LF] ++ lit "2023, 8M " ++ [LF] ++ lit "  ".

End Sample.

(** * Properties *)

(** ** Regular expressions: the matcher decides the declarative reading *)

Section RegExpFacts.

Implicit Types (r : regex) (s : jsstring) (c : N).

Lemma nullable_Matches r : nullable r = true <-> Matches r [].
Proof.
  split.
  - induction r; simpl; intros Hn; try discriminate.
    + constructor.
    + apply andb_true_iff in Hn as [H1 H2].
      change (@nil N) with (@nil N ++ []). constructor; auto.
    + apply orb_true_iff in Hn as [H1 | H2]; [apply MAltL | apply MAltR]; auto.
    + apply MOptNone.
    + apply MStarNil.
    + change (@nil N) with (@nil N ++ []). constructor; auto. apply MStarNil.
  - intros Hm. remember [] as s eqn:Hs. revert Hs.
    induction Hm; simpl; intros Hs; subst; try discriminate; auto.
    + apply app_eq_nil in Hs as [-> ->]. rewrite IHHm1, IHHm2; auto.
    + rewrite IHHm; auto.
    + rewrite IHHm; auto. apply orb_true_r.
    + apply app_eq_nil in Hs as [-> ->]. auto.
Qed.

Lemma Matches_Seq_inv r1 r2 s :
  Matches (Seq r1 r2) s -> exists s1 s2, s = s1 ++ s2 /\ Matches r1 s1 /\ Matches r2 s2.
Proof. inversion 1; subst; eauto. Qed.

Lemma Matches_Alt_inv r1 r2 s : Matches (Alt r1 r2) s -> Matches r1 s \/ Matches r2 s.
Proof. inversion 1; subst; eauto. Qed.

Lemma Matches_Opt_inv r s : Matches (Opt r) s -> s = [] \/ Matches r s.
Proof. inversion 1; subst; eauto. Qed.

Lemma Matches_Char_inv a s : Matches (Char a) s -> s = [a].
Proof. inversion 1; subst; eauto. Qed.

Lemma Matches_Empty_inv s : Matches Empty s -> s = [].
Proof. inversion 1; subst; eauto. Qed.

(** A non-empty match of a star starts with a non-empty match of its body. *)
Lemma Matches_Star_cons r c s :
  Matches (Star r) (c :: s) ->
  exists s1 s2, s = s1 ++ s2 /\ Matches r (c :: s1) /\ Matches (Star r) s2.
Proof.
  intros Hm. remember (Star r) as r' eqn:Hr. remember (c :: s) as s' eqn:Hs.
  revert Hr Hs. induction Hm; intros Hr Hs; try discriminate.
  injection Hr as ->. destruct s1 as [|c1 s1]; simpl in Hs.
  - apply IHHm2; auto.
  - injection Hs as -> <-. eauto.
Qed.

Lemma deriv_Matches r : forall c s, Matches (deriv c r) s <-> Matches r (c :: s).
Proof.
  induction r; intros c' s; simpl.
  - split; inversion 1.
  - split; inversion 1.
  - destruct (N.eqb_spec c c') as [-> | Hne]; split; intros Hm.
    + apply Matches_Empty_inv in Hm as ->. constructor.
    + apply Matches_Char_inv in Hm. injection Hm as ->. constructor.
    + inversion Hm.
    + apply Matches_Char_inv in Hm. congruence.
  - destruct (isLineTerminator c') eqn:Hlt; split; intros Hm.
    + inversion Hm.
    + inversion Hm; congruence.
    + apply Matches_Empty_inv in Hm as ->. constructor; auto.
    + inversion Hm; subst. constructor.
  - destruct (nullable r1) eqn:Hn; split; intros Hm.
    + apply Matches_Alt_inv in Hm as [Hm | Hm].
      * apply Matches_Seq_inv in Hm as (s1 & s2 & -> & H1 & H2).
        apply IHr1 in H1. change (c' :: s1 ++ s2) with ((c' :: s1) ++ s2).
        constructor; auto.
      * apply IHr2 in Hm. change (c' :: s) with ([] ++ c' :: s).
        constructor; auto. apply nullable_Matches; auto.
    + apply Matches_Seq_inv in Hm as (s1 & s2 & Hs & H1 & H2).
      destruct s1 as [|c1 s1]; simpl in Hs.
      * subst s2. apply MAltR. apply IHr2; auto.
      * injection Hs as <- ->. apply MAltL. constructor; auto. apply IHr1; auto.
    + apply Matches_Seq_inv in Hm as (s1 & s2 & -> & H1 & H2).
      apply IHr1 in H1. change (c' :: s1 ++ s2) with ((c' :: s1) ++ s2).
      constructor; auto.
    + apply Matches_Seq_inv in Hm as (s1 & s2 & Hs & H1 & H2).
      destruct s1 as [|c1 s1]; simpl in Hs.
      * apply nullable_Matches in H1. congruence.
      * injection Hs as <- ->. constructor; auto. apply IHr1; auto.
  - split; intros Hm.
    + apply Matches_Alt_inv in Hm as [Hm | Hm]; [apply MAltL, IHr1 | apply MAltR, IHr2]; auto.
    + apply Matches_Alt_inv in Hm as [Hm | Hm]; [apply MAltL, IHr1 | apply MAltR, IHr2]; auto.
  - split; intros Hm.
    + apply MOptSome, IHr; auto.
    + apply Matches_Opt_inv in Hm as [Hm | Hm]; [discriminate | apply IHr; auto].
  - split; intros Hm.
    + apply Matches_Seq_inv in Hm as (s1 & s2 & -> & H1 & H2).
      apply IHr in H1. change (c' :: s1 ++ s2) with ((c' :: s1) ++ s2).
      apply MStarCons; auto.
    + apply Matches_Star_cons in Hm as (s1 & s2 & -> & H1 & H2).
      constructor; auto. apply IHr; auto.
  - split; intros Hm.
    + apply Matches_Seq_inv in Hm as (s1 & s2 & -> & H1 & H2).
      apply IHr in H1. change (c' :: s1 ++ s2) with ((c' :: s1) ++ s2).
      apply MPlus; auto.
    + inversion Hm as [| | | | | | | | | |r' s1 s2 H1 H2]; subst.
      destruct s1 as [|c1 s1]; simpl in *.
      * subst. apply Matches_Star_cons in H2 as (s1 & s2' & -> & H1' & H2').
        constructor; auto. apply IHr; auto.
      * match goal with Heq : _ :: _ = _ :: _ |- _ => injection Heq as ? ? end.
        subst. constructor; auto. apply IHr; auto.
Qed.

(** The anchored test succeeds exactly on the strings the pattern denotes. *)
Lemma test_anchored_Matches r s : test_anchored r s = true <-> Matches r s.
Proof.
  unfold test_anchored. revert r. induction s as [|c s IH]; intros r; simpl.
  - apply nullable_Matches.
  - rewrite IH. apply deriv_Matches.
Qed.

Lemma Matches_word w s : Matches (word w) s <-> s = w.
Proof.
  revert s. induction w as [|c w IH]; intros s; simpl; split; intros Hm.
  - apply Matches_Empty_inv; auto.
  - subst. constructor.
  - apply Matches_Seq_inv in Hm as (s1 & s2 & -> & H1 & H2).
    apply Matches_Char_inv in H1 as ->. apply IH in H2 as ->. reflexivity.
  - subst. change (c :: w) with ([c] ++ w). constructor; [constructor | apply IH; auto].
Qed.

Lemma Matches_Star_Dot s :
  Matches (Star Dot) s <-> Forall (fun c => isLineTerminator c = false) s.
Proof.
  split.
  - intros Hm. remember (Star Dot) as r eqn:Hr. revert Hr.
    induction Hm; intros Hr; try discriminate.
    + constructor.
    + injection Hr as ->. inversion Hm1; subst. simpl. constructor; auto.
  - induction 1 as [|c s Hc _ IH].
    + apply MStarNil.
    + change (c :: s) with ([c] ++ s). apply MStarCons; auto. constructor; auto.
Qed.

Lemma Matches_Plus_Dot s :
  Matches (Plus Dot) s <-> s <> [] /\ Forall (fun c => isLineTerminator c = false) s.
Proof.
  split.
  - inversion 1 as [| | | | | | | | | |r' s1 s2 H1 H2]; subst.
    inversion H1; subst. simpl. split; [discriminate|].
    constructor; auto. apply Matches_Star_Dot; auto.
  - intros [Hne Hall]. destruct Hall as [|c s Hc Hall]; [congruence|].
    change (c :: s) with ([c] ++ s). apply MPlus; [constructor; auto|].
    apply Matches_Star_Dot; auto.
Qed.

End RegExpFacts.

(** ** The welcome screen *)

Section WelcomeScreenFacts.
Import WelcomeScreen.

Local Ltac invert_match :=
  repeat match goal with
  | H : Matches (Seq _ _) _ |- _ => apply Matches_Seq_inv in H as (? & ? & -> & ? & ?)
  | H : Matches (Opt _) _ |- _ => apply Matches_Opt_inv in H as [-> | ?]
  | H : Matches (Alt _ _) _ |- _ => apply Matches_Alt_inv in H as [? | ?]
  | H : Matches (Char _) _ |- _ => apply Matches_Char_inv in H as ->
  | H : Matches (word _) _ |- _ => apply Matches_word in H as ->
  end.

(** The pattern of the source denotes the URLs described in words. *)
Lemma youtubeRegex_YouTubeUrl s : Matches youtubeRegex s <-> YouTubeUrl s.
Proof.
  unfold youtubeRegex, YouTubeUrl. split.
  - intros Hm.
    apply Matches_Seq_inv in Hm as (scheme & s1 & -> & Hscheme & Hm).
    apply Matches_Seq_inv in Hm as (www & s2 & -> & Hwww & Hm).
    apply Matches_Seq_inv in Hm as (host & s3 & -> & Hhost & Hm).
    apply Matches_Seq_inv in Hm as (slash & rest & -> & Hslash & Hrest).
    apply Matches_Char_inv in Hslash as ->.
    apply Matches_Plus_Dot in Hrest as [Hne Hall].
    exists scheme, www, host, rest.
    split; [|split; [|split; [|repeat split; auto]]].
    + invert_match; set_solver.
    + invert_match; set_solver.
    + invert_match; set_solver.
  - intros (scheme & www & host & rest & Hscheme & Hwww & Hhost & Hne & Hall & ->).
    constructor; [|constructor; [|constructor; [|change ([SLASH] ++ rest) with ([SLASH] ++ rest); constructor]]].
    + apply elem_of_cons in Hscheme as [-> | Hscheme]; [apply MOptNone|].
      apply MOptSome.
      apply elem_of_cons in Hscheme as [-> | Hscheme].
      * change (lit "http://") with (lit "http" ++ [] ++ lit "://").
        constructor; [apply Matches_word; auto|].
        constructor; [apply MOptNone | apply Matches_word; auto].
      * apply list_elem_of_singleton in Hscheme as ->.
        change (lit "https://") with (lit "http" ++ [115%N] ++ lit "://").
        constructor; [apply Matches_word; auto|].
        constructor; [apply MOptSome; constructor | apply Matches_word; auto].
    + apply elem_of_cons in Hwww as [-> | Hwww]; [apply MOptNone|].
      apply list_elem_of_singleton in Hwww as ->. apply MOptSome, Matches_word; auto.
    + apply elem_of_cons in Hhost as [-> | Hhost]; [apply MAltL, Matches_word; auto|].
      apply MAltR.
      apply elem_of_cons in Hhost as [-> | Hhost].
      * change (lit "youtu.be") with (lit "youtu" ++ [46%N] ++ lit "be").
        constructor; [apply Matches_word; auto|].
        constructor; [apply MOptSome; constructor | apply Matches_word; auto].
      * apply list_elem_of_singleton in Hhost as ->.
        change (lit "youtube") with (lit "youtu" ++ [] ++ lit "be").
        constructor; [apply Matches_word; auto|].
        constructor; [apply MOptNone | apply Matches_word; auto].
    + constructor.
    + apply Matches_Plus_Dot; auto.
Qed.

(** The URL part of the gate, in words. *)
Lemma youtubeRegex_test s : test_anchored youtubeRegex s = true <-> YouTubeUrl s.
Proof. rewrite test_anchored_Matches. apply youtubeRegex_YouTubeUrl. Qed.

(** What the handler decides, in one place. *)
Lemma handleStart_cases type w :
  (YouTubeUrl (videoUrl w) /\ 50 <= length (trim (transcript w))
   /\ handleStart type w = (setValidationError [] w, Some (videoUrl w, transcript w, type)))
  \/ (~ (YouTubeUrl (videoUrl w) /\ 50 <= length (trim (transcript w)))
      /\ exists msg, msg <> [] /\ handleStart type w = (setValidationError msg w, None)).
Proof.
  unfold handleStart.
  destruct (test_anchored youtubeRegex (videoUrl w)) eqn:Hurl; simpl.
  - apply youtubeRegex_test in Hurl.
    destruct (decide (length (trim (transcript w)) < 50)) as [Hshort | Hlong].
    + right. split; [lia|]. eexists; split; [|reflexivity]. discriminate.
    + left. split; [auto|]. split; [lia|]. reflexivity.
  - right. split.
    + intros [Hyes _]. apply youtubeRegex_test in Hyes. congruence.
    + eexists; split; [|reflexivity]. discriminate.
Qed.

End WelcomeScreenFacts.

(** ** Substrings *)

Section StringFacts.

Implicit Types (needle hay : jsstring).


Lemma includes_refl needle : includes needle needle.
Proof. exists [], []. rewrite app_nil_r. reflexivity. Qed.

Lemma includes_app_l needle a b : includes needle b -> includes needle (a ++ b).
Proof. intros (x & y & ->). exists (a ++ x), y. rewrite <- app_assoc. reflexivity. Qed.

Lemma includes_app_r needle a b : includes needle a -> includes needle (a ++ b).
Proof. intros (x & y & ->). exists x, (y ++ b). rewrite <- !app_assoc. reflexivity. Qed.


Lemma includes_mjoin {A} (f : A -> jsstring) (l : list A) (x : A) needle :
  x ∈ l -> includes needle (f x) -> includes needle (mjoin (f <$> l)).
Proof.
  intros Hin Hx. induction Hin as [x l | x y l Hin IH]; simpl.
  - apply includes_app_r. exact Hx.
  - apply includes_app_l. exact (IH Hx).
Qed.

End StringFacts.

(** Finds [needle] among the operands of a concatenation. *)
Ltac find_includes :=
  first [ apply includes_refl
        | apply includes_app_r; find_includes
        | apply includes_app_l; find_includes ].

(** ** Numbers *)

Section NumberFacts.

Lemma SFcompare_antisym a b : SFcompare b a = option_map CompOpp (SFcompare a b).
Proof.
  destruct a as [sa | sa | | sa ma ea], b as [sb | sb | | sb mb eb]; simpl;
    try (destruct sa); try (destruct sb); simpl; try reflexivity.
  - rewrite (Z.compare_antisym ea eb). destruct (ea ?= eb)%Z; simpl; try reflexivity.
    rewrite (Pos.compare_cont_antisym ma mb Eq). simpl.
    destruct (Pos.compare_cont Eq ma mb); reflexivity.
  - rewrite (Z.compare_antisym ea eb). destruct (ea ?= eb)%Z; simpl; try reflexivity.
    rewrite (Pos.compare_cont_antisym ma mb Eq). reflexivity.
Qed.

(** A number that is at least [y] is not below [y]. *)
Lemma leb_not_ltb (x y : number) : (y <=? x)%float = true -> (x <? y)%float = false.
Proof.
  rewrite ltb_spec, leb_spec. unfold SFleb, SFltb.
  rewrite (SFcompare_antisym (Prim2SF y) (Prim2SF x)).
  destruct (SFcompare (Prim2SF y) (Prim2SF x)) as [[]|]; simpl; congruence.
Qed.

Lemma SFeqb_refl_not_nan a : SFeqb a a = true -> a <> S754_nan.
Proof. intros Heq ->. discriminate. Qed.

Lemma SFcompare_total a b : a <> S754_nan -> b <> S754_nan -> SFcompare a b <> None.
Proof. destruct a, b; simpl; congruence. Qed.

(** Of two numbers, neither of them NaN, one is below the other or the
    other is at most the one. *)
Lemma not_leb_ltb (x y : number) :
  (x =? x)%float = true -> (y =? y)%float = true ->
  (y <=? x)%float = false -> (x <? y)%float = true.
Proof.
  rewrite !FloatAxioms.eqb_spec, ltb_spec, leb_spec. unfold SFleb, SFltb.
  intros Hx Hy. apply SFeqb_refl_not_nan in Hx, Hy.
  pose proof (SFcompare_total _ _ Hy Hx) as Htotal.
  rewrite (SFcompare_antisym (Prim2SF y) (Prim2SF x)).
  destruct (SFcompare (Prim2SF y) (Prim2SF x)) as [[]|]; simpl; congruence.
Qed.

End NumberFacts.

(** ** Runs of asynchronous computations *)

Section AsyncFacts.
Context {S : Type}.

Lemma run_bindP {A B} (p : Prog S A) (f : A -> M S B) replies :
  run (bindP p f) replies =
    match run p replies with
    | (tr, Returned s a, rest) =>
        let '(tr', fin, rest') := run (f a s) rest in (tr ++ tr', fin, rest')
    | (tr, Threw s e, rest) => (tr, Threw s e, rest)
    | (tr, Pending s, rest) => (tr, Pending s, rest)
    end.
Proof.
  revert replies. induction p as [s a | s e | c p IH | s req k IH]; intros replies; simpl.
  - destruct (run (f a s) replies) as [[tr fin] rest]; reflexivity.
  - reflexivity.
  - rewrite IH. destruct (run p replies) as [[tr [s a | s e | s]] rest]; simpl; auto.
    destruct (run (f a s) rest) as [[tr' fin] rest']; reflexivity.
  - destruct replies as [|o replies]; simpl; auto.
    rewrite IH. destruct (run (k o) replies) as [[tr [s' a | s' e | s']] rest]; simpl; auto.
    destruct (run (f a s') rest) as [[tr' fin] rest']; reflexivity.
Qed.

Lemma run_catchP {A} (p : Prog S A) (h : jsstring -> M S A) replies :
  run (catchP p h) replies =
    match run p replies with
    | (tr, Returned s a, rest) => (tr, Returned s a, rest)
    | (tr, Threw s e, rest) =>
        let '(tr', fin, rest') := run (h e s) rest in (tr ++ tr', fin, rest')
    | (tr, Pending s, rest) => (tr, Pending s, rest)
    end.
Proof.
  revert replies. induction p as [s a | s e | c p IH | s req k IH]; intros replies; simpl.
  - reflexivity.
  - destruct (run (h e s) replies) as [[tr fin] rest]; reflexivity.
  - rewrite IH. destruct (run p replies) as [[tr [s a | s e | s]] rest]; simpl; auto.
    destruct (run (h e s) rest) as [[tr' fin] rest']; reflexivity.
  - destruct replies as [|o replies]; simpl; auto.
    rewrite IH. destruct (run (k o) replies) as [[tr [s' a | s' e | s']] rest]; simpl; auto.
    destruct (run (h e s') rest) as [[tr' fin] rest']; reflexivity.
Qed.

End AsyncFacts.

(** ** The service functions, reply by reply *)

Section ServiceFacts.
Context `{Platform} {S : Type}.
Implicit Types (s : S) (o : Outcome) (replies : list Outcome).

Lemma generateComprehensiveTest_pending url transcript type s :
  run (generateComprehensiveTest url transcript type s) [] =
    ([Called (call_generateComprehensiveTest url transcript type);
      Requested s (testRequest url transcript type)], Pending s, []).
Proof. reflexivity. Qed.

Lemma generateComprehensiveTest_reply url transcript type s o replies :
  exists fin,
    run (generateComprehensiveTest url transcript type s) (o :: replies) =
      ([Called (call_generateComprehensiveTest url transcript type);
        Requested s (testRequest url transcript type)], fin, replies)
    /\ match testOf o with
       | Some testContent => fin = Returned s testContent
       | None => exists e, fin = Threw s e
       end.
Proof.
  unfold generateComprehensiveTest, testOf, textOf. async_unfold.
  destruct o as [[[t|] imgs] | reason]; simpl; eauto.
  destruct (JSON_parse_test (trim t)); simpl; eauto.
Qed.

Lemma generateChartImage_pending chart s :
  run (generateChartImage chart s) [] =
    ([Called (call_generateChartImage chart); Requested s (chartRequest chart)], Pending s, []).
Proof. reflexivity. Qed.

Lemma generateChartImage_reply chart s o replies :
  exists fin,
    run (generateChartImage chart s) (o :: replies) =
      ([Called (call_generateChartImage chart); Requested s (chartRequest chart)], fin, replies)
    /\ match imageOf o with
       | Some imageBytes => fin = Returned s imageBytes
       | None => exists e, fin = Threw s e
       end.
Proof.
  unfold generateChartImage, imageOf. async_unfold.
  destruct o as [[t [[|img imgs]|]] | reason]; simpl; eauto.
Qed.

Lemma evaluateComprehensiveTest_pending testContent answers s :
  run (evaluateComprehensiveTest testContent answers s) [] =
    ([Called (call_evaluateComprehensiveTest testContent answers);
      Requested s (evaluationRequest testContent answers)], Pending s, []).
Proof. reflexivity. Qed.

Lemma evaluateComprehensiveTest_reply testContent answers s o replies :
  exists fin,
    run (evaluateComprehensiveTest testContent answers s) (o :: replies) =
      ([Called (call_evaluateComprehensiveTest testContent answers);
        Requested s (evaluationRequest testContent answers)], fin, replies)
    /\ match evaluationOf o with
       | Some evalResult => fin = Returned s evalResult
       | None => exists e, fin = Threw s e
       end.
Proof.
  unfold evaluateComprehensiveTest, evaluationOf, textOf. async_unfold.
  destruct o as [[[t|] imgs] | reason]; simpl; eauto.
  destruct (JSON_parse_evaluation (trim t)); simpl; eauto.
Qed.

(** Nothing below the target: the fixed item, and no request. *)
Lemma getPracticePlan_local evaluation s replies :
  weaknessesOf evaluation = [] ->
  run (getPracticePlan evaluation s) replies =
    ([Called (call_getPracticePlan evaluation)], Returned s [maintainExcellence], replies).
Proof.
  intros Hw. unfold getPracticePlan. fold (weaknessesOf evaluation). rewrite Hw.
  reflexivity.
Qed.

Lemma getPracticePlan_pending evaluation s :
  weaknessesOf evaluation <> [] ->
  run (getPracticePlan evaluation s) [] =
    ([Called (call_getPracticePlan evaluation);
      Requested s (practiceRequest evaluation)], Pending s, []).
Proof.
  intros Hw. unfold getPracticePlan, practiceRequest. fold (weaknessesOf evaluation).
  destruct (weaknessesOf evaluation); [congruence | reflexivity].
Qed.

Lemma getPracticePlan_reply evaluation s o replies :
  weaknessesOf evaluation <> [] ->
  exists fin,
    run (getPracticePlan evaluation s) (o :: replies) =
      ([Called (call_getPracticePlan evaluation);
        Requested s (practiceRequest evaluation)], fin, replies)
    /\ match planOf o with
       | Some practiceResult => fin = Returned s practiceResult
       | None => exists e, fin = Threw s e
       end.
Proof.
  intros Hw. unfold getPracticePlan, practiceRequest, planOf, textOf.
  fold (weaknessesOf evaluation).
  destruct (weaknessesOf evaluation) as [|w ws]; [congruence|]. async_unfold.
  destruct o as [[[t|] imgs] | reason]; simpl; eauto.
  destruct (JSON_parse_plan (trim t)); simpl; eauto.
Qed.

End ServiceFacts.

(** ** The workflow of [App]: generation *)

Section GenerationFacts.
Context `{Platform}.
Import App.

Implicit Types (a : Data) (o : Outcome) (replies : list Outcome).

Local Opaque generateComprehensiveTest generateChartImage.

(** Every run of [startTest], by the replies it gets. *)
Lemma startTest_run url transcript type a replies :
  exec (startTest url transcript type a) replies =
    (generationTrace url transcript type a (generationRun replies),
     generationEnding url type a (generationRun replies)).
Proof.
  unfold exec, startTest. async_unfold. fold (generatingData url type a).
  rewrite run_catchP, run_bindP.
  destruct replies as [|o replies].
  { rewrite generateComprehensiveTest_pending. reflexivity. }
  destruct (generateComprehensiveTest_reply url transcript type (generatingData url type a)
              o replies) as (fin & Hrun & Hfin).
  rewrite Hrun. unfold generationRun.
  destruct (testOf o) as [testContent|]; [subst fin | destruct Hfin as [e ->]; reflexivity].
  unfold chartToDraw.
  destruct (chartData (ws_task1 (ct_writing testContent))) as [chart|]; simpl;
    [|reflexivity].
  destruct (decide (cd_type chart <> table)); simpl; [|reflexivity].
  rewrite run_bindP, run_bindP.
  destruct replies as [|o' replies].
  { rewrite generateChartImage_pending. reflexivity. }
  destruct (generateChartImage_reply chart (generatingData url type a) o' replies)
    as (fin & Hrun' & Hfin').
  rewrite Hrun'. destruct (imageOf o') as [img|].
  - subst fin. reflexivity.
  - destruct Hfin' as [e ->]. reflexivity.
Qed.

(** The screen shows the loader for as long as the generation runs. *)
Lemma generation_screens url transcript type a r :
  Forall (fun s => appState s = generating) (screens (generationTrace url transcript type a r)).
Proof.
  destruct r as [| | ? ? | ? ? | ? [?|]]; simpl; repeat constructor.
Qed.

End GenerationFacts.

(** ** The workflow of [App]: evaluation *)

Section EvaluationFacts.
Context `{Platform}.
Import App.

Implicit Types (a : Data) (o : Outcome) (replies : list Outcome).

Local Opaque evaluateComprehensiveTest getPracticePlan.

(** An objective test goes straight to the results: nothing is entered,
    nothing is sent, and the handler never waits. *)
Lemma handleTestComplete_objective answers a testContent type replies :
  comprehensiveTest a = Some testContent ->
  testType a = Some type ->
  isSubjective type = false ->
  exec (handleTestComplete answers a) replies =
    ([], Returned (setAppState results (setPracticePlan None (setEvaluation None
                     (setError None (setUserAnswers (Some answers) a))))) tt).
Proof.
  intros Hct Hty Hobj. unfold exec, handleTestComplete. rewrite Hct, Hty, Hobj.
  reflexivity.
Qed.

Lemma handleTestComplete_subjective answers a testContent type replies :
  comprehensiveTest a = Some testContent ->
  testType a = Some type ->
  isSubjective type = true ->
  exec (handleTestComplete answers a) replies =
    (evaluationTrace testContent answers a (evaluationRun replies),
     evaluationEnding answers a (evaluationRun replies)).
Proof.
  intros Hct Hty Hsubj. unfold exec, handleTestComplete. rewrite Hct, Hty, Hsubj.
  async_unfold. rewrite run_catchP, run_bindP.
  fold (evaluatingData answers a).
  destruct replies as [|o replies].
  { rewrite evaluateComprehensiveTest_pending. reflexivity. }
  destruct (evaluateComprehensiveTest_reply testContent answers (evaluatingData answers a)
              o replies) as (fin & Hrun & Hfin).
  rewrite Hrun. unfold evaluationRun.
  destruct (evaluationOf o) as [evalResult|]; [subst fin | destruct Hfin as [e ->]; reflexivity].
  simpl. rewrite run_bindP.
  destruct (weaknessesOf evalResult) as [|w ws] eqn:Hw.
  { rewrite getPracticePlan_local by auto. unfold evaluationTrace. rewrite Hw. reflexivity. }
  assert (Hne : weaknessesOf evalResult <> []) by (rewrite Hw; discriminate).
  destruct replies as [|o' replies].
  { rewrite getPracticePlan_pending by auto. unfold evaluationTrace. rewrite Hw. reflexivity. }
  match goal with |- context [run (getPracticePlan evalResult ?s) _] =>
    destruct (getPracticePlan_reply evalResult s o' replies Hne) as (fin & Hrun' & Hfin')
  end.
  rewrite Hrun'. destruct (planOf o') as [practiceResult|].
  - subst fin. unfold evaluationTrace. rewrite Hw. reflexivity.
  - destruct Hfin' as [e ->]. unfold evaluationTrace. rewrite Hw. reflexivity.
Qed.

End EvaluationFacts.

(** ** The claims about the workflow *)

Section WorkflowClaims.
Context `{Platform}.
Import App.

(** What it takes for the test screen to be rendered. *)
Lemma renderContent_test a testContent url type :
  renderContent a = TestScreenElement testContent url type <->
  appState a = test /\ comprehensiveTest a = Some testContent /\ testType a = Some type
  /\ videoUrl a = url /\ url <> [].
Proof.
  unfold renderContent. split.
  - destruct (appState a); try discriminate.
    + destruct (comprehensiveTest a), (testType a); try discriminate.
      destruct (decide (videoUrl a <> [])); [|discriminate].
      intros [= -> <- ->]. auto.
    + destruct (comprehensiveTest a), (userAnswers a); discriminate.
  - intros (-> & -> & -> & <- & Hne). destruct (decide (videoUrl a <> [])); [auto | tauto].
Qed.

(** An event of the test screen that signals completion hands the answers
    to [handleTestComplete]. *)
Lemma testScreenEvent_completion ui t t' testContent url type ev answers replies :
  renderContent (app ui) = TestScreenElement testContent url type ->
  mounted ui = TestMounted t ->
  TestScreen.handle testContent type ev t = (t', Some answers) ->
  testScreenEvent ev replies ui =
    runHandler (handleTestComplete answers) replies
      {| app := app ui; mounted := TestMounted t' |}.
Proof.
  intros Hrender Hmounted Hhandle. unfold testScreenEvent.
  rewrite Hmounted, Hrender, Hhandle. reflexivity.
Qed.

(** C1: a submission of the welcome screen advances the workflow from
    welcome to the generation phase if and only if the video URL matches
    the YouTube pattern and the trimmed transcript has at least 50 code
    units; then [onStart] is called with the inputs as typed. Otherwise the
    state remains welcome, a validation message is shown, and [onStart] is
    not called (nothing is entered, nothing is sent). *)
Theorem handleStart_gate (w : WelcomeScreen.State) (a : Data) (type : TestType)
    (replies : list Outcome) :
  appState a = welcome ->
  let ui := {| app := a; mounted := WelcomeMounted w |} in
  let valid :=
    WelcomeScreen.YouTubeUrl (WelcomeScreen.videoUrl w)
    /\ 50 <= length (trim (WelcomeScreen.transcript w)) in
  let tr := (clickStart type replies ui).1 in
  let ui' := (clickStart type replies ui).2 in
  (valid <-> exists s, head (screens tr) = Some s /\ appState s = generating)
  /\ (valid ->
        (WelcomeScreen.handleStart type w).2 =
          Some (WelcomeScreen.videoUrl w, WelcomeScreen.transcript w, type)
        /\ head (calls tr) =
             Some (call_generateComprehensiveTest
                     (WelcomeScreen.videoUrl w) (WelcomeScreen.transcript w) type))
  /\ (~ valid ->
        (WelcomeScreen.handleStart type w).2 = None
        /\ tr = [] /\ app ui' = a /\ appState (app ui') = welcome
        /\ exists w', mounted ui' = WelcomeMounted w'
             /\ is_Some (WelcomeScreen.shownValidation w')
             /\ WelcomeScreen.videoUrl w' = WelcomeScreen.videoUrl w
             /\ WelcomeScreen.transcript w' = WelcomeScreen.transcript w).
Proof.
  intros Hwelcome ui valid tr ui'. subst tr ui'. unfold clickStart. simpl.
  destruct (handleStart_cases type w) as [(Hurl & Hlen & Hstart) | (Hinvalid & msg & Hmsg & Hstart)];
    rewrite Hstart.
  - assert (Hvalid : valid) by (split; auto).
    unfold runHandler. simpl. rewrite startTest_run. simpl.
    split; [split; [eauto | auto] | split; [auto | tauto]].
  - simpl. split; [split; [tauto | intros (s & Hs & _); discriminate] |].
    split; [tauto|]. intros _. repeat split; auto.
    exists (WelcomeScreen.setValidationError msg w). repeat split.
    unfold WelcomeScreen.shownValidation. simpl. destruct msg; [congruence | eauto].
Qed.

(** C8: when the test-content call or the chart-image call fails (a
    response without an image included), the workflow goes back from
    generating to welcome with the generation error message; a chart-image
    failure alone is enough, and no test content is installed, so there is
    no text-only Task 1 to fall back on. *)
Theorem generation_failure_is_fatal (url transcript : jsstring) (type : TestType) (ui : UI)
    (replies : list Outcome) :
  generationRun replies = contentFailed
  \/ (exists testContent chart, generationRun replies = chartFailed testContent chart) ->
  let tr := (runHandler (startTest url transcript type) replies ui).1 in
  let ui' := (runHandler (startTest url transcript type) replies ui).2 in
  screens tr <> []
  /\ Forall (fun s => appState s = generating) (screens tr)
  /\ appState (app ui') = welcome
  /\ error (app ui') = Some generationError
  /\ comprehensiveTest (app ui') = comprehensiveTest (app ui)
  /\ renderContent (app ui') = WelcomeScreenElement (Some generationError)
  /\ mounted ui' = WelcomeMounted WelcomeScreen.initial
  /\ (forall t, imageOf (Resolved {| text := t; generatedImages := None |}) = None)
  /\ (forall t, imageOf (Resolved {| text := t; generatedImages := Some [] |}) = None).
Proof.
  intros Hfail tr ui'. subst tr ui'. unfold runHandler. rewrite startTest_run. simpl.
  destruct Hfail as [-> | (testContent & chart & ->)]; simpl;
    repeat split; auto; try discriminate; repeat constructor.
Qed.

(** C2: for an objective-only test (listening or reading), finishing the
    section takes the workflow straight to the results with no evaluation
    and no practice plan; neither [evaluateComprehensiveTest] nor
    [getPracticePlan] is entered and nothing is sent to the service. *)
Theorem objective_test_goes_to_results (ui : UI) (t : TestScreen.State)
    (testContent : IComprehensiveTest) (url : jsstring) (type : TestType)
    (replies : list Outcome) :
  renderContent (app ui) = TestScreenElement testContent url type ->
  mounted ui = TestMounted t ->
  type = listening \/ type = reading ->
  let tr := (testScreenEvent TestScreen.NextSectionClick replies ui).1 in
  let ui' := (testScreenEvent TestScreen.NextSectionClick replies ui).2 in
  tr = []
  /\ appState (app ui') = results
  /\ evaluation (app ui') = None
  /\ practicePlan (app ui') = None
  /\ userAnswers (app ui') = Some (TestScreen.answers t)
  /\ renderContent (app ui') =
       EvaluationScreenElement None None (TestScreen.answers t) testContent
  /\ mounted ui' = EvaluationMounted.
Proof.
  intros Hrender Hmounted Htype tr ui'. subst tr ui'.
  assert (Hhandle : TestScreen.handle testContent type TestScreen.NextSectionClick t
                    = (t, Some (TestScreen.answers t))).
  { simpl. unfold TestScreen.nextSection.
    destruct (decide (type <> full)) as [|Hfull]; [reflexivity|].
    destruct Htype as [-> | ->]; exfalso; apply Hfull; discriminate. }
  rewrite (testScreenEvent_completion _ _ _ _ _ _ _ _ _ Hrender Hmounted Hhandle).
  apply renderContent_test in Hrender as (Hstate & Hct & Hty & Hurl & Hne).
  unfold runHandler. simpl.
  rewrite (handleTestComplete_objective _ _ testContent type) by
    (auto; destruct Htype as [-> | ->]; reflexivity).
  unfold settle, commit, renderContent. simpl. rewrite Hct. simpl. rewrite Hct. auto 10.
Qed.

(** C3: for a writing, a speaking or a full test, completing the test
    enters [evaluateComprehensiveTest] exactly once and then
    [getPracticePlan] at most once, in that order, with the loader on
    screen; the results are reached exactly when both have returned, and
    then each has been entered exactly once. *)
Theorem subjective_test_is_evaluated_then_planned (ui : UI) (t t' : TestScreen.State)
    (testContent : IComprehensiveTest) (url : jsstring) (type : TestType)
    (ev : TestScreen.Event) (answers : Answers) (replies : list Outcome) :
  renderContent (app ui) = TestScreenElement testContent url type ->
  mounted ui = TestMounted t ->
  type = writing \/ type = speaking \/ type = full ->
  TestScreen.handle testContent type ev t = (t', Some answers) ->
  let tr := (testScreenEvent ev replies ui).1 in
  let ui' := (testScreenEvent ev replies ui).2 in
  (exists more,
      calls tr = call_evaluateComprehensiveTest testContent answers :: more
      /\ (more = [] \/ exists evalResult, more = [call_getPracticePlan evalResult]))
  /\ Forall (fun s => appState s = evaluating) (screens tr)
  /\ (appState (app ui') = results <->
        exists evalResult practiceResult,
          evaluationRun replies = evaluated evalResult practiceResult)
  /\ (forall evalResult practiceResult,
        evaluationRun replies = evaluated evalResult practiceResult ->
        calls tr = [call_evaluateComprehensiveTest testContent answers;
                    call_getPracticePlan evalResult]
        /\ evaluation (app ui') = Some evalResult
        /\ practicePlan (app ui') = Some practiceResult).
Proof.
  intros Hrender Hmounted Htype Hhandle tr ui'. subst tr ui'.
  assert (Hsubj : isSubjective type = true)
    by (destruct Htype as [-> | [-> | ->]]; reflexivity).
  rewrite (testScreenEvent_completion _ _ _ _ _ _ _ _ _ Hrender Hmounted Hhandle).
  apply renderContent_test in Hrender as (Hstate & Hct & Hty & Hurl & Hne).
  assert (Hvideo : videoUrl (app ui) <> []) by (rewrite Hurl; exact Hne).
  unfold runHandler. simpl.
  rewrite (handleTestComplete_subjective _ _ testContent type) by auto.
  unfold settle, commit, renderContent.
  destruct (evaluationRun replies) as [| |e|e|e p]; simpl;
    try (destruct (weaknessesOf e); simpl);
    rewrite ?Hct, ?Hty; simpl;
    try (destruct (decide (videoUrl (app ui) <> [])); [|contradiction]); simpl;
    (split; [eexists; split; [reflexivity | eauto] |]).
  all: (split; [repeat constructor |]).
  all: (split; [split; [intros Hr; first [discriminate Hr | eauto]
                        | intros (? & ? & Hr); first [discriminate Hr | reflexivity]] |]).
  all: intros ? ? Hr; first [discriminate Hr | injection Hr as <- <-; auto].
Qed.

(** What the [catch] of [handleTestComplete] leaves behind: when the
    evaluation or the practice plan fails in a writing, a speaking or a
    full test, the state is [test] again, the evaluation error is set and
    the submitted answers are in [userAnswers]; the test screen, which
    gets neither of them, is mounted anew in its initial state. *)
Lemma evaluation_failure_returns_to_test (ui : UI) (t t' : TestScreen.State)
    (testContent : IComprehensiveTest) (url : jsstring) (type : TestType)
    (ev : TestScreen.Event) (answers : Answers) (replies : list Outcome) :
  renderContent (app ui) = TestScreenElement testContent url type ->
  mounted ui = TestMounted t ->
  type = writing \/ type = speaking \/ type = full ->
  TestScreen.handle testContent type ev t = (t', Some answers) ->
  evaluationRun replies = evaluationFailed
  \/ (exists evalResult, evaluationRun replies = planFailed evalResult) ->
  let ui' := (testScreenEvent ev replies ui).2 in
  appState (app ui') = test
  /\ error (app ui') = Some evaluationError
  /\ userAnswers (app ui') = Some answers
  /\ renderContent (app ui') = TestScreenElement testContent url type
  /\ mounted ui' = TestMounted (TestScreen.initial type SpeechRecognition_supported).
Proof.
  intros Hrender Hmounted Htype Hhandle Hfail ui'. subst ui'.
  assert (Hsubj : isSubjective type = true)
    by (destruct Htype as [-> | [-> | ->]]; reflexivity).
  rewrite (testScreenEvent_completion _ _ _ _ _ _ _ _ _ Hrender Hmounted Hhandle).
  apply renderContent_test in Hrender as (Hstate & Hct & Hty & Hurl & Hne).
  assert (Hvideo : videoUrl (app ui) <> []) by (rewrite Hurl; exact Hne).
  unfold runHandler. simpl.
  rewrite (handleTestComplete_subjective _ _ testContent type) by auto.
  unfold settle, commit, renderContent.
  destruct Hfail as [-> | [e ->]]; simpl; rewrite ?Hct, ?Hty; simpl;
    (destruct (decide (videoUrl (app ui) <> [])); [|contradiction]); simpl.
  - rewrite Hct, Hty, Hurl. destruct (decide (url <> [])); [auto 10 | contradiction].
  - destruct (weaknessesOf e); simpl; rewrite Hct, Hty, Hurl;
      (destruct (decide (url <> [])); [auto 10 | contradiction]).
Qed.

(** X1: a generation whose replies are usable ends in the test state with the
    content installed (the chart image attached when one was drawn), no
    error, and the test screen mounted in its initial state. *)
Theorem generation_success_reaches_test (url transcript : jsstring) (type : TestType)
    (ui : UI) (replies : list Outcome) (testContent : IComprehensiveTest)
    (chart : option IChartData) :
  generationRun replies = generated testContent chart ->
  url <> [] ->
  let ui' := (runHandler (startTest url transcript type) replies ui).2 in
  appState (app ui') = test
  /\ comprehensiveTest (app ui') = Some testContent
  /\ testType (app ui') = Some type
  /\ videoUrl (app ui') = url
  /\ error (app ui') = None
  /\ renderContent (app ui') = TestScreenElement testContent url type
  /\ mounted ui' = TestMounted (TestScreen.initial type SpeechRecognition_supported).
Proof.
  intros Hrun Hurl ui'. subst ui'. unfold runHandler. rewrite startTest_run, Hrun.
  unfold settle, commit, renderContent. simpl.
  destruct chart; simpl; (destruct (decide (url <> [])); [|contradiction]); simpl;
    (destruct (decide (url <> [])); [|contradiction]); auto 10.
Qed.

(** X2: restarting discards the whole session: the data is the initial data,
    whatever it was. *)
Theorem restartTest_resets (a : Data) :
  restartTest a = initial
  /\ renderContent (restartTest a) = WelcomeScreenElement None.
Proof. split; reflexivity. Qed.

End WorkflowClaims.

(** ** The test screen *)

Section TestScreenClaims.
Context `{Platform}.
Import TestScreen.

Lemma trim_nil : trim [] = [].
Proof. reflexivity. Qed.

Lemma filter_length_mono {A} (P Q : A -> Prop) `{forall x, Decision (P x)}
    `{forall x, Decision (Q x)} (l : list A) :
  (forall x, P x -> Q x) -> length (filter P l) <= length (filter Q l).
Proof.
  intros HPQ. induction l as [|x l IH]; simpl; [lia|].
  rewrite !filter_cons. destruct (decide (P x)) as [HP | HP].
  - destruct (decide (Q x)) as [HQ | HQ]; [simpl; lia | exfalso; auto].
  - destruct (decide (Q x)); simpl; lia.
Qed.

(** C5: the table renderer reads the chart data [Year,Revenue / 2022,5M /
    2023,8M] (three lines) as the headers Year and Revenue and the two body
    rows 2022, 5M and 2023, 8M. For every data, the lines are the pieces
    between line feeds, the blank ones left out; with a first line and at
    least one more, the table has the given title, the cells of a line are
    its pieces between commas, each trimmed, the first line gives the
    headers and every other line one body row, in order. Data with fewer
    than two non-empty lines (indeed fewer than two lines that are not
    blank) gets the invalid-table rendering, the [catch] branch being out
    of reach. *)
Theorem TableRenderer_parses (data title : jsstring) :
  TableRenderer (lit "Year,Revenue" ++ [LF] ++ lit "2022,5M" ++ [LF] ++ lit "2023,8M") title =
    Table title [lit "Year"; lit "Revenue"] [[lit "2022"; lit "5M"]; [lit "2023"; lit "8M"]]
  /\ (forall header line lines,
        filter (fun row => trim row <> []) (split LF data) = header :: line :: lines ->
        exists headers bodyRows,
          TableRenderer data title = Table title headers bodyRows
          /\ length bodyRows = S (length lines)
          /\ Forall2 (fun row cells => cells = trim <$> split COMMA row)
               (header :: line :: lines) (headers :: bodyRows))
  /\ (length (filter (fun row => row <> []) (split LF data)) < 2 ->
      TableRenderer data title = InvalidTable)
  /\ (length (filter (fun row => trim row <> []) (split LF data)) < 2 <->
      TableRenderer data title = InvalidTable)
  /\ TableRenderer data title <> TableError.
Proof.
  split; [vm_compute; reflexivity|].
  split.
  { intros header line lines Hrows. unfold TableRenderer. rewrite Hrows.
    destruct (decide (length (header :: line :: lines) < 2)) as [Hfew | _];
      [simpl in Hfew; lia|].
    exists (trim <$> split COMMA header),
           ((fun row => trim <$> split COMMA row) <$> line :: lines).
    split; [reflexivity|]. split; [rewrite length_fmap; reflexivity|].
    constructor; [reflexivity|].
    apply Forall2_fmap_r, Forall_Forall2_diag, Forall_forall. reflexivity. }
  assert (Hblank : length (filter (fun row => trim row <> []) (split LF data)) < 2 <->
                   TableRenderer data title = InvalidTable).
  { unfold TableRenderer.
    destruct (decide (length (filter (fun row => trim row <> []) (split LF data)) < 2))
      as [Hlt | Hge]; [tauto|].
    destruct (filter (fun row => trim row <> []) (split LF data)) as [|row0 rows]; simpl in *;
      [lia|]. split; [lia | discriminate]. }
  split; [|split; [exact Hblank|]].
  - intros Hfew. apply Hblank.
    eapply Nat.le_lt_trans; [|exact Hfew].
    apply filter_length_mono. intros row Hrow ->. apply Hrow, trim_nil.
  - unfold TableRenderer.
    destruct (decide (length (filter (fun row => trim row <> []) (split LF data)) < 2));
      [discriminate|].
    destruct (filter (fun row => trim row <> []) (split LF data)) as [|row0 rows]; simpl in *;
      [lia | discriminate].
Qed.

Lemma orElse_nil (s : jsstring) : orElse s [] = s.
Proof. destruct s; reflexivity. Qed.

(** C10: extracting the id of the embedded video always yields a string:
    the empty one when the URL does not parse, the path without its
    leading slash when the host is [youtu.be], and otherwise the value of
    the [v] query parameter, or the empty string when there is none. *)
Theorem videoId_total (videoUrl : jsstring) :
  (URL_new videoUrl = None -> videoId videoUrl = [])
  /\ (forall url, URL_new videoUrl = Some url ->
        (hostname url = lit "youtu.be" ->
           videoId videoUrl = slice1 (pathname url)
           /\ forall path, pathname url = SLASH :: path -> videoId videoUrl = path)
        /\ (hostname url <> lit "youtu.be" ->
              videoId videoUrl =
                match searchParams_get (lit "v") (searchParams url) with
                | Some v => v
                | None => []
                end)).
Proof.
  unfold videoId. split; [intros ->; reflexivity|].
  intros url ->. split.
  - intros Hhost. destruct (decide (hostname url = lit "youtu.be")); [|contradiction].
    split; [reflexivity | intros path ->; reflexivity].
  - intros Hhost. destruct (decide (hostname url = lit "youtu.be")); [contradiction|].
    rewrite orElse_nil. destruct (searchParams_get _ _); reflexivity.
Qed.

(** Buffer events touch neither the answers nor the question pointer. *)
Lemma play_buffer testContent type buffer t :
  Forall (fun ev => isBufferEvent ev = true) buffer ->
  answers (play testContent type buffer t).1 = answers t
  /\ currentSpeakingQuestionIndex (play testContent type buffer t).1
     = currentSpeakingQuestionIndex t.
Proof.
  intros Hbuf. revert t. induction Hbuf as [|ev buffer Hev _ IH]; intros t; simpl; [auto|].
  destruct (handle testContent type ev t) as [t1 done1] eqn:Hhandle.
  specialize (IH t1). destruct (play testContent type buffer t1) as [t2 done2]. simpl in *.
  assert (answers t1 = answers t
          /\ currentSpeakingQuestionIndex t1 = currentSpeakingQuestionIndex t) as [Ha Hi].
  { destruct ev; try discriminate; simpl in Hhandle; injection Hhandle as <- _.
    - unfold toggleRecording, stopListening, startListening.
      destruct (isListening t), (recognition t); auto.
    - auto.
    - auto. }
  rewrite <- Ha, <- Hi. exact IH.
Qed.

Lemma speakingRounds_from testContent type rounds : forall t,
  rounds <> [] ->
  length (ans_speaking (answers t)) = currentSpeakingQuestionIndex t ->
  currentSpeakingQuestionIndex t + length rounds = length (ct_speaking testContent) ->
  Forall (Forall (fun ev => isBufferEvent ev = true)) rounds ->
  let r := speakingRounds testContent type rounds t in
  length r.1.2 = length rounds
  /\ r.2 =
       [withSpeaking
          (ans_speaking (answers t)
           ++ zip_with spoken (drop (currentSpeakingQuestionIndex t) (ct_speaking testContent))
                r.1.2)
          (answers t)].
Proof.
  induction rounds as [|buffer rounds IH]; intros t Hne Hacc Hlen Hbuf; [congruence|].
  apply Forall_cons in Hbuf as [Hbuffer Hrest].
  destruct (play_buffer testContent type buffer t Hbuffer) as [Ha Hi].
  simpl. unfold speakingRound, handleNextSpeakingQuestion, currentSpeakingQuestion.
  set (t1 := (play testContent type buffer t).1) in *.
  simpl in Hlen.
  destruct (lookup_lt_is_Some_2 (ct_speaking testContent) (currentSpeakingQuestionIndex t))
    as [q Hq]; [lia|].
  rewrite Hi, Hq. rewrite (drop_S _ _ _ Hq).
  unfold isLastSpeakingQuestion. rewrite Hi.
  destruct (decide (rounds = [])) as [-> | Hmore].
  - simpl in Hlen.
    destruct (Z.eqb_spec (Z.of_nat (currentSpeakingQuestionIndex t))
                (Z.of_nat (length (ct_speaking testContent)) - 1)) as [_ | Hn]; [|lia].
    simpl. rewrite Ha. split; [reflexivity|].
    destruct (drop _ (ct_speaking testContent)); reflexivity.
  - assert (Hpos : 1 <= length rounds) by (destruct rounds; simpl; [congruence | lia]).
    destruct (Z.eqb_spec (Z.of_nat (currentSpeakingQuestionIndex t))
                (Z.of_nat (length (ct_speaking testContent)) - 1)) as [Hn | _]; [lia|].
    set (b := ans_speaking (answers t1) ++ [spoken q (transcript t1)]).
    set (t2 := setTranscript [] (setCurrentSpeakingQuestionIndex (fun prev => prev + 1)
                 (setAnswers (withSpeaking b) (if isListening t1 then stopListening t1 else t1)))).
    assert (Hidx : currentSpeakingQuestionIndex t2 = Datatypes.S (currentSpeakingQuestionIndex t)).
    { subst t2. destruct (isListening t1); [unfold stopListening; destruct (recognition t1)|];
        simpl; rewrite Hi; lia. }
    assert (Hans : answers t2 = withSpeaking b (answers t)).
    { subst t2. destruct (isListening t1); [unfold stopListening; destruct (recognition t1)|];
        simpl; rewrite Ha; reflexivity. }
    specialize (IH t2 Hmore). cbv zeta in IH.
    rewrite Hidx, Hans in IH. simpl in IH.
    destruct IH as [IHlen IHdone]; [subst b; rewrite length_app, Ha; simpl; lia | lia | exact Hrest |].
    fold (spoken q (transcript t1)). fold b. fold t2.
    destruct (speakingRounds testContent type rounds t2) as [[t3 snapshots] done].
    simpl in *. split; [lia|]. rewrite IHdone. subst b. rewrite Ha, <- app_assoc. reflexivity.
Qed.

(** C6: with N >= 1 speaking questions, N rounds of working on the buffer
    and advancing signal completion exactly once, at the last advance. The
    answers handed over hold exactly N speaking entries; the i-th of them
    pairs the text of the i-th question with the buffer as it stood at the
    i-th advance, and the rest of the answers is handed over as it was. *)
Theorem speaking_flow_finalizes (testContent : IComprehensiveTest) (type : TestType)
    (rounds : list (list Event)) (t0 : State) :
  1 <= length (ct_speaking testContent) ->
  currentSpeakingQuestionIndex t0 = 0 ->
  ans_speaking (answers t0) = [] ->
  length rounds = length (ct_speaking testContent) ->
  Forall (Forall (fun ev => isBufferEvent ev = true)) rounds ->
  let snapshots := (speakingRounds testContent type rounds t0).1.2 in
  let completions := (speakingRounds testContent type rounds t0).2 in
  exists handedOver,
    completions = [handedOver]
    /\ length (ans_speaking handedOver) = length (ct_speaking testContent)
    /\ length snapshots = length (ct_speaking testContent)
    /\ (forall i q, ct_speaking testContent !! i = Some q ->
          exists buffer,
            snapshots !! i = Some buffer
            /\ ans_speaking handedOver !! i
               = Some {| sa_question := q_question q; sa_answer := buffer |})
    /\ ans_listening handedOver = ans_listening (answers t0)
    /\ ans_reading handedOver = ans_reading (answers t0)
    /\ ans_writing handedOver = ans_writing (answers t0).
Proof.
  intros Hpos Hindex Hempty Hlen Hbuf snapshots completions.
  set (entries := zip_with spoken (ct_speaking testContent) snapshots).
  exists (withSpeaking entries (answers t0)).
  destruct (speakingRounds_from testContent type rounds t0) as [Hsnap Hdone].
  - destruct rounds; simpl in Hlen; [lia | discriminate].
  - rewrite Hempty, Hindex. reflexivity.
  - rewrite Hindex. simpl. exact Hlen.
  - exact Hbuf.
  - cbv zeta in Hsnap, Hdone. rewrite Hempty, Hindex in Hdone. simpl in Hdone.
    fold snapshots in Hsnap, Hdone. fold completions in Hdone.
    assert (Hn : length snapshots = length (ct_speaking testContent)) by lia.
    split; [exact Hdone|]. split; [|split; [exact Hn|split; [|auto]]].
    + subst entries. simpl. rewrite length_zip_with. lia.
    + intros i q Hq.
      destruct (lookup_lt_is_Some_2 snapshots i) as [buffer Hbuffer].
      { rewrite Hn. eapply lookup_lt_Some; eauto. }
      exists buffer. split; [exact Hbuffer|].
      subst entries. simpl. rewrite lookup_zip_with, Hq. simpl. rewrite Hbuffer. reflexivity.
Qed.

(** X3: in a full test the [Next Section] button walks the four sections in
    order, stays on the last, keeps the answers, and never signals
    completion. *)
Theorem nextSection_full (t : State) :
  let t' := (nextSection full t).1 in
  (nextSection full t).2 = None
  /\ answers t' = answers t
  /\ currentSection t' =
       match currentSection t with
       | sec_listening => sec_reading
       | sec_reading => sec_writing
       | sec_writing | sec_speaking => sec_speaking
       end.
Proof.
  unfold nextSection. destruct (decide (full <> full)); [congruence|].
  destruct t as [[] ? ? ? ? ?]; simpl; auto.
Qed.

End TestScreenClaims.

(** ** The practice plan *)

Section PracticePlanClaims.
Context `{Platform} {S : Type}.





End PracticePlanClaims.

(** ** The report *)

(** Texts written once into a document. *)

Section WrittenOnceFacts.
Import EvaluationScreen.
Context {A : Type}.
Implicit Types (text document : A -> jsstring).

Lemma WrittenOnce_here text : WrittenOnce text text.
Proof. exists [], []. intros a. rewrite app_nil_r. reflexivity. Qed.

Lemma WrittenOnce_app_l text (before : jsstring) document :
  WrittenOnce text document -> WrittenOnce text (fun a => before ++ document a).
Proof.
  intros (b & c & Hdoc). exists (before ++ b), c. intros a.
  rewrite Hdoc, <- app_assoc. reflexivity.
Qed.

Lemma WrittenOnce_app_r text document (after : jsstring) :
  WrittenOnce text document -> WrittenOnce text (fun a => document a ++ after).
Proof.
  intros (b & c & Hdoc). exists b, (c ++ after). intros a.
  rewrite Hdoc, <- !app_assoc. reflexivity.
Qed.

Lemma WrittenOnce_ext text document document' :
  (forall a, document a = document' a) ->
  WrittenOnce text document' -> WrittenOnce text document.
Proof. intros Hext (b & c & Hdoc). exists b, c. intros a. rewrite Hext. apply Hdoc. Qed.

Lemma WrittenOnce_includes text document a :
  WrittenOnce text document -> includes (text a) (document a).
Proof. intros (b & c & Hdoc). exists b, c. apply Hdoc. Qed.

End WrittenOnceFacts.

(** What it means for a text to be written once: the document changes
    with the text, and it does not hold the text twice. *)
Lemma WrittenOnce_exactly (document : jsstring -> jsstring) :
  EvaluationScreen.WrittenOnce (fun text => text) document ->
  (forall fixed, exists text, document text <> fixed)
  /\ (forall before between after,
        exists text, document text <> before ++ text ++ between ++ text ++ after).
Proof.
  intros (b & c & Hdoc). split.
  - intros fixed. destruct (decide (document [] = fixed)) as [Hnil | Hnil]; [|eauto].
    exists [0%N]. intros Hone. rewrite Hdoc in Hnil, Hone. subst fixed.
    apply (f_equal length) in Hone. rewrite !length_app in Hone. simpl in Hone. lia.
  - intros before between after.
    destruct (decide (document [] = before ++ [] ++ between ++ [] ++ after)) as [Hnil | Hnil];
      [|eauto].
    exists [0%N]. intros Hone. rewrite Hdoc in Hnil, Hone.
    apply (f_equal length) in Hnil, Hone. rewrite !length_app in Hnil, Hone.
    simpl in Hnil, Hone. lia.
Qed.

Ltac find_written :=
  first [ apply WrittenOnce_here
        | apply WrittenOnce_app_l; find_written
        | apply WrittenOnce_app_r; find_written ].

Section ReportClaims.
Context `{Platform}.
Import EvaluationScreen.

Context (userAnswers : Answers) (testContent : IComprehensiveTest).

Local Abbreviation export e p :=
  (handleSaveAsMarkdown userAnswers testContent (Some e) (Some p)).

(** The export of an evaluation and a practice plan, piece by piece. *)
Lemma handleSaveAsMarkdown_pieces (e : IEvaluation) (p : list IPracticeItem) :
  export e p =
    reportTitle
    ++ scoreTableHead e
    ++ mjoin (mainScoreRow <$> mainScores e)
    ++ summarySection e
    ++ mjoin (detailedBlock <$> detailedCriteria e)
    ++ match improvedAnswers e with
       | Some improved =>
           writingSection userAnswers testContent improved
           ++ mjoin (imap (speakingBlock userAnswers) (ia_speaking improved))
       | None => []
       end
    ++ practiceHead
    ++ mjoin (practiceBlock <$> p).
Proof.
  unfold handleSaveAsMarkdown.
  change (Some e ≫= improvedAnswers) with (improvedAnswers e).
  destruct (improvedAnswers e); rewrite <- ?app_assoc; reflexivity.
Qed.

Lemma mjoin_blocks {B} (block : B -> jsstring) (earlier : list B) (b : B) (later : list B) :
  mjoin (block <$> earlier ++ b :: later)
  = mjoin (block <$> earlier) ++ block b ++ mjoin (block <$> later).
Proof. rewrite fmap_app, join_app. reflexivity. Qed.

(** C9: the exported Markdown contains the overall band score, the
    feedback of every detailed criterion (those not named after a main
    skill) and the exercise of every practice item, and writes each of them
    exactly once: as a function of the score, of the feedback of the
    criterion at a given place or of the exercise of the item at a given
    place, the document is one fixed text, the value, and another fixed
    text. (The characters of a value may of course be spelled by other
    content as well, as when a main skill has the score of the overall
    band.) *)
Theorem markdown_export_contents (evaluation : IEvaluation) (practicePlan : list IPracticeItem) :
  (includes (Number_toFixed1 (overallBandScore evaluation)) (export evaluation practicePlan)
   /\ WrittenOnce Number_toFixed1
        (fun overall => export (withOverallBandScore overall evaluation) practicePlan))
  /\ (forall earlier c later,
        detailedScores evaluation = earlier ++ c :: later ->
        criterion c ∉ mainSkills ->
        includes (feedback c) (export evaluation practicePlan)
        /\ WrittenOnce (fun text => text)
             (fun text =>
                export (withDetailedScores (earlier ++ withFeedback text c :: later) evaluation)
                  practicePlan))
  /\ (forall earlier item later,
        practicePlan = earlier ++ item :: later ->
        includes (exercise item) (export evaluation practicePlan)
        /\ WrittenOnce (fun text => text)
             (fun text => export evaluation (earlier ++ withExercise text item :: later))).
Proof.
  split; [|split].
  - assert (Honce : WrittenOnce Number_toFixed1
                      (fun overall =>
                         export (withOverallBandScore overall evaluation) practicePlan)).
    { eapply WrittenOnce_ext.
      - intros overall. rewrite handleSaveAsMarkdown_pieces.
        unfold scoreTableHead, mainScores, detailedCriteria, summarySection,
          withOverallBandScore.
        cbn [overallBandScore detailedScores summary improvedAnswers]. reflexivity.
      - find_written. }
    split; [|exact Honce].
    destruct evaluation as [overall scores text improved].
    exact (WrittenOnce_includes _ _ overall Honce).
  - intros earlier c later Hscores Hdetailed.
    assert (Honce : WrittenOnce (fun text => text)
                      (fun text =>
                         export (withDetailedScores (earlier ++ withFeedback text c :: later)
                                   evaluation) practicePlan)).
    { eapply WrittenOnce_ext.
      - intros text. rewrite handleSaveAsMarkdown_pieces.
        unfold scoreTableHead, mainScores, detailedCriteria, summarySection,
          withDetailedScores.
        cbn [overallBandScore detailedScores summary improvedAnswers].
        rewrite !filter_app, !filter_cons. cbn [criterion withFeedback].
        destruct (decide (criterion c ∈ mainSkills)); [contradiction|].
        destruct (decide (criterion c ∉ mainSkills)); [|contradiction].
        rewrite app_nil_l, mjoin_blocks. unfold detailedBlock at 2.
        cbn [criterion score feedback withFeedback]. reflexivity.
      - find_written. }
    split; [|exact Honce].
    destruct evaluation as [overall scores text improved], c as [name value words].
    simpl in Hscores. subst scores.
    exact (WrittenOnce_includes _ _ words Honce).
  - intros earlier item later Hplan.
    assert (Honce : WrittenOnce (fun text => text)
                      (fun text =>
                         export evaluation (earlier ++ withExercise text item :: later))).
    { eapply WrittenOnce_ext.
      - intros text. rewrite handleSaveAsMarkdown_pieces, mjoin_blocks.
        unfold practiceBlock at 2.
        cbn [area title description exercise withExercise]. reflexivity.
      - find_written. }
    split; [|exact Honce].
    destruct item as [focus heading words task]. subst practicePlan.
    exact (WrittenOnce_includes _ _ task Honce).
Qed.

End ReportClaims.

(** ** The claims on the sample session *)

Section SampleRuns.
Import Sample.

Local Abbreviation P := samplePlatform.

(** C1 at the sample inputs: the default URL and a transcript of 65 code
    units after trimming start the generation of a full test. *)
Lemma handleStart_gate_witness :
  App.appState App.initial = App.welcome
  /\ head (calls (App.clickStart (H := P) full [] welcomePage).1)
     = Some (call_generateComprehensiveTest sampleUrl sampleTranscript full).
Proof.
  split; [reflexivity|].
  pose proof (handleStart_gate (H := P) sampleWelcome App.initial full [] eq_refl) as Hgate.
  cbv zeta in Hgate. destruct Hgate as (_ & Hcall & _). apply Hcall. split.
  - apply youtubeRegex_test. vm_compute. reflexivity.
  - vm_compute. lia.
Defined.

(** X1 at the sample inputs: a successful generation. *)
Lemma generation_success_reaches_test_witness :
  App.generationRun (H := P) generationReplies
    = App.generated generatedTest (chartData (ws_task1 (ct_writing sampleTest)))
  /\ App.mounted (testPage writing) = App.TestMounted (TestScreen.initial writing true).
Proof.
  assert (Hrun : App.generationRun (H := P) generationReplies
                 = App.generated generatedTest (chartData (ws_task1 (ct_writing sampleTest))))
    by (vm_compute; reflexivity).
  split; [exact Hrun|].
  assert (Hpage : testPage writing
                  = (App.runHandler (H := P) (App.startTest (H := P) sampleUrl sampleTranscript writing)
                       generationReplies welcomePage).2) by (vm_compute; reflexivity).
  rewrite Hpage.
  apply (generation_success_reaches_test (H := P) sampleUrl sampleTranscript writing welcomePage
           generationReplies _ _ Hrun).
  discriminate.
Defined.

(** C8 at the sample inputs: the test content arrives, the image service
    answers with no image, and the page is back on a fresh welcome screen. *)
Lemma generation_failure_is_fatal_witness :
  App.generationRun (H := P) [reply (testJson sampleTest); imageReply []]
    = App.chartFailed sampleTest
        {| cd_type := bar_chart; cd_title := lit "Riders"; cd_data := lit "2022: 5M, 2023: 8M" |}
  /\ App.mounted
       (App.runHandler (H := P) (App.startTest (H := P) sampleUrl sampleTranscript writing)
          [reply (testJson sampleTest); imageReply []] welcomePage).2
     = App.WelcomeMounted WelcomeScreen.initial.
Proof.
  assert (Hrun : App.generationRun (H := P) [reply (testJson sampleTest); imageReply []]
                 = App.chartFailed sampleTest
                     {| cd_type := bar_chart; cd_title := lit "Riders";
                        cd_data := lit "2022: 5M, 2023: 8M" |})
    by (vm_compute; reflexivity).
  split; [exact Hrun|].
  pose proof (generation_failure_is_fatal (H := P) sampleUrl sampleTranscript writing
                welcomePage [reply (testJson sampleTest); imageReply []]
                (or_intror (ex_intro _ _ (ex_intro _ _ Hrun)))) as Hfatal.
  cbv zeta in Hfatal. apply Hfatal.
Defined.

(** C2 at the sample inputs: a listening test goes to the results on
    [Finish & Submit], with nothing on the trace. *)
Lemma objective_test_goes_to_results_witness :
  App.renderContent (App.app (testPage listening))
    = App.TestScreenElement generatedTest sampleUrl listening
  /\ (App.testScreenEvent (H := P) TestScreen.NextSectionClick [] (testPage listening)).1 = []
  /\ App.appState
       (App.app (App.testScreenEvent (H := P) TestScreen.NextSectionClick []
                   (testPage listening)).2)
     = App.results.
Proof.
  assert (Hrender : App.renderContent (App.app (testPage listening))
                    = App.TestScreenElement generatedTest sampleUrl listening)
    by (vm_compute; reflexivity).
  assert (Hmounted : App.mounted (testPage listening)
                     = App.TestMounted (TestScreen.initial listening true))
    by (vm_compute; reflexivity).
  split; [exact Hrender|].
  pose proof (objective_test_goes_to_results (H := P) (testPage listening) _ _ _ _ []
                Hrender Hmounted (or_introl eq_refl)) as Hgoes.
  cbv zeta in Hgoes. destruct Hgoes as (Htrace & Hstate & _). auto.
Defined.

(** C3 at the sample inputs: a writing test with both replies usable is
    evaluated, then planned, and reaches the results. *)
Lemma subjective_test_is_evaluated_then_planned_witness :
  App.evaluationRun (H := P) evaluationReplies
    = App.evaluated sampleEvaluation samplePlan
  /\ calls (App.testScreenEvent (H := P) TestScreen.NextSectionClick
              evaluationReplies typedPage).1
     = [call_evaluateComprehensiveTest generatedTest typedAnswers;
        call_getPracticePlan sampleEvaluation]
  /\ App.appState
       (App.app (App.testScreenEvent (H := P) TestScreen.NextSectionClick
                   evaluationReplies typedPage).2)
     = App.results.
Proof.
  assert (Hrun : App.evaluationRun (H := P) evaluationReplies
                 = App.evaluated sampleEvaluation samplePlan) by (vm_compute; reflexivity).
  assert (Hrender : App.renderContent (App.app typedPage)
                    = App.TestScreenElement generatedTest sampleUrl writing)
    by (vm_compute; reflexivity).
  assert (Hmounted : exists t, App.mounted typedPage = App.TestMounted t
                               /\ TestScreen.answers t = typedAnswers)
    by (eexists; split; vm_compute; reflexivity).
  destruct Hmounted as (t & Hmounted & Hanswers).
  assert (Hhandle : TestScreen.handle generatedTest writing TestScreen.NextSectionClick t
                    = (t, Some typedAnswers)) by (rewrite <- Hanswers; reflexivity).
  split; [exact Hrun|].
  pose proof (subjective_test_is_evaluated_then_planned (H := P) typedPage t t generatedTest
                sampleUrl writing TestScreen.NextSectionClick typedAnswers
                evaluationReplies Hrender Hmounted (or_introl eq_refl) Hhandle) as Hthen.
  cbv zeta in Hthen. destruct Hthen as (_ & _ & Hresults & Hcalls).
  split; [apply (Hcalls _ _ Hrun) | apply Hresults; eauto].
Defined.

(** C7 on the sample session: the user types two essays and submits, and
    the evaluation request is rejected. The state is [test] again and the
    evaluation error is set, but the element rendered is the test screen,
    which is handed no error and no answers: it comes back in its initial
    state, empty, while [userAnswers] still holds what was typed, and
    submitting again sends the empty answers. *)
Lemma evaluation_failure_discards_typed_answers :
  App.screenAnswers typedPage = Some typedAnswers
  /\ App.appState (App.app rejectedPage) = App.test
  /\ App.error (App.app rejectedPage) = Some App.evaluationError
  /\ App.userAnswers (App.app rejectedPage) = Some typedAnswers
  /\ App.renderContent (App.app rejectedPage)
     = App.TestScreenElement generatedTest sampleUrl writing
  /\ App.mounted rejectedPage = App.TestMounted (TestScreen.initial writing true)
  /\ App.screenAnswers rejectedPage = Some TestScreen.noAnswers
  /\ wa_task1 (ans_writing typedAnswers) = essay1
  /\ wa_task1 (ans_writing TestScreen.noAnswers) = []
  /\ typedAnswers <> TestScreen.noAnswers
  /\ head (calls (App.testScreenEvent (H := P) TestScreen.NextSectionClick [] rejectedPage).1)
     = Some (call_evaluateComprehensiveTest generatedTest TestScreen.noAnswers).
Proof.
  assert (Hrun : App.evaluationRun (H := P) [Rejected (lit "503 Service Unavailable")]
                 = App.evaluationFailed) by reflexivity.
  assert (Hrender : App.renderContent (App.app typedPage)
                    = App.TestScreenElement generatedTest sampleUrl writing)
    by (vm_compute; reflexivity).
  assert (Hmounted : exists t, App.mounted typedPage = App.TestMounted t
                               /\ TestScreen.answers t = typedAnswers)
    by (eexists; split; vm_compute; reflexivity).
  destruct Hmounted as (t & Hmounted & Hanswers).
  assert (Hhandle : TestScreen.handle generatedTest writing TestScreen.NextSectionClick t
                    = (t, Some typedAnswers)) by (rewrite <- Hanswers; reflexivity).
  pose proof (evaluation_failure_returns_to_test (H := P) typedPage t t generatedTest
                sampleUrl writing TestScreen.NextSectionClick typedAnswers
                [Rejected (lit "503 Service Unavailable")]
                Hrender Hmounted (or_introl eq_refl) Hhandle (or_introl Hrun)) as Hback.
  cbv zeta in Hback. fold rejectedPage in Hback.
  destruct Hback as (Hstate & Herror & Hrecorded & Hshown & Hfresh).
  split; [unfold App.screenAnswers; rewrite Hmounted, Hanswers; reflexivity|].
  split; [exact Hstate|]. split; [exact Herror|]. split; [exact Hrecorded|].
  split; [exact Hshown|]. split; [exact Hfresh|].
  split; [unfold App.screenAnswers; rewrite Hfresh; reflexivity|].
  split; [reflexivity|]. split; [reflexivity|].
  split; [|vm_compute; reflexivity].
  intros Heq. apply (f_equal (fun a => length (wa_task1 (ans_writing a)))) in Heq.
  vm_compute in Heq. discriminate.
Qed.

(** C6 at the sample inputs: two questions, two rounds, one completion,
    and the answers handed over hold the two entries. *)
Lemma speaking_flow_finalizes_witness :
  exists handedOver,
    (TestScreen.speakingRounds sampleTest speaking speakingRoundsSample
       (TestScreen.initial speaking true)).2 = [handedOver]
    /\ ans_speaking handedOver
       = [{| sa_question := lit "Do you use buses?"; sa_answer := lit "Yes, I do." |};
          {| sa_question := lit "How will transport change?";
             sa_answer := lit "It will be electric." |}].
Proof.
  pose proof (speaking_flow_finalizes sampleTest speaking speakingRoundsSample
                (TestScreen.initial speaking true)) as Hflow.
  cbv zeta in Hflow. destruct Hflow as (handedOver & Hdone & Hlength & _ & Hentries & _).
  - simpl. lia.
  - reflexivity.
  - reflexivity.
  - reflexivity.
  - repeat constructor.
  - exists handedOver. split; [exact Hdone|].
    destruct (Hentries 0 _ eq_refl) as (buffer0 & Hbuffer0 & Hfirst).
    destruct (Hentries 1 _ eq_refl) as (buffer1 & Hbuffer1 & Hsecond).
    vm_compute in Hbuffer0, Hbuffer1.
    injection Hbuffer0 as <-. injection Hbuffer1 as <-.
    destruct (ans_speaking handedOver) as [|entry0 [|entry1 [|entry2 entries]]];
      try discriminate Hlength.
    simpl in Hfirst, Hsecond. injection Hfirst as ->. injection Hsecond as ->.
    vm_compute. reflexivity.
Defined.


(** C10 at the sample inputs: the id of the default video. *)
Lemma videoId_total_witness :
  URL_new (Platform := P) sampleUrl
    = Some {| hostname := lit "youtu.be"; pathname := lit "/p1yCOdp2vs0";
              searchParams := [(lit "si", lit "pKV47XzCq44ERMGO")] |}
  /\ TestScreen.videoId (H := P) sampleUrl = lit "p1yCOdp2vs0".
Proof.
  assert (Hurl : URL_new (Platform := P) sampleUrl
                 = Some {| hostname := lit "youtu.be"; pathname := lit "/p1yCOdp2vs0";
                           searchParams := [(lit "si", lit "pKV47XzCq44ERMGO")] |})
    by (vm_compute; reflexivity).
  split; [exact Hurl|].
  destruct (videoId_total (H := P) sampleUrl) as (_ & Hparsed).
  destruct (Hparsed _ Hurl) as (Hshort & _).
  destruct (Hshort eq_refl) as (_ & Hpath). apply (Hpath (lit "p1yCOdp2vs0")).
  vm_compute. reflexivity.
Defined.


End SampleRuns.

(** ** White space, pieces and separators *)

Section TrimFacts.

Implicit Types (s a b : jsstring) (c : N).

Lemma trimStart_app_trimmed a s :
  Forall (fun c => isTrimmed c = true) a -> trimStart (a ++ s) = trimStart s.
Proof. induction 1 as [|c a Hc _ IH]; simpl; [reflexivity|]. rewrite Hc. exact IH. Qed.

Lemma trimStart_nil_iff s : trimStart s = [] <-> Forall (fun c => isTrimmed c = true) s.
Proof.
  induction s as [|c s IH]; simpl; [split; auto|].
  destruct (isTrimmed c) eqn:Hc.
  - rewrite IH. split; [intros; constructor; auto | intros Hall; inversion Hall; auto].
  - split; [discriminate | intros Hall; inversion Hall; congruence].
Qed.

(** What [trimStart] leaves starts with a code unit that is not stripped. *)
Lemma trimStart_head s c s' : trimStart s = c :: s' -> isTrimmed c = false.
Proof.
  induction s as [|d s IH]; simpl; [discriminate|].
  destruct (isTrimmed d) eqn:Hd; [exact IH|]. intros [= <- <-]. exact Hd.
Qed.

Lemma trimStart_fixed c s : isTrimmed c = false -> trimStart (c :: s) = c :: s.
Proof. intros Hc. simpl. rewrite Hc. reflexivity. Qed.

Lemma trimStart_idemp s : trimStart (trimStart s) = trimStart s.
Proof.
  destruct (trimStart s) as [|c s'] eqn:Hs; [reflexivity|].
  apply trimStart_fixed. eapply trimStart_head; eauto.
Qed.

Lemma trimStart_app_keep s b : trimStart s <> [] -> trimStart (s ++ b) = trimStart s ++ b.
Proof.
  induction s as [|c s IH]; simpl; [congruence|].
  destruct (isTrimmed c); [exact IH | reflexivity].
Qed.

(** [trimStart] strips a prefix of white space. *)
Lemma trimStart_prefix s :
  exists a, s = a ++ trimStart s /\ Forall (fun c => isTrimmed c = true) a.
Proof.
  induction s as [|c s (a & Hs & Ha)]; simpl; [exists []; auto|].
  destruct (isTrimmed c) eqn:Hc.
  - exists (c :: a). simpl. rewrite <- Hs. auto.
  - exists []. auto.
Qed.

Lemma trimEnd_app_trimmed s b :
  Forall (fun c => isTrimmed c = true) b -> trimEnd (s ++ b) = trimEnd s.
Proof.
  intros Hb. unfold trimEnd. rewrite rev_app_distr, trimStart_app_trimmed; [reflexivity|].
  apply Forall_rev, Hb.
Qed.

Lemma trimEnd_nil_iff s : trimEnd s = [] <-> Forall (fun c => isTrimmed c = true) s.
Proof.
  unfold trimEnd. split.
  - intros Hr. apply (f_equal (@rev N)) in Hr. rewrite rev_involutive in Hr. simpl in Hr.
    apply trimStart_nil_iff, Forall_rev in Hr. rewrite rev_involutive in Hr. exact Hr.
  - intros Hall. apply Forall_rev, trimStart_nil_iff in Hall. rewrite Hall. reflexivity.
Qed.

(** [trimEnd] strips a suffix of white space. *)
Lemma trimEnd_suffix s :
  exists b, s = trimEnd s ++ b /\ Forall (fun c => isTrimmed c = true) b.
Proof.
  unfold trimEnd. destruct (trimStart_prefix (rev s)) as (a & Hs & Ha).
  exists (rev a). split.
  - rewrite <- rev_app_distr, <- Hs, rev_involutive. reflexivity.
  - apply Forall_rev, Ha.
Qed.

Lemma trimEnd_idemp s : trimEnd (trimEnd s) = trimEnd s.
Proof. unfold trimEnd. rewrite rev_involutive, trimStart_idemp. reflexivity. Qed.

(** What [trimEnd] leaves of a string that starts with a code unit that is
    not stripped still starts with it. *)
Lemma trimEnd_keeps_head c s : isTrimmed c = false -> exists s', trimEnd (c :: s) = c :: s'.
Proof.
  intros Hc. destruct (trimEnd_suffix (c :: s)) as (b & Hs & Hb).
  destruct (trimEnd (c :: s)) as [|d s'] eqn:Ht.
  - simpl in Hs. subst b. inversion Hb; congruence.
  - injection Hs as <- _. eauto.
Qed.

Lemma trim_nil_iff s : trim s = [] <-> Forall (fun c => isTrimmed c = true) s.
Proof.
  unfold trim. rewrite trimEnd_nil_iff. split.
  - intros Hall. apply trimStart_nil_iff. destruct (trimStart s) as [|c s'] eqn:Hs; [reflexivity|].
    apply trimStart_head in Hs. inversion Hall; congruence.
  - intros Hall. apply trimStart_nil_iff in Hall. rewrite Hall. constructor.
Qed.

(** Trimming strips white space at both ends and nothing else. *)
Lemma trim_decompose s :
  exists a b, s = a ++ trim s ++ b
    /\ Forall (fun c => isTrimmed c = true) a /\ Forall (fun c => isTrimmed c = true) b.
Proof.
  destruct (trimStart_prefix s) as (a & Hs & Ha).
  destruct (trimEnd_suffix (trimStart s)) as (b & Hu & Hb).
  exists a, b. unfold trim. rewrite <- Hu, <- Hs. auto.
Qed.

Lemma trim_idemp s : trim (trim s) = trim s.
Proof.
  unfold trim. destruct (trimStart s) as [|c u] eqn:Hs; [reflexivity|].
  apply trimStart_head in Hs.
  destruct (trimEnd_keeps_head c u Hs) as [s' Hs']. rewrite Hs'.
  rewrite (trimStart_fixed _ _ Hs), <- Hs'. apply trimEnd_idemp.
Qed.

(** White space around a text does not count. *)
Lemma trim_app_trimmed a s b :
  Forall (fun c => isTrimmed c = true) a -> Forall (fun c => isTrimmed c = true) b ->
  trim (a ++ s ++ b) = trim s.
Proof.
  intros Ha Hb. unfold trim. rewrite (trimStart_app_trimmed a) by exact Ha.
  destruct (trimStart s) as [|c u] eqn:Hs.
  - apply trimStart_nil_iff in Hs.
    assert (Hall : trimStart (s ++ b) = []) by (apply trimStart_nil_iff, Forall_app; auto).
    rewrite Hall. reflexivity.
  - rewrite trimStart_app_keep by congruence. rewrite Hs. apply trimEnd_app_trimmed, Hb.
Qed.

(** A trimmed text is empty or has a code unit that is not white space. *)
Lemma trim_fixed_nil s : trim s = s -> Forall (fun c => isTrimmed c = true) s -> s = [].
Proof. intros Hfix Hall. apply trim_nil_iff in Hall. congruence. Qed.

End TrimFacts.

Section SplitFacts.

Implicit Types (s p : jsstring) (sep : N) (pieces : list jsstring).

Lemma split_nonempty sep s : split sep s <> [].
Proof.
  destruct s as [|c s]; simpl; [discriminate|].
  destruct (c =? sep)%N; [discriminate|]. destruct (split sep s); discriminate.
Qed.

Lemma split_no_sep sep s : sep ∉ s -> split sep s = [s].
Proof.
  induction s as [|c s IH]; intros Hs; simpl; [reflexivity|].
  apply not_elem_of_cons in Hs as [Hc Hs].
  destruct (N.eqb_spec c sep) as [-> | _]; [congruence|]. rewrite IH by exact Hs. reflexivity.
Qed.

Lemma split_app sep p s : sep ∉ p -> split sep (p ++ sep :: s) = p :: split sep s.
Proof.
  induction p as [|c p IH]; intros Hp; simpl.
  - rewrite N.eqb_refl. reflexivity.
  - apply not_elem_of_cons in Hp as [Hc Hp].
    destruct (N.eqb_spec c sep) as [-> | _]; [congruence|]. rewrite IH by exact Hp. reflexivity.
Qed.

(** Pieces without the separator come back from their joined text. *)
Lemma split_join sep pieces :
  pieces <> [] -> Forall (fun p => sep ∉ p) pieces -> split sep (join [sep] pieces) = pieces.
Proof.
  intros Hne Hall. induction Hall as [|p pieces Hp Hall IH]; [congruence|].
  destruct pieces as [|q pieces].
  - apply split_no_sep, Hp.
  - change (join [sep] (p :: q :: pieces)) with (p ++ sep :: join [sep] (q :: pieces)).
    rewrite split_app by exact Hp. rewrite IH by discriminate. reflexivity.
Qed.

(** The pieces of a text give the text back. *)
Lemma join_split sep s : join [sep] (split sep s) = s.
Proof.
  induction s as [|c s IH]; simpl; [reflexivity|].
  destruct (N.eqb_spec c sep) as [-> | Hc].
  - pose proof (split_nonempty sep s) as Hne.
    destruct (split sep s) as [|p ps]; [congruence|]. simpl in *. rewrite IH. reflexivity.
  - pose proof (split_nonempty sep s) as Hne.
    destruct (split sep s) as [|p ps]; [congruence|].
    destruct ps as [|q ps]; simpl in *; rewrite <- IH; reflexivity.
Qed.

(** No piece holds the separator. *)
Lemma split_pieces sep s : Forall (fun p => sep ∉ p) (split sep s).
Proof.
  induction s as [|c s IH]; simpl; [repeat constructor; apply not_elem_of_nil|].
  destruct (N.eqb_spec c sep) as [-> | Hc].
  - constructor; [apply not_elem_of_nil | exact IH].
  - destruct (split sep s) as [|p ps].
    { repeat constructor. apply not_elem_of_cons. split; [auto | apply not_elem_of_nil]. }
    inversion IH; subst. constructor; [|assumption].
    apply not_elem_of_cons. auto.
Qed.

(** One piece more than there are separators. *)
Lemma length_split sep s :
  length (split sep s) = S (length (filter (fun c => c = sep) s)).
Proof.
  induction s as [|c s IH]; simpl; [reflexivity|]. rewrite filter_cons.
  destruct (N.eqb_spec c sep) as [-> | Hc].
  - destruct (decide (sep = sep)); [|congruence]. simpl. rewrite IH. reflexivity.
  - destruct (decide (c = sep)); [congruence|].
    pose proof (split_nonempty sep s) as Hne.
    destruct (split sep s) as [|p ps]; [congruence|]. simpl in *. exact IH.
Qed.

Lemma elem_of_join_sep sep p pieces :
  pieces <> [] -> sep ∈ join [sep] (p :: pieces).
Proof.
  intros Hne. destruct pieces as [|q pieces]; [congruence|]. simpl.
  apply elem_of_app. right. left.
Qed.

Lemma elem_of_join c sep pieces :
  c ∈ join [sep] pieces -> c = sep \/ exists p, p ∈ pieces /\ c ∈ p.
Proof.
  induction pieces as [|p pieces IH]; simpl; [intros Hc; inversion Hc|].
  destruct pieces as [|q pieces].
  - intros Hc. right. exists p. split; [left | exact Hc].
  - intros Hc. apply elem_of_app in Hc as [Hc | Hc].
    + right. exists p. split; [left | exact Hc].
    + apply elem_of_cons in Hc as [-> | Hc]; [auto|].
      destruct (IH Hc) as [-> | (p' & Hin & Hp')]; [auto|].
      right. exists p'. split; [right; exact Hin | exact Hp'].
Qed.

End SplitFacts.

(** ** The table renderer *)

Section TableFacts.
Import TestScreen.

Implicit Types (cell line : jsstring) (row : list jsstring).

Lemma elem_of_trim c s : c ∈ trim s -> c ∈ s.
Proof.
  intros Hc. destruct (trim_decompose s) as (a & b & Hs & _). rewrite Hs.
  apply elem_of_app. right. apply elem_of_app. left. exact Hc.
Qed.

(** The cells of a line. *)
Lemma cells_shown line :
  LF ∉ line -> Forall cellShown (trim <$> split COMMA line).
Proof.
  intros Hline. apply Forall_fmap, Forall_forall. intros cell Hcell.
  pose proof (split_pieces COMMA line) as Hpieces. rewrite Forall_forall in Hpieces.
  assert (Hsub : forall c, c ∈ cell -> c ∈ line).
  { intros c Hc. rewrite <- (join_split COMMA line).
    clear Hpieces. induction (split COMMA line) as [|p ps IH]; [inversion Hcell|].
    destruct ps as [|q ps].
    - apply list_elem_of_singleton in Hcell as ->. exact Hc.
    - change (join [COMMA] (p :: q :: ps)) with (p ++ COMMA :: join [COMMA] (q :: ps)).
      apply elem_of_app. apply elem_of_cons in Hcell as [-> | Hcell]; [auto|].
      right. right. apply IH, Hcell. }
  repeat split; simpl.
  - intros Hc. apply elem_of_trim in Hc. exact (Hpieces cell Hcell Hc).
  - intros Hc. apply elem_of_trim, Hsub in Hc. auto.
  - apply trim_idemp.
Qed.

(** A line that is not blank gives a row that is not a lone empty cell. *)
Lemma cells_not_blank line :
  trim line <> [] -> trim <$> split COMMA line <> [[]].
Proof.
  intros Hline Hrow.
  assert (Hlen : length (split COMMA line) = 1).
  { apply (f_equal length) in Hrow. rewrite length_fmap in Hrow. exact Hrow. }
  rewrite length_split in Hlen.
  assert (Hno : COMMA ∉ line).
  { intros Hin. assert (Hf : COMMA ∈ filter (fun c => c = COMMA) line)
      by (apply list_elem_of_filter; auto).
    destruct (filter (fun c => c = COMMA) line); [inversion Hf | simpl in Hlen; lia]. }
  rewrite (split_no_sep _ _ Hno) in Hrow. simpl in Hrow. congruence.
Qed.

(** The line of a row gives the row back. *)
Lemma decode_row row :
  row <> [] -> Forall cellShown row -> trim <$> split COMMA (join [COMMA] row) = row.
Proof.
  intros Hne Hcells. rewrite split_join.
  - induction Hcells as [|cell row (_ & _ & Hcell) _ IH]; [reflexivity|].
    rewrite fmap_cons, Hcell. f_equal.
    destruct row; [reflexivity | apply IH; discriminate].
  - exact Hne.
  - eapply Forall_impl; [exact Hcells|]. intros cell (Hcomma & _). exact Hcomma.
Qed.

Lemma row_line_not_blank row : rowShown row -> trim (join [COMMA] row) <> [].
Proof.
  intros (Hne & Hlone & Hcells) Hblank. apply trim_nil_iff in Hblank.
  destruct row as [|cell row]; [congruence|].
  destruct row as [|cell' row].
  - simpl in Hblank. apply Forall_cons in Hcells as [(_ & _ & Hcell) _].
    apply (trim_fixed_nil _ Hcell) in Hblank. congruence.
  - rewrite Forall_forall in Hblank.
    pose proof (Hblank COMMA (elem_of_join_sep COMMA cell (cell' :: row) ltac:(discriminate))).
    discriminate.
Qed.

Lemma row_line_no_LF row : Forall cellShown row -> LF ∉ join [COMMA] row.
Proof.
  intros Hcells Hin. apply elem_of_join in Hin as [Heq | (cell & Hcell & Hin)]; [discriminate|].
  rewrite Forall_forall in Hcells. destruct (Hcells cell Hcell) as (_ & HLF & _). auto.
Qed.

(** X4: the table renderer reads back a table written in the format the
    generation prompt asks for. For every header row and at least one body
    row, each with at least one cell and none a lone empty cell, whose
    cells hold no comma, no line feed and no white space at their ends, the
    text with one line per row and commas between the cells is rendered as
    exactly that table. *)
Theorem TableRenderer_csv_round_trip (title : jsstring) (headers : list jsstring)
    (bodyRows : list (list jsstring)) :
  bodyRows <> [] ->
  Forall rowShown (headers :: bodyRows) ->
  TableRenderer (csv (headers :: bodyRows)) title = Table title headers bodyRows.
Proof.
  intros Hbody Hrows. unfold TableRenderer, csv.
  assert (Hcells : Forall (Forall cellShown) (headers :: bodyRows)).
  { eapply Forall_impl; [exact Hrows|]. intros row (_ & _ & Hrow). exact Hrow. }
  rewrite split_join.
  2: discriminate.
  2: { apply Forall_fmap. eapply Forall_impl; [exact Hcells|]. intros row. apply row_line_no_LF. }
  assert (Hfilter : filter (fun line => trim line <> []) (join [COMMA] <$> headers :: bodyRows)
                    = join [COMMA] <$> headers :: bodyRows).
  { clear Hbody Hcells. induction Hrows as [|row rows Hrow _ IH]; [reflexivity|].
    rewrite fmap_cons, filter_cons.
    destruct (decide (trim (join [COMMA] row) <> [])) as [_ | Hblank].
    - rewrite IH. reflexivity.
    - exfalso. apply Hblank, row_line_not_blank, Hrow. }
  rewrite Hfilter.
  destruct (decide (length (join [COMMA] <$> headers :: bodyRows) < 2)) as [Hshort | _].
  { rewrite length_fmap in Hshort. destruct bodyRows; [congruence | simpl in Hshort; lia]. }
  simpl. apply Forall_cons in Hrows as [(Hne & _ & Hheaders) Hrows].
  rewrite decode_row by assumption. f_equal. rewrite drop_0.
  clear Hbody Hcells Hfilter. induction Hrows as [|row rows (Hrow & _ & Hcs) _ IH]; [reflexivity|].
  rewrite !fmap_cons, decode_row by assumption. f_equal. exact IH.
Qed.

(** X5: whatever the data, a table that is rendered has the title it was
    given and one row per line that is not blank, the first of them as the
    header row, so at least one body row; every cell is free of commas,
    line feeds and white space at its ends, and a row has one cell more
    than its line has commas, whatever the number of headers. *)
Theorem TableRenderer_cells (data title : jsstring) (title' : jsstring)
    (headers : list jsstring) (bodyRows : list (list jsstring)) :
  TableRenderer data title = Table title' headers bodyRows ->
  let lines := filter (fun line => trim line <> []) (split LF data) in
  title' = title
  /\ bodyRows <> []
  /\ Forall rowShown (headers :: bodyRows)
  /\ Forall2 (fun line row => length row = S (length (filter (fun c => c = COMMA) line)))
       lines (headers :: bodyRows).
Proof.
  intros Hrender lines. unfold TableRenderer in Hrender. cbv zeta in Hrender.
  change (filter (fun line => trim line <> []) (split LF data)) with lines in Hrender.
  destruct (decide (length lines < 2)) as [|Hlong]; [discriminate|].
  assert (Hlines : Forall (fun line => (LF ∉ line) /\ trim line <> []) lines).
  { apply Forall_forall. intros line Hline. apply list_elem_of_filter in Hline as [Hblank Hline].
    pose proof (split_pieces LF data) as Hpieces. rewrite Forall_forall in Hpieces. auto. }
  destruct lines as [|row0 rows] eqn:Hl; [simpl in Hlong; lia|].
  simpl in Hrender. injection Hrender as <- <- <-. rewrite drop_0.
  split; [reflexivity|]. split; [destruct rows; [simpl in Hlong; lia | discriminate]|].
  assert (Hrow : forall line, (LF ∉ line) /\ trim line <> [] ->
            rowShown (trim <$> split COMMA line)
            /\ length (trim <$> split COMMA line)
               = S (length (filter (fun c => c = COMMA) line))).
  { intros line (HLF & Hblank). split.
    - split; [|split; [apply cells_not_blank, Hblank | apply cells_shown, HLF]].
      pose proof (split_nonempty COMMA line). destruct (split COMMA line); [congruence | discriminate].
    - rewrite length_fmap. apply length_split. }
  clear Hl Hlong. split.
  - change (Forall rowShown
              ((fun line => trim <$> split COMMA line) <$> row0 :: rows)).
    apply Forall_fmap. eapply Forall_impl; [exact Hlines|]. intros line Hline. apply Hrow, Hline.
  - change (Forall2 (fun line row => length row = S (length (filter (fun c => c = COMMA) line)))
              (row0 :: rows) ((fun line => trim <$> split COMMA line) <$> row0 :: rows)).
    apply Forall2_fmap_r, Forall_Forall2_diag. eapply Forall_impl; [exact Hlines|].
    intros line Hline. apply Hrow, Hline.
Qed.

End TableFacts.

(** ** The test screen, event by event *)

Section TestScreenRuns.
Context `{Platform}.
Import TestScreen.

Context (testContent : IComprehensiveTest) (videoUrl : jsstring) (testType : TestType).

Implicit Types (t : State) (ev : Event) (evs : list Event).

Local Abbreviation handle := (TestScreen.handle testContent testType).
Local Abbreviation play := (TestScreen.play testContent testType).

Lemma play_cons ev evs t :
  play (ev :: evs) t =
    ((play evs (handle ev t).1).1, option_list (handle ev t).2 ++ (play evs (handle ev t).1).2).
Proof.
  simpl. destruct (TestScreen.handle testContent testType ev t) as [t1 done1]. simpl.
  destruct (TestScreen.play testContent testType evs t1) as [t2 done2]. reflexivity.
Qed.

(** A property of states kept by every event is kept by every run. *)
Lemma play_invariant (Inv : State -> Prop) :
  (forall ev t, Inv t -> Inv (handle ev t).1) ->
  forall evs t, Inv t -> Inv (play evs t).1.
Proof.
  intros Hstep evs. induction evs as [|ev evs IH]; intros t Ht; [exact Ht|].
  rewrite play_cons. simpl. apply IH, Hstep, Ht.
Qed.

(** What one event does to the section on screen. *)
Lemma handle_section ev t :
  currentSection (handle ev t).1 =
    if decide (testType = full /\ ev = NextSectionClick) then
      match currentSection t with
      | sec_listening => sec_reading
      | sec_reading => sec_writing
      | sec_writing | sec_speaking => sec_speaking
      end
    else currentSection t.
Proof.
  destruct (decide (ev = NextSectionClick)) as [-> | Hev].
  - simpl. unfold nextSection.
    destruct (decide (testType = full /\ NextSectionClick = NextSectionClick)) as [[-> _] | Hno].
    + destruct (decide (full <> full)); [congruence|]. destruct t as [[] ? ? ? ? ?]; reflexivity.
    + destruct (decide (testType <> full)) as [|Hfull]; [reflexivity|].
      exfalso. apply Hno. split; [|reflexivity].
      destruct (decide (testType = full)) as [|Hother]; [assumption | contradiction].
  - destruct (decide (testType = full /\ ev = NextSectionClick)) as [[_ Hyes] | _]; [congruence|].
    destruct ev; simpl; try reflexivity; try congruence.
    + unfold toggleRecording, stopListening, startListening.
      destruct (isListening t), (recognition t); reflexivity.
    + unfold handleNextSpeakingQuestion.
      destruct (currentSpeakingQuestion testContent t); [|reflexivity].
      destruct (isLastSpeakingQuestion testContent t), (isListening t); simpl;
        unfold stopListening; destruct (recognition t); reflexivity.
Qed.

(** X6: the section on screen only moves forward. In a full test it is
    the section as many steps after the first as [Next Section] was
    pressed, the speaking section being the last; in a test of one section
    it never changes. *)
Theorem sections_only_advance (evs : list Event) (t : State) :
  let t' := (play evs t).1 in
  let pressed := length (filter (fun ev => ev = NextSectionClick) evs) in
  (testType = full ->
     indexOfSection (currentSection t') = (indexOfSection (currentSection t) + pressed) `min` 3)
  /\ (testType <> full -> currentSection t' = currentSection t).
Proof.
  cbv zeta. revert t. induction evs as [|ev evs IH]; intros t.
  - simpl. split; [|reflexivity]. intros _. destruct (currentSection t); reflexivity.
  - rewrite filter_cons, play_cons. simpl fst.
    destruct (IH (handle ev t).1) as [IHfull IHone]. rewrite handle_section in *.
    split.
    + intros Hfull. rewrite (IHfull Hfull).
      destruct (decide (ev = NextSectionClick)) as [-> | Hev].
      * destruct (decide (testType = full /\ NextSectionClick = NextSectionClick)) as [_ | Hno];
          [|tauto]. simpl. destruct (currentSection t); simpl; lia.
      * destruct (decide (testType = full /\ ev = NextSectionClick)) as [[_ Hyes] | _];
          [congruence | reflexivity].
    + intros Hone. rewrite (IHone Hone).
      destruct (decide (testType = full /\ ev = NextSectionClick)) as [[Hyes _] | _];
        [congruence | reflexivity].
Qed.

(** The value typed into an input by an event, if it goes to that input. *)
Lemma handle_objective ev t section index :
  let field a :=
    match section with
    | obj_listening => ans_listening a
    | obj_reading => ans_reading a
    end in
  field (answers (handle ev t).1) !! index =
    match ev with
    | AnswerChange section' index' value =>
        if decide (section' = section /\ index' = index) then Some value
        else field (answers t) !! index
    | _ => field (answers t) !! index
    end.
Proof.
  destruct ev as [section' index' value | | | | | |]; simpl; try reflexivity.
  - destruct (decide (section' = section /\ index' = index)) as [[-> ->] | Hno].
    + destruct section; simpl; apply lookup_insert_eq.
    + destruct section', section; simpl; try reflexivity;
        (destruct (decide (index' = index)) as [-> | Hne]; [tauto|]);
        rewrite lookup_insert_ne by exact Hne; reflexivity.
  - unfold nextSection. destruct (decide (testType <> full)); [reflexivity|].
    destruct (decide _); [|reflexivity]. destruct (sections !! _); reflexivity.
  - unfold toggleRecording, stopListening, startListening.
    destruct (isListening t), (recognition t); reflexivity.
  - unfold handleNextSpeakingQuestion.
    destruct (currentSpeakingQuestion testContent t); [|reflexivity].
    destruct (isLastSpeakingQuestion testContent t), (isListening t); simpl;
      unfold stopListening; destruct (recognition t); destruct section; reflexivity.
Qed.

Lemma handle_writing ev t task :
  let field w :=
    match task with
    | task1 => wa_task1 w
    | task2 => wa_task2 w
    end in
  field (ans_writing (answers (handle ev t).1)) =
    match ev with
    | WritingChange task' value =>
        if decide (task' = task) then value else field (ans_writing (answers t))
    | _ => field (ans_writing (answers t))
    end.
Proof.
  destruct ev as [section index value | task' value | | | | |]; simpl; try reflexivity.
  - destruct section, task; reflexivity.
  - destruct (decide (task' = task)) as [-> | Hno].
    + destruct task; reflexivity.
    + destruct task', task; simpl; congruence.
  - unfold nextSection. destruct (decide (testType <> full)); [reflexivity|].
    destruct (decide _); [|reflexivity]. destruct (sections !! _); reflexivity.
  - unfold toggleRecording, stopListening, startListening.
    destruct (isListening t), (recognition t); reflexivity.
  - unfold handleNextSpeakingQuestion.
    destruct (currentSpeakingQuestion testContent t); [|reflexivity].
    destruct (isLastSpeakingQuestion testContent t), (isListening t); simpl;
      unfold stopListening; destruct (recognition t); destruct task; reflexivity.
Qed.

Lemma last_omap_cons {A B} (f : A -> option B) (x : A) (l : list A) :
  last (omap f (x :: l)) =
    match last (omap f l) with
    | Some y => Some y
    | None => f x
    end.
Proof.
  change (omap f (x :: l))
    with (match f x with Some y => y :: omap f l | None => omap f l end).
  destruct (f x) as [y|]; [|destruct (last (omap f l)); reflexivity].
  rewrite last_cons. destruct (last (omap f l)); reflexivity.
Qed.

(** A cell of the state that an event either sets or leaves alone holds
    what the last event that set it wrote. *)
Lemma play_last_write {B V} (cell : State -> V) (write : Event -> option B) (wrap : B -> V) :
  (forall ev t, cell (handle ev t).1 =
                  match write ev with
                  | Some value => wrap value
                  | None => cell t
                  end) ->
  forall evs t,
    cell (play evs t).1 =
      match last (omap write evs) with
      | Some value => wrap value
      | None => cell t
      end.
Proof.
  intros Hstep evs. induction evs as [|ev evs IH]; intros t; [reflexivity|].
  rewrite play_cons, last_omap_cons. simpl fst. rewrite IH, Hstep.
  destruct (last (omap write evs)); reflexivity.
Qed.

(** The entry of an objective question after a run of events. *)
Lemma play_objective evs t section index :
  match section with
  | obj_listening => ans_listening (answers (play evs t).1)
  | obj_reading => ans_reading (answers (play evs t).1)
  end !! index =
    match last (omap (fun ev =>
                        match ev with
                        | AnswerChange section' index' value =>
                            if decide (section' = section /\ index' = index) then Some value
                            else None
                        | _ => None
                        end) evs) with
    | Some value => Some value
    | None =>
        match section with
        | obj_listening => ans_listening (answers t)
        | obj_reading => ans_reading (answers t)
        end !! index
    end.
Proof.
  apply (play_last_write
           (fun t => match section with
                     | obj_listening => ans_listening (answers t)
                     | obj_reading => ans_reading (answers t)
                     end !! index) _ Some).
  intros ev t0. pose proof (handle_objective ev t0 section index) as Hstep.
  cbv zeta in Hstep. rewrite Hstep.
  destruct ev as [section' index' value | | | | | |]; try reflexivity.
  destruct (decide (section' = section /\ index' = index)); reflexivity.
Qed.

(** X7: the answers object holds, for every input, the value typed into it
    last. After any run of events, the entry of a listening or reading
    question is the value of the last change of its input, or what it was
    if the input was not touched, and each essay is the value of the last
    change of its text area; typing into one input leaves the others
    alone. *)
Theorem answers_hold_last_input (evs : list Event) (t : State) (section : ObjectiveSection)
    (index : nat) (task : WritingTask) :
  let t' := (play evs t).1 in
  let field a :=
    match section with
    | obj_listening => ans_listening a
    | obj_reading => ans_reading a
    end in
  let essay w :=
    match task with
    | task1 => wa_task1 w
    | task2 => wa_task2 w
    end in
  let typed ev :=
    match ev with
    | AnswerChange section' index' value =>
        if decide (section' = section /\ index' = index) then Some value else None
    | _ => None
    end in
  let written ev :=
    match ev with
    | WritingChange task' value => if decide (task' = task) then Some value else None
    | _ => None
    end in
  field (answers t') !! index =
    match last (omap typed evs) with
    | Some value => Some value
    | None => field (answers t) !! index
    end
  /\ essay (ans_writing (answers t')) =
       match last (omap written evs) with
       | Some value => value
       | None => essay (ans_writing (answers t))
       end.
Proof.
  intros t' field essay typed written. subst t'. split.
  - apply (play_last_write (fun t => field (answers t) !! index) typed Some).
    intros ev t0. subst field typed. simpl. rewrite (handle_objective ev t0 section index).
    destruct ev as [section' index' value | | | | | |]; try reflexivity.
    destruct (decide (section' = section /\ index' = index)); reflexivity.
  - apply (play_last_write (fun t => essay (ans_writing (answers t))) written id).
    intros ev t0. subst essay written. simpl. rewrite (handle_writing ev t0 task).
    destruct ev as [| task' value | | | | |]; try reflexivity.
    destruct (decide (task' = task)); reflexivity.
Qed.

End TestScreenRuns.

(** ** The test screen: what can and cannot happen *)

Section TestScreenReach.
Context `{Platform}.
Import TestScreen.

Context (testContent : IComprehensiveTest) (videoUrl : jsstring) (testType : TestType).

Implicit Types (t : State) (ev : Event) (evs : list Event).

Local Abbreviation handle := (TestScreen.handle testContent testType).
Local Abbreviation play := (TestScreen.play testContent testType).
Local Abbreviation render := (TestScreen.render testContent videoUrl testType).
Local Abbreviation renderContent := (TestScreen.renderContent testContent videoUrl).
Local Abbreviation enabled := (TestScreen.enabled testContent videoUrl testType).
Local Abbreviation allowed := (TestScreen.allowed testContent videoUrl testType).
Local Abbreviation questions := (ct_speaking testContent).

(** The render throws in the writing section of a broken test content, and
    nowhere else. *)
Lemma renderContent_None t :
  renderContent t = None <-> currentSection t = sec_writing /\ writingBroken testContent.
Proof.
  unfold TestScreen.renderContent, writingBroken, renderWriting.
  destruct (currentSection t).
  - destruct (decide _); split; try discriminate; intros [[=] _].
  - destruct (decide _); split; try discriminate; intros [[=] _].
  - destruct (decide (orElse _ _ <> [])) as [Hsome | Hnone].
    2: { split; [discriminate | tauto]. }
    destruct (chartData (ws_task1 (ct_writing testContent))) as [chart|]; simpl.
    + destruct (decide (Some (cd_type chart) = Some table)); simpl.
      * split; [discriminate | intros (_ & _ & [=] & _)].
      * destruct (chartImage _) as [[|c image]|]; simpl;
          (split; [discriminate | intros (_ & _ & [=] & _)]).
    + destruct (decide (None = Some table)) as [[=]|_].
      destruct (chartImage _) as [[|c image]|]; simpl.
      * split; [discriminate | intros (_ & _ & _ & c & image & [=])].
      * split; [eauto 10 | reflexivity].
      * split; [discriminate | intros (_ & _ & _ & c & image & [=])].
  - destruct (decide _); split; try discriminate; intros [[=] _].
Qed.

Lemma render_None t :
  render t = None <-> currentSection t = sec_writing /\ writingBroken testContent.
Proof.
  rewrite <- renderContent_None. unfold TestScreen.render.
  destruct (TestScreen.renderContent testContent videoUrl t); simpl; split; congruence.
Qed.

(** What it takes for a click on the section button to reach its handler. *)
Lemma enabled_NextSectionClick t :
  enabled NextSectionClick t = true <->
  currentSection t <> sec_speaking /\ render t <> None.
Proof.
  unfold TestScreen.enabled, TestScreen.render.
  destruct (TestScreen.renderContent testContent videoUrl t) as [section|]; simpl.
  - destruct (decide (currentSection t <> sec_speaking)) as [Hyes | Hno]; simpl.
    + split; [split; [auto | discriminate] | reflexivity].
    + split; [discriminate | tauto].
  - split; [discriminate | tauto].
Qed.

(** The writing section shows the writing view, if it shows at all. *)
Lemma renderWriting_Some t view :
  renderWriting testContent t = Some view ->
  exists visual,
    view = WritingView visual
             (t1_prompt (ws_task1 (ct_writing testContent))) (wa_task1 (ans_writing (answers t)))
             (ws_task2 (ct_writing testContent)) (wa_task2 (ans_writing (answers t))).
Proof.
  unfold renderWriting. intros Hr. apply bind_Some in Hr as (visual & _ & [= <-]). eauto.
Qed.

(** The speaking view is what the speaking section shows when there is a
    current question. *)
Lemma renderContent_SpeakingView t heading question cueCard value recording advance :
  renderContent t = Some (SpeakingView heading question cueCard value recording advance) ->
  currentSection t = sec_speaking
  /\ is_Some (currentSpeakingQuestion testContent t)
  /\ recording = isListening t.
Proof.
  unfold TestScreen.renderContent. intros Hr.
  destruct (currentSection t); repeat case_decide; simplify_eq/=.
  - apply renderWriting_Some in Hr as [visual [=]].
  - unfold renderSpeaking in Hr.
    destruct (currentSpeakingQuestion testContent t) eqn:Hq; simplify_eq/=. eauto.
Qed.

Lemma renderContent_speaking t q :
  currentSection t = sec_speaking ->
  currentSpeakingQuestion testContent t = Some q ->
  exists heading advance,
    renderContent t =
      Some (SpeakingView heading (q_question q) (q_cueCard q) (transcript t)
              (isListening t) advance).
Proof.
  intros Hsection Hq. unfold TestScreen.renderContent, renderSpeaking. rewrite Hsection, Hq.
  destruct (decide (0 < length questions)) as [|Hnone]; [eauto|].
  apply lookup_lt_Some in Hq. lia.
Qed.

(** What it takes for a click on the advance button of the speaking
    section to reach its handler. *)
Lemma enabled_NextSpeakingQuestionClick t :
  enabled NextSpeakingQuestionClick t = true <->
  currentSection t = sec_speaking /\ is_Some (currentSpeakingQuestion testContent t)
  /\ isListening t = false.
Proof.
  unfold TestScreen.enabled, TestScreen.render. split.
  - destruct (TestScreen.renderContent testContent videoUrl t) as [section|] eqn:Hr;
      [|discriminate].
    simpl. destruct section; try discriminate.
    apply renderContent_SpeakingView in Hr as (Hsection & Hq & ->).
    rewrite negb_true_iff. auto.
  - intros (Hsection & [q Hq] & Hquiet).
    destruct (renderContent_speaking t q Hsection Hq) as (heading & advance & ->).
    simpl. rewrite Hquiet. reflexivity.
Qed.

(** What the advance button does. *)
Lemma handleNextSpeakingQuestion_Some t q :
  currentSpeakingQuestion testContent t = Some q ->
  isListening t = false ->
  let entries := ans_speaking (answers t) ++ [spoken q (transcript t)] in
  handleNextSpeakingQuestion testContent t =
    if isLastSpeakingQuestion testContent t then
      (setAnswers (withSpeaking entries) t, Some (withSpeaking entries (answers t)))
    else
      (setTranscript [] (setCurrentSpeakingQuestionIndex (fun prev => prev + 1)
         (setAnswers (withSpeaking entries) t)), None).
Proof.
  intros Hq Hquiet. unfold handleNextSpeakingQuestion. rewrite Hq, Hquiet. reflexivity.
Qed.

Lemma isLastSpeakingQuestion_true t :
  isLastSpeakingQuestion testContent t = true <->
  S (currentSpeakingQuestionIndex t) = length questions.
Proof. unfold isLastSpeakingQuestion. rewrite Z.eqb_eq. lia. Qed.

Lemma isLastSpeakingQuestion_false t :
  isLastSpeakingQuestion testContent t = false <->
  S (currentSpeakingQuestionIndex t) <> length questions.
Proof. unfold isLastSpeakingQuestion. rewrite Z.eqb_neq. lia. Qed.

(** Only the advance button moves the question pointer, one question at a
    time and never past the last. *)
Lemma handle_index ev t :
  currentSpeakingQuestionIndex (handle ev t).1 = currentSpeakingQuestionIndex t
  \/ (ev = NextSpeakingQuestionClick
      /\ currentSpeakingQuestionIndex (handle ev t).1 = S (currentSpeakingQuestionIndex t)
      /\ S (currentSpeakingQuestionIndex (handle ev t).1) <= length questions).
Proof.
  destruct ev; simpl; auto.
  - left. unfold nextSection. destruct (decide _); [reflexivity|].
    destruct (decide _); [|reflexivity]. destruct (sections !! _); reflexivity.
  - left. unfold toggleRecording, stopListening, startListening.
    destruct (isListening t), (recognition t); reflexivity.
  - unfold handleNextSpeakingQuestion, currentSpeakingQuestion.
    destruct (questions !! currentSpeakingQuestionIndex t) as [q|] eqn:Hq; [|auto].
    apply lookup_lt_Some in Hq.
    destruct (isLastSpeakingQuestion testContent t) eqn:Hlast.
    + left. destruct (isListening t); [unfold stopListening; destruct (recognition t)|];
        reflexivity.
    + right. apply isLastSpeakingQuestion_false in Hlast.
      assert (Hidx : forall t0, currentSpeakingQuestionIndex t0 = currentSpeakingQuestionIndex t ->
                currentSpeakingQuestionIndex
                  (setTranscript [] (setCurrentSpeakingQuestionIndex (fun prev => prev + 1)
                     (setAnswers (withSpeaking (ans_speaking (answers t)
                        ++ [{| sa_question := q_question q; sa_answer := transcript t |}])) t0)))
                = S (currentSpeakingQuestionIndex t)).
      { intros t0 Ht0. simpl. rewrite Ht0. lia. }
      split; [reflexivity|].
      destruct (isListening t); [unfold stopListening; destruct (recognition t)|];
        simpl; rewrite ?Hidx; split; lia.
Qed.

(** X8: the speaking section never runs out of questions. When the test
    has speaking questions, after any run of events from the first render
    the question pointer is within the list, so there is a current
    question, its number in the heading is between 1 and the number of
    questions, and the speaking section shows it, never the loading
    paragraph. *)
Theorem speaking_question_in_range (evs : list Event) (speechSupported : bool) :
  questions <> [] ->
  let t' := (play evs (initial testType speechSupported)).1 in
  currentSpeakingQuestionIndex t' < length questions
  /\ (exists q, currentSpeakingQuestion testContent t' = Some q
        /\ (currentSection t' = sec_speaking ->
            exists heading advance,
              renderContent t' =
                Some (SpeakingView heading (q_question q) (q_cueCard q) (transcript t')
                        (isListening t') advance))).
Proof.
  intros Hsome t'.
  assert (Hpos : 0 < length questions) by (destruct questions; [congruence | simpl; lia]).
  assert (Hidx : currentSpeakingQuestionIndex t' < length questions).
  { subst t'. apply (play_invariant testContent testType
                       (fun t => currentSpeakingQuestionIndex t < length questions)).
    - intros ev t Ht. destruct (handle_index ev t) as [-> | (_ & _ & Hle)]; lia.
    - simpl. exact Hpos. }
  split; [exact Hidx|].
  destruct (lookup_lt_is_Some_2 questions (currentSpeakingQuestionIndex t') Hidx) as [q Hq].
  exists q. split; [exact Hq|]. intros Hsection.
  unfold TestScreen.renderContent, renderSpeaking. rewrite Hsection.
  destruct (decide (0 < length questions)); [|lia].
  unfold currentSpeakingQuestion in *. rewrite Hq. eauto.
Qed.


(** What holds of the speaking entries until the test is completed: there
    is one for each question before the current one, in order; and a
    speaking test stays in its section. *)
Local Abbreviation Recorded t :=
  (sa_question <$> ans_speaking (answers t)
     = q_question <$> take (currentSpeakingQuestionIndex t) questions
   /\ (testType = speaking -> currentSection t = sec_speaking)).

Lemma handle_speaking_entries ev t :
  ev <> NextSpeakingQuestionClick ->
  ans_speaking (answers (handle ev t).1) = ans_speaking (answers t).
Proof.
  intros Hev. destruct ev as [section index value | task value | | | | |]; simpl;
    try reflexivity; try congruence.
  - destruct section; reflexivity.
  - unfold nextSection. destruct (decide _); [reflexivity|].
    destruct (decide _); [|reflexivity]. destruct (sections !! _); reflexivity.
  - unfold toggleRecording, stopListening, startListening.
    destruct (isListening t), (recognition t); reflexivity.
Qed.

Lemma Recorded_step ev t :
  Recorded t -> enabled ev t = true -> (handle ev t).2 = None -> Recorded (handle ev t).1.
Proof.
  intros [Hentries Hstay] Hen Hnone. split.
  - destruct (decide (ev = NextSpeakingQuestionClick)) as [-> | Hev].
    + apply enabled_NextSpeakingQuestionClick in Hen as (_ & [q Hq] & Hquiet).
      simpl in *. rewrite (handleNextSpeakingQuestion_Some t q Hq Hquiet) in *.
      destruct (isLastSpeakingQuestion testContent t); [discriminate|]. simpl.
      rewrite fmap_app, Hentries, Nat.add_1_r. unfold currentSpeakingQuestion in Hq.
      rewrite (take_S_r _ _ _ Hq), fmap_app. reflexivity.
    + rewrite (handle_speaking_entries ev t Hev).
      destruct (handle_index ev t) as [-> | (Hnext & _)]; [exact Hentries | congruence].
  - intros Hspeaking. rewrite handle_section.
    destruct (decide (testType = full /\ ev = NextSectionClick)) as [[Hfull _] | _];
      [congruence | auto].
Qed.

Lemma Recorded_completion ev t answers :
  testType = speaking \/ testType = full ->
  Recorded t -> enabled ev t = true -> (handle ev t).2 = Some answers ->
  sa_question <$> ans_speaking answers = q_question <$> questions.
Proof.
  intros Htype [Hentries Hstay] Hen Hdone.
  destruct ev as [section index value | task value | | | | |]; simpl in Hdone;
    try discriminate.
  - exfalso. apply enabled_NextSectionClick in Hen as [Hsection _].
    unfold nextSection in Hdone.
    destruct (decide (testType <> full)) as [Hone | _].
    + destruct Htype as [Hspeaking | Hfull]; [auto | congruence].
    + destruct (decide _); [|discriminate]. destruct (sections !! _); discriminate.
  - apply enabled_NextSpeakingQuestionClick in Hen as (_ & [q Hq] & Hquiet).
    rewrite (handleNextSpeakingQuestion_Some t q Hq Hquiet) in Hdone.
    destruct (isLastSpeakingQuestion testContent t) eqn:Hlast; [|discriminate].
    apply isLastSpeakingQuestion_true in Hlast. injection Hdone as <-. simpl.
    rewrite fmap_app, Hentries. unfold currentSpeakingQuestion in Hq.
    rewrite <- (take_ge questions (S (currentSpeakingQuestionIndex t))) at 2 by lia.
    rewrite (take_S_r _ _ _ Hq), fmap_app. reflexivity.
Qed.

Lemma Recorded_first_completion evs : forall t answers,
  testType = speaking \/ testType = full ->
  Recorded t -> allowed evs t = true -> head (play evs t).2 = Some answers ->
  sa_question <$> ans_speaking answers = q_question <$> questions.
Proof.
  induction evs as [|ev evs IH]; intros t answers Htype Hrec Hallowed Hhead; [discriminate|].
  simpl in Hallowed. apply andb_true_iff in Hallowed as [Hen Hallowed].
  rewrite play_cons in Hhead. simpl in Hhead.
  destruct (handle ev t).2 as [done|] eqn:Hdone; simpl in Hhead.
  - injection Hhead as ->. eapply Recorded_completion; eauto.
  - apply (IH (handle ev t).1 answers Htype);
      [apply Recorded_step; auto | exact Hallowed | exact Hhead].
Qed.

(** X9: however the user gets there, a speaking test or a full test is
    completed with one speaking entry per question, in the order of the
    questions. For every run of events that can happen on the screen from
    its first render, the answers handed over at the first completion carry
    the questions of the test, one entry each, in order. *)
Theorem completion_has_every_question (evs : list Event) (speechSupported : bool)
    (answers : Answers) :
  testType = speaking \/ testType = full ->
  allowed evs (initial testType speechSupported) = true ->
  head (play evs (initial testType speechSupported)).2 = Some answers ->
  sa_question <$> ans_speaking answers = q_question <$> questions
  /\ length (ans_speaking answers) = length questions.
Proof.
  intros Htype Hallowed Hhead.
  assert (Hq : sa_question <$> ans_speaking answers = q_question <$> questions).
  { eapply Recorded_first_completion; eauto. split; [reflexivity|].
    intros ->. reflexivity. }
  split; [exact Hq|]. apply (f_equal length) in Hq. rewrite !length_fmap in Hq. exact Hq.
Qed.

(** What holds on the way: a test of one section stays in it, and a full
    test gets to the speaking section only through a writing section that
    can be shown. *)
Local Abbreviation OnTrack t :=
  ((testType <> full -> currentSection t = getInitialSection testType)
   /\ (testType = full -> currentSection t = sec_speaking -> ~ writingBroken testContent)).

Lemma OnTrack_step ev t : OnTrack t -> enabled ev t = true -> OnTrack (handle ev t).1.
Proof.
  intros [Hone Hfull] Hen. rewrite handle_section. split.
  - intros Hty. destruct (decide (testType = full /\ ev = NextSectionClick)) as [[Hyes _] | _];
      [congruence | auto].
  - intros Hty. destruct (decide (testType = full /\ ev = NextSectionClick)) as [[_ ->] | _];
      [|auto].
    apply enabled_NextSectionClick in Hen as [Hsection Hrender].
    destruct (currentSection t) eqn:Hs; try discriminate; [|congruence].
    intros _ Hbroken. apply Hrender, render_None. auto.
Qed.

(** The condition under which a test can be completed at all. *)
Local Abbreviation Completable :=
  (match testType with
   | listening | reading => True
   | writing => ~ writingBroken testContent
   | speaking => questions <> []
   | full => ~ writingBroken testContent /\ questions <> []
   end).

Lemma completion_needs evs : forall t,
  OnTrack t -> allowed evs t = true -> (play evs t).2 <> [] -> Completable.
Proof.
  induction evs as [|ev evs IH]; intros t Htrack Hallowed Hdone; [simpl in Hdone; congruence|].
  simpl in Hallowed. apply andb_true_iff in Hallowed as [Hen Hallowed].
  rewrite play_cons in Hdone. simpl in Hdone.
  destruct (handle ev t).2 as [done|] eqn:Hhandle.
  2: { apply (IH (handle ev t).1); [apply OnTrack_step; auto | exact Hallowed | exact Hdone]. }
  clear IH Hdone Hallowed. destruct Htrack as [Hone Hfull].
  enough (Hcases : forall ty, testType = ty ->
            match ty with
            | listening | reading => True
            | writing => ~ writingBroken testContent
            | speaking => questions <> []
            | full => ~ writingBroken testContent /\ questions <> []
            end) by exact (Hcases testType eq_refl).
  intros ty Hty.
  destruct ev as [section index value | task value | | | | |]; simpl in Hhandle;
    try discriminate.
  - apply enabled_NextSectionClick in Hen as [Hsection Hrender].
    unfold nextSection in Hhandle.
    destruct (decide (testType <> full)) as [Hone' | _].
    2: { destruct (decide _); [|discriminate]. destruct (sections !! _); discriminate. }
    specialize (Hone Hone'). rewrite Hty in Hone.
    destruct ty; try exact I; simpl in Hone; try congruence.
    intros Hbroken. apply Hrender, render_None. auto.
  - apply enabled_NextSpeakingQuestionClick in Hen as (Hsection & [q Hq] & _).
    assert (Hsome : questions <> []).
    { unfold currentSpeakingQuestion in Hq. intros Hnil. rewrite Hnil in Hq. discriminate. }
    destruct ty; try exact I.
    + auto.
    + specialize (Hone ltac:(congruence)). rewrite Hty in Hone. simpl in Hone. congruence.
    + exact Hsome.
Qed.

(** Advancing through the speaking questions that are left completes the
    test. *)
Lemma advance_completes n : forall t,
  currentSection t = sec_speaking ->
  isListening t = false ->
  currentSpeakingQuestionIndex t + S n = length questions ->
  allowed (replicate (S n) NextSpeakingQuestionClick) t = true
  /\ (play (replicate (S n) NextSpeakingQuestionClick) t).2 <> [].
Proof.
  induction n as [|n IH]; intros t Hsection Hquiet Hleft.
  - destruct (lookup_lt_is_Some_2 questions (currentSpeakingQuestionIndex t)) as [q Hq]; [lia|].
    assert (Hen : enabled NextSpeakingQuestionClick t = true).
    { apply enabled_NextSpeakingQuestionClick. split; [auto|]. split; [|auto].
      exists q. exact Hq. }
    assert (Hlast : isLastSpeakingQuestion testContent t = true)
      by (apply isLastSpeakingQuestion_true; lia).
    change (replicate 1 NextSpeakingQuestionClick) with [NextSpeakingQuestionClick].
    rewrite play_cons. simpl. rewrite Hen.
    rewrite (handleNextSpeakingQuestion_Some t q Hq Hquiet), Hlast. simpl.
    split; [reflexivity | discriminate].
  - destruct (lookup_lt_is_Some_2 questions (currentSpeakingQuestionIndex t)) as [q Hq]; [lia|].
    assert (Hen : enabled NextSpeakingQuestionClick t = true).
    { apply enabled_NextSpeakingQuestionClick. split; [auto|]. split; [|auto].
      exists q. exact Hq. }
    assert (Hlast : isLastSpeakingQuestion testContent t = false)
      by (apply isLastSpeakingQuestion_false; lia).
    change (replicate (S (S n)) NextSpeakingQuestionClick)
      with (NextSpeakingQuestionClick :: replicate (S n) NextSpeakingQuestionClick).
    rewrite play_cons.
    change (allowed (NextSpeakingQuestionClick :: replicate (S n) NextSpeakingQuestionClick) t)
      with (enabled NextSpeakingQuestionClick t
            && allowed (replicate (S n) NextSpeakingQuestionClick)
                 (handle NextSpeakingQuestionClick t).1).
    rewrite Hen.
    change (handle NextSpeakingQuestionClick t) with (handleNextSpeakingQuestion testContent t).
    rewrite (handleNextSpeakingQuestion_Some t q Hq Hquiet), Hlast.
    match goal with |- context [allowed _ (?t1, None).1] =>
      destruct (IH t1) as [Hallowed Hdone]; [exact Hsection | exact Hquiet | simpl; lia |]
    end.
    simpl fst. simpl snd. rewrite Hallowed. split; [reflexivity | exact Hdone].
Qed.

(** The section button of a test of one section completes it. *)
Lemma finish_completes t :
  testType <> full -> currentSection t <> sec_speaking -> render t <> None ->
  allowed [NextSectionClick] t = true /\ (play [NextSectionClick] t).2 <> [].
Proof.
  intros Hty Hsection Hrender.
  assert (Hen : enabled NextSectionClick t = true) by (apply enabled_NextSectionClick; auto).
  rewrite play_cons. simpl. rewrite Hen. unfold nextSection.
  destruct (decide (testType <> full)); [|contradiction]. simpl.
  split; [reflexivity | discriminate].
Qed.

(** X10: when a test can be completed at all. Some run of events that can
    happen on the screen from its first render signals completion exactly
    when: the test is a listening or a reading test; or it is a writing test
    whose writing section can be shown; or it is a speaking test with at
    least one speaking question; or it is a full test with both. In
    particular a speaking or full test without speaking questions is a dead
    end: its last section offers no button. *)
Theorem test_can_be_completed (speechSupported : bool) :
  (exists evs,
      allowed evs (initial testType speechSupported) = true
      /\ (play evs (initial testType speechSupported)).2 <> [])
  <-> match testType with
      | listening | reading => True
      | writing => ~ writingBroken testContent
      | speaking => questions <> []
      | full => ~ writingBroken testContent /\ questions <> []
      end.
Proof.
  split.
  - intros (evs & Hallowed & Hdone).
    apply (completion_needs evs (initial testType speechSupported));
      [|exact Hallowed | exact Hdone].
    split; [reflexivity|]. intros Hfull Hsection. simpl in Hsection.
    rewrite Hfull in Hsection. discriminate.
  - set (t0 := initial testType speechSupported).
    assert (Hrender : forall t, ~ (currentSection t = sec_writing /\ writingBroken testContent) ->
                        render t <> None).
    { intros t Hok Hnone. apply render_None in Hnone. auto. }
    assert (Hspeak : forall t, questions <> [] -> currentSection t = sec_speaking ->
              isListening t = false -> currentSpeakingQuestionIndex t = 0 ->
              exists evs, allowed evs t = true /\ (play evs t).2 <> []).
    { intros t Hsome Hsection Hquiet Hzero.
      destruct (length questions) as [|n] eqn:Hn; [destruct questions; simpl in Hn; congruence|].
      exists (replicate (S n) NextSpeakingQuestionClick).
      apply advance_completes; auto. lia. }
    enough (Hcases : forall ty, testType = ty ->
              match ty with
              | listening | reading => True
              | writing => ~ writingBroken testContent
              | speaking => questions <> []
              | full => ~ writingBroken testContent /\ questions <> []
              end ->
              exists evs, allowed evs t0 = true /\ (play evs t0).2 <> [])
      by exact (Hcases testType eq_refl).
    intros ty Hty Hcond.
    assert (Hfinish : ty <> full -> ty <> speaking ->
              ~ (getInitialSection ty = sec_writing /\ writingBroken testContent) ->
              exists evs, allowed evs t0 = true /\ (play evs t0).2 <> []).
    { intros Hone Hsection Hok. exists [NextSectionClick]. apply finish_completes.
      - congruence.
      - subst t0. simpl. rewrite Hty. destruct ty; simpl; congruence.
      - apply Hrender. subst t0. simpl. rewrite Hty. exact Hok. }
    destruct ty.
    + destruct Hcond as [Hwriting Hsome].
      assert (Hstart : currentSection t0 = sec_listening) by (subst t0; simpl; rewrite Hty; reflexivity).
      set (t1 := setCurrentSection sec_reading t0).
      set (t2 := setCurrentSection sec_writing t1).
      set (t3 := setCurrentSection sec_speaking t2).
      destruct (Hspeak t3 Hsome eq_refl eq_refl eq_refl) as (evs & Hallowed & Hdone).
      exists (NextSectionClick :: NextSectionClick :: NextSectionClick :: evs).
      assert (Hstep : forall t s, currentSection t <> sec_speaking ->
                sections !! (indexOfSection (currentSection t) + 1) = Some s ->
                handle NextSectionClick t = (setCurrentSection s t, None)).
      { intros t s Hsection Hs. simpl. unfold nextSection.
        destruct (decide (testType <> full)); [congruence|].
        destruct (decide _) as [|Hlast]; [rewrite Hs; reflexivity|].
        destruct (currentSection t); simpl in Hlast; try lia. congruence. }
      assert (H0 : handle NextSectionClick t0 = (t1, None))
        by (apply Hstep; rewrite Hstart; [discriminate | reflexivity]).
      assert (H1 : handle NextSectionClick t1 = (t2, None))
        by (apply Hstep; [discriminate | reflexivity]).
      assert (H2 : handle NextSectionClick t2 = (t3, None))
        by (apply Hstep; [discriminate | reflexivity]).
      assert (E0 : enabled NextSectionClick t0 = true).
      { apply enabled_NextSectionClick. rewrite Hstart. split; [discriminate|].
        apply Hrender. rewrite Hstart. intros [[=] _]. }
      assert (E1 : enabled NextSectionClick t1 = true).
      { apply enabled_NextSectionClick. split; [discriminate|]. apply Hrender. intros [[=] _]. }
      assert (E2 : enabled NextSectionClick t2 = true).
      { apply enabled_NextSectionClick. split; [discriminate|]. apply Hrender. tauto. }
      rewrite !play_cons.
      change (allowed (NextSectionClick :: NextSectionClick :: NextSectionClick :: evs) t0)
        with (enabled NextSectionClick t0
              && (enabled NextSectionClick (handle NextSectionClick t0).1
                  && (enabled NextSectionClick
                        (handle NextSectionClick (handle NextSectionClick t0).1).1
                      && allowed evs
                           (handle NextSectionClick
                              (handle NextSectionClick (handle NextSectionClick t0).1).1).1))).
      assert (S0 : (handle NextSectionClick t0).1 = t1) by (rewrite H0; reflexivity).
      assert (S1 : (handle NextSectionClick t1).1 = t2) by (rewrite H1; reflexivity).
      assert (S2 : (handle NextSectionClick t2).1 = t3) by (rewrite H2; reflexivity).
      assert (D0 : (handle NextSectionClick t0).2 = None) by (rewrite H0; reflexivity).
      assert (D1 : (handle NextSectionClick t1).2 = None) by (rewrite H1; reflexivity).
      assert (D2 : (handle NextSectionClick t2).2 = None) by (rewrite H2; reflexivity).
      cbn [fst snd]. rewrite !S0, !S1, !S2, D0, D1, D2, E0, E1, E2, Hallowed.
      split; [reflexivity | exact Hdone].
    + apply Hfinish; [discriminate | discriminate | intros [[=] _]].
    + apply Hfinish; [discriminate | discriminate | intros [[=] _]].
    + apply Hfinish; [discriminate | discriminate | tauto].
    + apply Hspeak; subst t0; simpl; rewrite ?Hty; auto.
Qed.

End TestScreenReach.

(** ** The test screen: its controls *)

Section TestScreenControls.
Context `{Platform}.
Import TestScreen.

Context (testContent : IComprehensiveTest) (videoUrl : jsstring) (testType : TestType).

Implicit Types (t : State) (ev : Event) (evs : list Event).

Local Abbreviation handle := (TestScreen.handle testContent testType).
Local Abbreviation play := (TestScreen.play testContent testType).
Local Abbreviation render := (TestScreen.render testContent videoUrl testType).
Local Abbreviation renderContent := (TestScreen.renderContent testContent videoUrl).

Lemma handle_recognition ev t :
  recognition (handle ev t).1 = recognition t
  /\ (isListening (handle ev t).1 = true -> isListening t = true \/ recognition t = true).
Proof.
  destruct ev; simpl; auto.
  - unfold nextSection. destruct (decide _); [auto|].
    destruct (decide _); [|auto]. destruct (sections !! _); simpl; auto.
  - unfold toggleRecording, stopListening, startListening.
    destruct (isListening t) eqn:Hl, (recognition t) eqn:Hr; simpl; rewrite ?Hl, ?Hr; auto.
  - unfold handleNextSpeakingQuestion.
    destruct (currentSpeakingQuestion testContent t); [|auto].
    destruct (isLastSpeakingQuestion testContent t), (isListening t) eqn:Hl; simpl;
      unfold stopListening; destruct (recognition t) eqn:Hr; simpl; rewrite ?Hl, ?Hr; auto.
Qed.

(** X11: recording needs a recogniser. In a browser without speech
    recognition no recogniser is ever created, and then, whatever happens
    on the screen, recording never starts: the record button does nothing.
    With a recogniser, a press on the button while not recording starts the
    recording on an empty buffer, discarding what was in it, and the next
    press stops it and keeps the buffer. *)
Theorem recording_needs_a_recogniser (evs : list Event) (t : State) :
  let t' := (play evs t).1 in
  recognition t' = recognition t
  /\ (recognition t = false -> isListening t = false ->
      isListening t' = false /\ toggleRecording t' = t')
  /\ (recognition t = true -> isListening t = false ->
      isListening (toggleRecording t) = true
      /\ transcript (toggleRecording t) = []
      /\ isListening (toggleRecording (toggleRecording t)) = false
      /\ transcript (toggleRecording (toggleRecording t)) = [])
  /\ (forall speechSupported,
        recognition (initial testType speechSupported) = speechSupported
        /\ isListening (initial testType speechSupported) = false).
Proof.
  intros t'.
  assert (Hsame : recognition t' = recognition t).
  { subst t'. revert t. induction evs as [|ev evs IH]; intros t; [reflexivity|].
    rewrite play_cons. simpl fst. rewrite IH. apply handle_recognition. }
  split; [exact Hsame|]. split; [|split].
  - intros Hnone Hquiet.
    assert (Hstill : isListening t' = false).
    { subst t'. clear Hsame. revert t Hnone Hquiet.
      induction evs as [|ev evs IH]; intros t Hnone Hquiet; [exact Hquiet|].
      rewrite play_cons. simpl fst. destruct (handle_recognition ev t) as [Hrec Hlis].
      apply IH; [congruence|].
      destruct (isListening (handle ev t).1); [|reflexivity].
      destruct (Hlis eq_refl); congruence. }
    split; [exact Hstill|]. unfold toggleRecording, startListening.
    rewrite Hstill, Hsame, Hnone. reflexivity.
  - intros Hsome Hquiet. unfold toggleRecording, startListening, stopListening.
    rewrite Hquiet, Hsome. simpl. rewrite Hsome. auto.
  - intros speechSupported. auto.
Qed.

Lemma nextSection_completes t :
  is_Some (nextSection testType t).2 <-> testType <> full.
Proof.
  unfold nextSection. destruct (decide (testType <> full)) as [Hone | Hfull]; simpl.
  - split; [auto | eauto].
  - split; [|tauto]. destruct (decide _); [|intros [? [=]]].
    destruct (sections !! _); intros [? [=]].
Qed.

(** X12: the buttons say what they do. Whenever the screen can be shown,
    the section button reads [Finish & Submit] exactly when a press on it
    completes the test and [Next Section] exactly when it does not, and the
    advance button of the speaking section reads [Finish & Evaluate]
    exactly when a press on it completes the test and [Next Question]
    exactly when it does not. *)
Theorem buttons_say_what_they_do (t : State) (view : View) :
  render t = Some view ->
  (forall label, nextButton view = Some label ->
     (label = lit "Finish & Submit" <-> is_Some (nextSection testType t).2)
     /\ (label = lit "Next Section" <-> (nextSection testType t).2 = None))
  /\ (forall heading question cueCard value recording advance,
        shown view = SpeakingView heading question cueCard value recording advance ->
        (advance = lit "Finish & Evaluate"
         <-> is_Some (handleNextSpeakingQuestion testContent t).2)
        /\ (advance = lit "Next Question"
            <-> (handleNextSpeakingQuestion testContent t).2 = None)).
Proof.
  unfold TestScreen.render. intros Hrender.
  apply bind_Some in Hrender as (section & Hsection & [= <-]). simpl.
  assert (Hlabels : lit "Next Section" <> lit "Finish & Submit"
                    /\ lit "Next Question" <> lit "Finish & Evaluate").
  { split; intros Heq; apply (f_equal length) in Heq; vm_compute in Heq; discriminate. }
  destruct Hlabels as [Hsubmit Hevaluate]. split.
  - intros label Hlabel. rewrite nextSection_completes.
    destruct (decide (currentSection t <> sec_speaking)); [|discriminate].
    injection Hlabel as <-.
    assert (Hnone : (nextSection testType t).2 = None <-> testType = full).
    { pose proof (nextSection_completes t) as Hdone.
      destruct (nextSection testType t).2 as [done|].
      - split; [discriminate|]. intros Hfull. apply Hdone in Hfull; [tauto | eauto].
      - split; [|reflexivity]. intros _.
        destruct (decide (testType = full)) as [|Hone]; [assumption|].
        apply Hdone in Hone as [? [=]]. }
    rewrite Hnone. destruct (decide (testType = full)) as [Hfull | Hone].
    + split; split; congruence.
    + split; split; congruence.
  - intros heading question cueCard value recording advance ->.
    unfold TestScreen.renderContent in Hsection.
    destruct (currentSection t); repeat case_decide; simplify_eq/=.
    { apply renderWriting_Some in Hsection as [visual [=]]. }
    unfold renderSpeaking in Hsection. unfold handleNextSpeakingQuestion.
    destruct (currentSpeakingQuestion testContent t) as [q|]; [|discriminate].
    injection Hsection as _ _ _ _ _ <-.
    destruct (isLastSpeakingQuestion testContent t); simpl.
    + split; split; try congruence; eauto.
    + split; split; try congruence; try reflexivity. intros [? [=]].
Qed.

(** X13: the screen fails to render in one situation only. The render
    throws exactly when the writing section is on screen and the test has a
    writing task and a chart image but no chart data (the image's [alt]
    text is read off the chart data); a test whose Task 1 has chart data,
    or has no image, is always shown. *)
Theorem render_throws_only_without_chart_data (t : State) :
  (render t = None <-> currentSection t = sec_writing /\ writingBroken testContent)
  /\ (is_Some (chartData (ws_task1 (ct_writing testContent))) -> is_Some (render t))
  /\ (chartImage (ws_task1 (ct_writing testContent)) = None -> is_Some (render t))
  /\ (chartImage (ws_task1 (ct_writing testContent)) = Some [] -> is_Some (render t)).
Proof.
  pose proof (render_None testContent videoUrl testType t) as Hnone.
  split; [exact Hnone|].
  assert (Hshown : ~ writingBroken testContent -> is_Some (render t)).
  { intros Hok. destruct (render t) eqn:Hr; [eauto|].
    destruct (proj1 Hnone eq_refl) as [_ Hbroken]. contradiction. }
  unfold writingBroken. split; [|split].
  - intros [chart Hchart]. apply Hshown. intros (_ & Hno & _). congruence.
  - intros Himage. apply Hshown. intros (_ & _ & c & image & Hyes). congruence.
  - intros Himage. apply Hshown. intros (_ & _ & c & image & Hyes). congruence.
Qed.

End TestScreenControls.

(** ** Sessions: what holds on every page *)

Section SessionFacts.
Context `{Platform}.
Import App.

Implicit Types (a : Data) (ui : UI) (replies : list Outcome).

Lemma YouTubeUrl_nonempty url : WelcomeScreen.YouTubeUrl url -> url <> [].
Proof.
  intros (scheme & www & host & rest & _ & _ & _ & _ & _ & ->) Hnil.
  apply (f_equal length) in Hnil. rewrite !length_app in Hnil. simpl in Hnil. lia.
Qed.

(** The page after a generation, by how far the generation got. *)
Lemma startTest_settles url transcript type replies ui :
  url <> [] ->
  (runHandler (startTest url transcript type) replies ui).2 =
    match generationRun replies with
    | contentPending | chartPending _ _ =>
        {| app := generatingData url type (app ui); mounted := LoaderMounted |}
    | contentFailed | chartFailed _ _ =>
        {| app := setAppState welcome (setError (Some generationError)
                    (generatingData url type (app ui)));
           mounted := WelcomeMounted WelcomeScreen.initial |}
    | generated testContent _ =>
        {| app := setAppState test (setComprehensiveTest (Some testContent)
                    (generatingData url type (app ui)));
           mounted := TestMounted (TestScreen.initial type SpeechRecognition_supported) |}
    end.
Proof.
  intros Hurl. unfold runHandler. rewrite startTest_run. unfold settle, commit, renderContent.
  destruct (generationRun replies) as [| | ? ? | ? ? | ? [?|]]; simpl;
    repeat (case_decide; [|contradiction]; simpl); reflexivity.
Qed.

(** The page after a completed test, by the kind of test and how far its
    evaluation got. *)
Lemma handleTestComplete_settles answers replies a testContent type t :
  comprehensiveTest a = Some testContent ->
  testType a = Some type ->
  videoUrl a <> [] ->
  (runHandler (handleTestComplete answers) replies
     {| app := a; mounted := TestMounted t |}).2 =
    if isSubjective type then
      match evaluationRun replies with
      | evaluationPending =>
          {| app := evaluatingData answers a; mounted := LoaderMounted |}
      | evaluationFailed =>
          {| app := setAppState test (setError (Some evaluationError)
                      (evaluatingData answers a));
             mounted := TestMounted (TestScreen.initial type SpeechRecognition_supported) |}
      | planPending evalResult =>
          {| app := setEvaluation (Some evalResult) (evaluatingData answers a);
             mounted := LoaderMounted |}
      | planFailed evalResult =>
          {| app := setAppState test (setError (Some evaluationError)
                      (setEvaluation (Some evalResult) (evaluatingData answers a)));
             mounted := TestMounted (TestScreen.initial type SpeechRecognition_supported) |}
      | evaluated evalResult practiceResult =>
          {| app := setAppState results (setPracticePlan (Some practiceResult)
                      (setEvaluation (Some evalResult) (evaluatingData answers a)));
             mounted := EvaluationMounted |}
      end
    else
      {| app := setAppState results (setPracticePlan None (setEvaluation None
                  (setError None (setUserAnswers (Some answers) a))));
         mounted := EvaluationMounted |}.
Proof.
  intros Hct Hty Hurl. unfold runHandler. cbn [app mounted].
  destruct (isSubjective type) eqn:Hkind.
  - rewrite (handleTestComplete_subjective _ _ testContent type) by auto.
    unfold settle, commit, renderContent.
    destruct (evaluationRun replies) as [| |e|e|e p]; simpl;
      try (destruct (weaknessesOf e); simpl);
      rewrite ?Hct, ?Hty; simpl;
      repeat (case_decide; [|contradiction]; simpl);
      rewrite ?Hct, ?Hty; simpl;
      repeat (case_decide; [|contradiction]; simpl);
      reflexivity.
  - rewrite (handleTestComplete_objective _ _ testContent type) by auto.
    unfold settle, commit, renderContent. simpl. rewrite ?Hct. simpl. rewrite ?Hct. reflexivity.
Qed.

(** What holds of every page a session can reach: the screen on the page is
    the one the state of the workflow calls for, the data that screen needs
    is there, the error is one the state can have, and outside the welcome
    state the video URL is one the gate accepted. *)
Local Abbreviation Coherent ui :=
  (match appState (app ui) with
   | welcome =>
       (exists w, mounted ui = WelcomeMounted w)
       /\ (error (app ui) = None \/ error (app ui) = Some generationError)
   | generating | evaluating =>
       mounted ui = LoaderMounted
       /\ error (app ui) = None
       /\ WelcomeScreen.YouTubeUrl (videoUrl (app ui))
   | test =>
       (exists testContent type t,
          comprehensiveTest (app ui) = Some testContent
          /\ testType (app ui) = Some type
          /\ mounted ui = TestMounted t)
       /\ (error (app ui) = None \/ error (app ui) = Some evaluationError)
       /\ WelcomeScreen.YouTubeUrl (videoUrl (app ui))
   | results =>
       (exists testContent answers type,
          comprehensiveTest (app ui) = Some testContent
          /\ userAnswers (app ui) = Some answers
          /\ testType (app ui) = Some type
          /\ if isSubjective type
             then is_Some (evaluation (app ui)) /\ is_Some (practicePlan (app ui))
             else evaluation (app ui) = None /\ practicePlan (app ui) = None)
       /\ mounted ui = EvaluationMounted
       /\ error (app ui) = None
       /\ WelcomeScreen.YouTubeUrl (videoUrl (app ui))
   end).

Lemma Coherent_boot : Coherent boot.
Proof. simpl. split; [eauto | auto]. Qed.

(** The screen on the page tells the state of the workflow. *)
Lemma Coherent_welcome ui w :
  Coherent ui -> mounted ui = WelcomeMounted w ->
  appState (app ui) = welcome
  /\ (error (app ui) = None \/ error (app ui) = Some generationError).
Proof.
  intros Hui Hm. destruct (appState (app ui)).
  - destruct Hui as [_ Herr]. auto.
  - destruct Hui as [Hl _]. congruence.
  - destruct Hui as [(testContent & type & t & _ & _ & Ht) _]. congruence.
  - destruct Hui as [Hl _]. congruence.
  - destruct Hui as (_ & He & _). congruence.
Qed.

Lemma Coherent_typing ui w w' :
  Coherent ui -> mounted ui = WelcomeMounted w ->
  Coherent {| app := app ui; mounted := WelcomeMounted w' |}.
Proof.
  intros Hui Hm. destruct (Coherent_welcome ui w Hui Hm) as [Hstate Herr].
  simpl. rewrite Hstate. split; [eauto | exact Herr].
Qed.

Lemma Coherent_act action ui : Coherent ui -> Coherent (act action ui).
Proof.
  intros Hui. destruct ui as [a m]. unfold act. cbn [mounted app] in *.
  destruct action as [value | value | type replies | ev replies |].
  - destruct m as [w| | t| |]; try exact Hui.
    apply (Coherent_typing {| app := a; mounted := WelcomeMounted w |} w); auto.
  - destruct m as [w| | t| |]; try exact Hui.
    apply (Coherent_typing {| app := a; mounted := WelcomeMounted w |} w); auto.
  - destruct m as [w| | t| |]; try exact Hui.
    unfold clickStart. cbn [mounted app].
    destruct (handleStart_cases type w)
      as [(Hurl & Hlen & Hstart) | (Hinvalid & msg & Hmsg & Hstart)]; rewrite Hstart.
    + pose proof (YouTubeUrl_nonempty _ Hurl) as Hne.
      rewrite startTest_settles by exact Hne.
      destruct (generationRun replies); simpl.
      * auto.
      * split; [eauto | auto].
      * auto.
      * split; [eauto | auto].
      * split; [eauto 10 | auto].
    + apply (Coherent_typing {| app := a; mounted := WelcomeMounted w |} w); auto.
  - destruct m as [w| | t| |]; try exact Hui.
    destruct (renderContent a) as [| | testContent url type | |] eqn:Hrender;
      try exact Hui.
    destruct (TestScreen.enabled testContent url type ev t); [|exact Hui].
    unfold testScreenEvent. cbn [mounted app]. rewrite Hrender.
    apply renderContent_test in Hrender as (Hstate & Hct & Hty & Hurl & Hne).
    rewrite Hstate in Hui. destruct Hui as (_ & Herr & Hgate).
    destruct (TestScreen.handle testContent type ev t) as [t' [answers|]].
    + rewrite (handleTestComplete_settles answers replies a testContent type t')
        by (auto; congruence).
      destruct (isSubjective type) eqn:Hkind.
      * destruct (evaluationRun replies); simpl; rewrite ?Hct, ?Hty; eauto 10.
        split; [|auto]. exists testContent, answers, type. rewrite Hkind. eauto 10.
      * simpl. rewrite Hct, Hty. split; [|auto].
        exists testContent, answers, type. rewrite Hkind. auto.
    + simpl. rewrite Hstate. eauto 10.
  - destruct m as [w| | t| |]; try exact Hui.
    simpl. split; [eauto | auto].
Qed.

Lemma Coherent_session actions : Coherent (session actions).
Proof.
  unfold session. induction actions as [|action actions IH] using rev_ind.
  - apply Coherent_boot.
  - rewrite foldl_app. simpl. apply Coherent_act, IH.
Qed.


Lemma error_messages_differ :
  generationError <> missingContentError /\ evaluationError <> missingContentError
  /\ generationError <> evaluationError.
Proof.
  repeat split; intros Heq; apply (f_equal length) in Heq; vm_compute in Heq; discriminate.
Qed.

(** X14: the defensive branches of the workflow are never taken. On every
    page a session can reach, [renderContent] finds the data its state
    calls for, so it never falls back to [restartTest]; the component on
    the page is the one the rendered element calls for; and the guard of
    [handleTestComplete] never fires, so its message is never set. *)
Theorem fallbacks_are_never_taken (actions : list Action) :
  let ui := session actions in
  renderContent (app ui) <> RestartFallback
  /\ mount (renderContent (app ui)) (mounted ui) = mounted ui
  /\ error (app ui) <> Some missingContentError.
Proof.
  intros ui. pose proof (Coherent_session actions) as Hui. fold ui in Hui.
  destruct error_messages_differ as (Hgen & Heval & _).
  unfold renderContent. destruct (appState (app ui)).
  - destruct Hui as [[w Hw] Herr]. rewrite Hw. simpl.
    split; [discriminate|]. split; [reflexivity|].
    destruct Herr as [-> | ->]; congruence.
  - destruct Hui as (Hl & Herr & _). rewrite Hl, Herr. simpl.
    split; [discriminate|]. split; [reflexivity | discriminate].
  - destruct Hui as ((testContent & type & t & Hct & Hty & Ht) & Herr & Hgate).
    apply YouTubeUrl_nonempty in Hgate. rewrite Hct, Hty, Ht.
    destruct (decide (videoUrl (app ui) <> [])); [|contradiction]. simpl.
    split; [discriminate|]. split; [reflexivity|].
    destruct Herr as [-> | ->]; congruence.
  - destruct Hui as (Hl & Herr & _). rewrite Hl, Herr. simpl.
    split; [discriminate|]. split; [reflexivity | discriminate].
  - destruct Hui as ((testContent & answers & type & Hct & Hans & _) & Hm & Herr & _).
    rewrite Hct, Hans, Hm, Herr. simpl.
    split; [discriminate|]. split; [reflexivity | discriminate].
Qed.

(** X15: the evaluation error message is set but never shown. On every
    page a session can reach, an error on display is the generation error,
    on the welcome screen; when the evaluation error is set, the page shows
    the test screen, which is given no error to display. *)
Theorem evaluation_error_is_never_shown (actions : list Action) :
  let ui := session actions in
  (forall e, renderContent (app ui) = WelcomeScreenElement (Some e) -> e = generationError)
  /\ (error (app ui) = Some evaluationError ->
      exists testContent url type,
        renderContent (app ui) = TestScreenElement testContent url type)
  /\ (forall el, renderContent (app ui) = el ->
      match el with
      | WelcomeScreenElement shownError => shownError = error (app ui)
      | _ => True
      end).
Proof.
  intros ui. pose proof (Coherent_session actions) as Hui. fold ui in Hui.
  destruct error_messages_differ as (_ & _ & Hdiff).
  unfold renderContent. destruct (appState (app ui)).
  - destruct Hui as [_ Herr]. split; [|split].
    + intros e [= He]. destruct Herr as [Hnone | Hgen]; congruence.
    + intros Heval. destruct Herr as [Hnone | Hgen]; congruence.
    + intros el <-. reflexivity.
  - destruct Hui as (_ & Herr & _). split; [discriminate|]. split; [congruence|].
    intros el <-. exact I.
  - destruct Hui as ((testContent & type & t & Hct & Hty & Ht) & Herr & Hgate).
    apply YouTubeUrl_nonempty in Hgate. rewrite Hct, Hty.
    destruct (decide (videoUrl (app ui) <> [])); [|contradiction].
    split; [discriminate|]. split; [eauto|]. intros el <-. exact I.
  - destruct Hui as (_ & Herr & _). split; [discriminate|]. split; [congruence|].
    intros el <-. exact I.
  - destruct Hui as ((testContent & answers & type & Hct & Hans & _) & _ & Herr & _).
    rewrite Hct, Hans. split; [discriminate|]. split; [congruence|].
    intros el <-. exact I.
Qed.

(** X16: every test comes from a video URL the gate accepted. On every
    page a session can reach, outside the welcome state the video URL of
    the workflow matches the YouTube pattern, and so does the URL the test
    screen is given; it is never empty. *)
Theorem tests_come_from_accepted_urls (actions : list Action) :
  let ui := session actions in
  (appState (app ui) <> welcome -> WelcomeScreen.YouTubeUrl (videoUrl (app ui)))
  /\ (forall testContent url type,
        renderContent (app ui) = TestScreenElement testContent url type ->
        WelcomeScreen.YouTubeUrl url /\ url <> []).
Proof.
  intros ui. pose proof (Coherent_session actions) as Hui. fold ui in Hui.
  assert (Hgate : appState (app ui) <> welcome -> WelcomeScreen.YouTubeUrl (videoUrl (app ui))).
  { destruct (appState (app ui)); [congruence | | | |]; intros _.
    - apply Hui.
    - apply Hui.
    - apply Hui.
    - apply Hui. }
  split; [exact Hgate|]. intros testContent url type Hrender.
  apply renderContent_test in Hrender as (Hstate & _ & _ & <- & Hne).
  split; [|exact Hne]. apply Hgate. congruence.
Qed.

(** X17: the report has an evaluation and a practice plan for the tests
    that are evaluated, and for no other. On every report page a session
    can reach, the test type is known; for a writing, speaking or full test
    the evaluation and the practice plan are both there; for a listening or
    reading test neither is, the screen shows no report and no plan, and
    the text export holds the title and nothing else, whatever was
    answered: the answer key is not exported. *)
Theorem report_follows_the_test_type (actions : list Action)
    (shownEvaluation : option IEvaluation) (shownPlan : option (list IPracticeItem))
    (answers : Answers) (testContent : IComprehensiveTest) :
  let ui := session actions in
  renderContent (app ui) = EvaluationScreenElement shownEvaluation shownPlan answers testContent ->
  exists type,
    testType (app ui) = Some type
    /\ (type = writing \/ type = speaking \/ type = full ->
        is_Some shownEvaluation /\ is_Some shownPlan)
    /\ (type = listening \/ type = reading ->
        shownEvaluation = None /\ shownPlan = None
        /\ EvaluationScreen.report
             (EvaluationScreen.render answers testContent shownEvaluation shownPlan) = None
        /\ EvaluationScreen.plan
             (EvaluationScreen.render answers testContent shownEvaluation shownPlan) = None
        /\ EvaluationScreen.handleSaveAsMarkdown answers testContent shownEvaluation shownPlan
           = lit "# IELTS Evaluation Report" ++ [LF; LF]).
Proof.
  intros ui Hrender. pose proof (Coherent_session actions) as Hui. fold ui in Hui.
  unfold renderContent in Hrender. destruct (appState (app ui)); try discriminate.
  { destruct (comprehensiveTest (app ui)), (testType (app ui)); try discriminate.
    destruct (decide _); discriminate. }
  destruct Hui as ((testContent' & answers' & type & Hct & Hans & Hty & Hkind) & _).
  rewrite Hct, Hans in Hrender. injection Hrender as <- <- <- <-.
  exists type. split; [exact Hty|]. split.
  - intros Htype.
    assert (Hsubj : isSubjective type = true)
      by (destruct Htype as [-> | [-> | ->]]; reflexivity).
    rewrite Hsubj in Hkind. exact Hkind.
  - intros Htype.
    assert (Hobj : isSubjective type = false) by (destruct Htype as [-> | ->]; reflexivity).
    rewrite Hobj in Hkind. destruct Hkind as [-> ->]. repeat split; reflexivity.
Qed.

End SessionFacts.

(** ** The report screen *)

Section ResultsFacts.
Context `{Platform}.
Import App.

Implicit Types (ui : UI) (evs : list TestScreen.Event).

(** Typing into the inputs of the test screen stays on the test screen. *)
Lemma testScreenEvents_typing evs : forall ui t testContent url type,
  renderContent (app ui) = TestScreenElement testContent url type ->
  mounted ui = TestMounted t ->
  Forall (fun ev => exists section index value,
            ev = TestScreen.AnswerChange section index value) evs ->
  testScreenEvents evs ui =
    {| app := app ui; mounted := TestMounted (TestScreen.play testContent type evs t).1 |}.
Proof.
  unfold testScreenEvents.
  induction evs as [|ev evs IH]; intros ui t testContent url type Hrender Hm Htyping.
  - simpl. destruct ui as [a m]. simpl in *. congruence.
  - apply Forall_cons in Htyping as [(section & index & value & ->) Htyping].
    rewrite play_cons. cbn [foldl fst].
    assert (Hstep : (testScreenEvent (TestScreen.AnswerChange section index value) [] ui).2
                    = {| app := app ui;
                         mounted := TestMounted
                           (TestScreen.handleAnswerChange section index value t) |}).
    { unfold testScreenEvent. rewrite Hm, Hrender. reflexivity. }
    rewrite Hstep.
    exact (IH {| app := app ui;
                 mounted := TestMounted (TestScreen.handleAnswerChange section index value t) |}
              (TestScreen.handleAnswerChange section index value t) testContent url type
              Hrender eq_refl Htyping).
Qed.

(** X18: the answer key shows what was typed. In a listening or reading
    test, after any typing into the inputs of a freshly shown test screen
    and a press on [Finish & Submit], the page is the report with no
    evaluation and no practice plan, and the answer key of each section
    shows, for every question, its number and text, the value typed last
    into the input of that number (the placeholder if nothing was typed or
    the input was emptied), and the correct answer of the question. *)
Theorem answer_key_shows_what_was_typed (ui : UI) (testContent : IComprehensiveTest)
    (url : jsstring) (type : TestType) (speechSupported : bool)
    (evs : list TestScreen.Event) (replies : list Outcome) :
  renderContent (app ui) = TestScreenElement testContent url type ->
  mounted ui = TestMounted (TestScreen.initial type speechSupported) ->
  type = listening \/ type = reading ->
  Forall (fun ev => exists section index value,
            ev = TestScreen.AnswerChange section index value) evs ->
  let ui' := (testScreenEvent TestScreen.NextSectionClick replies (testScreenEvents evs ui)).2 in
  let typed section index :=
    match last (omap (fun ev =>
                        match ev with
                        | TestScreen.AnswerChange section' index' value =>
                            if decide (section' = section /\ index' = index) then Some value
                            else None
                        | _ => None
                        end) evs) with
    | Some (c :: value) => Some (c :: value)
    | Some [] | None => None
    end in
  exists answers,
    renderContent (app ui') = EvaluationScreenElement None None answers testContent
    /\ mounted ui' = EvaluationMounted
    /\ (forall index q,
          ls_questions (ct_listening testContent) !! index = Some q ->
          EvaluationScreen.key_rows
            (EvaluationScreen.AnswerKey lq_question lq_answer (lit "Listening")
               (ls_questions (ct_listening testContent)) (ans_listening answers)) !! index
          = Some {| EvaluationScreen.key_question :=
                      decimal (index + 1) ++ lit ". " ++ lq_question q;
                    EvaluationScreen.key_yourAnswer := typed TestScreen.obj_listening index;
                    EvaluationScreen.key_correctAnswer := lq_answer q |})
    /\ (forall index q,
          rs_questions (ct_reading testContent) !! index = Some q ->
          EvaluationScreen.key_rows
            (EvaluationScreen.AnswerKey rq_question rq_answer (lit "Reading")
               (rs_questions (ct_reading testContent)) (ans_reading answers)) !! index
          = Some {| EvaluationScreen.key_question :=
                      decimal (index + 1) ++ lit ". " ++ rq_question q;
                    EvaluationScreen.key_yourAnswer := typed TestScreen.obj_reading index;
                    EvaluationScreen.key_correctAnswer := rq_answer q |})
    /\ EvaluationScreen.answerKeys (EvaluationScreen.render answers testContent None None)
       = (if decide (0 < length (ls_questions (ct_listening testContent))
                     \/ 0 < length (rs_questions (ct_reading testContent)))
          then
            Some ((if decide (0 < length (ls_questions (ct_listening testContent))) then
                     [EvaluationScreen.AnswerKey lq_question lq_answer (lit "Listening")
                        (ls_questions (ct_listening testContent)) (ans_listening answers)]
                   else [])
                  ++ (if decide (0 < length (rs_questions (ct_reading testContent))) then
                        [EvaluationScreen.AnswerKey rq_question rq_answer (lit "Reading")
                           (rs_questions (ct_reading testContent)) (ans_reading answers)]
                      else []))
          else None).
Proof.
  intros Hrender Hm Htype Htyping ui' typed.
  set (t := (TestScreen.play testContent type evs (TestScreen.initial type speechSupported)).1).
  exists (TestScreen.answers t).
  assert (Hui' : ui' = {| app := setAppState results (setPracticePlan None (setEvaluation None
                             (setError None (setUserAnswers (Some (TestScreen.answers t)) (app ui)))));
                          mounted := EvaluationMounted |}).
  { subst ui'. rewrite (testScreenEvents_typing evs ui _ testContent url type Hrender Hm Htyping).
    fold t. unfold testScreenEvent. cbn [mounted app]. rewrite Hrender.
    assert (Hhandle : TestScreen.handle testContent type TestScreen.NextSectionClick t
                      = (t, Some (TestScreen.answers t))).
    { simpl. unfold TestScreen.nextSection.
      destruct (decide (type <> full)) as [|Hfull]; [reflexivity|].
      destruct Htype as [-> | ->]; exfalso; apply Hfull; discriminate. }
    rewrite Hhandle.
    apply renderContent_test in Hrender as (Hstate & Hct & Hty & Hurl & Hne).
    rewrite (handleTestComplete_settles _ _ _ testContent type) by (auto; congruence).
    destruct Htype as [-> | ->]; reflexivity. }
  apply renderContent_test in Hrender as (Hstate & Hct & Hty & Hurl & Hne).
  rewrite Hui'. unfold renderContent. simpl. rewrite Hct.
  split; [reflexivity|]. split; [reflexivity|].
  assert (Hkey : forall section index,
            match section with
            | TestScreen.obj_listening => ans_listening (TestScreen.answers t)
            | TestScreen.obj_reading => ans_reading (TestScreen.answers t)
            end !! index
            = match last (omap (fun ev =>
                        match ev with
                        | TestScreen.AnswerChange section' index' value =>
                            if decide (section' = section /\ index' = index) then Some value
                            else None
                        | _ => None
                        end) evs) with
              | Some value => Some value
              | None => None
              end).
  { intros section index. subst t. rewrite play_objective.
    destruct (last _); [reflexivity|]. destruct section; apply lookup_empty. }
  split; [|split; [|reflexivity]].
  - intros index q Hq. unfold EvaluationScreen.AnswerKey. simpl.
    rewrite list_lookup_imap, Hq. simpl. subst typed. simpl.
    rewrite (Hkey TestScreen.obj_listening index). destruct (last _) as [[|c value]|]; reflexivity.
  - intros index q Hq. unfold EvaluationScreen.AnswerKey. simpl.
    rewrite list_lookup_imap, Hq. simpl. subst typed. simpl.
    rewrite (Hkey TestScreen.obj_reading index). destruct (last _) as [[|c value]|]; reflexivity.
Qed.

End ResultsFacts.

(** ** The service functions: how they fail *)

Section ServiceOutcomes.
Context `{Platform} {S : Type}.

Implicit Types (s : S) (o : Outcome) (replies : list Outcome).

(** X19: what the three calls of the service make of a reply. Each of
    [generateComprehensiveTest], [evaluateComprehensiveTest] and
    [generateChartImage] sends one request and takes one reply, leaving
    later replies for later requests. A rejection is passed on with its
    reason. A text reply without text, or with a text that does not parse
    once trimmed, is turned into the function's own error, otherwise the
    parsed document is returned. An image reply without images, or with an
    empty list of them, is the function's own error, otherwise the bytes of
    the first image are returned, whatever else the reply holds. *)
Theorem service_calls_take_one_reply (url transcript : jsstring) (type : TestType)
    (testContent : IComprehensiveTest) (userAnswers : Answers) (chart : IChartData)
    (s : S) (o : Outcome) (replies : list Outcome) :
  run (generateComprehensiveTest url transcript type s) (o :: replies) =
    ([Called (call_generateComprehensiveTest url transcript type);
      Requested s (testRequest url transcript type)],
     match o with
     | Rejected reason => Threw s reason
     | Resolved response =>
         match text response ≫= (fun responseText => JSON_parse_test (trim responseText)) with
         | Some parsed => Returned s parsed
         | None =>
             Threw s (lit "Could not generate the test from the AI. The response was not valid JSON.")
         end
     end,
     replies)
  /\ run (evaluateComprehensiveTest testContent userAnswers s) (o :: replies) =
       ([Called (call_evaluateComprehensiveTest testContent userAnswers);
         Requested s (evaluationRequest testContent userAnswers)],
        match o with
        | Rejected reason => Threw s reason
        | Resolved response =>
            match text response
                  ≫= (fun responseText => JSON_parse_evaluation (trim responseText)) with
            | Some evalResult => Returned s evalResult
            | None => Threw s (lit "Could not parse the evaluation from the AI.")
            end
        end,
        replies)
  /\ run (generateChartImage chart s) (o :: replies) =
       ([Called (call_generateChartImage chart);
         Requested s (generateImages imageModel (chartPrompt chart) 1 (lit "image/png")
                        (lit "16:9"))],
        match o with
        | Rejected reason => Threw s reason
        | Resolved response =>
            match generatedImages response with
            | Some (imageBytes :: _) => Returned s imageBytes
            | Some [] | None => Threw s (lit "Failed to generate chart image.")
            end
        end,
        replies).
Proof.
  split; [|split].
  - unfold generateComprehensiveTest. async_unfold.
    destruct o as [[[t|] imgs] | reason]; simpl; try reflexivity.
    destruct (JSON_parse_test (trim t)); reflexivity.
  - unfold evaluateComprehensiveTest. async_unfold.
    destruct o as [[[t|] imgs] | reason]; simpl; try reflexivity.
    destruct (JSON_parse_evaluation (trim t)); reflexivity.
  - unfold generateChartImage. async_unfold.
    destruct o as [[t [[|img imgs]|]] | reason]; reflexivity.
Qed.

(** X20: white space around the text of a reply is ignored. The three
    functions that read a JSON reply behave on a reply whose text is
    padded with white space or line breaks, before or after, exactly as on
    the reply with the bare text. *)
Theorem reply_padding_is_ignored (before json after : jsstring)
    (images : option (list jsstring)) (s : S) (replies : list Outcome)
    (url transcript : jsstring) (type : TestType) (testContent : IComprehensiveTest)
    (userAnswers : Answers) (evaluation : IEvaluation) :
  Forall (fun c => isTrimmed c = true) before ->
  Forall (fun c => isTrimmed c = true) after ->
  let padded := Resolved {| text := Some (before ++ json ++ after); generatedImages := images |} in
  let bare := Resolved {| text := Some json; generatedImages := images |} in
  exec (generateComprehensiveTest url transcript type s) (padded :: replies)
  = exec (generateComprehensiveTest url transcript type s) (bare :: replies)
  /\ exec (evaluateComprehensiveTest testContent userAnswers s) (padded :: replies)
     = exec (evaluateComprehensiveTest testContent userAnswers s) (bare :: replies)
  /\ exec (getPracticePlan evaluation s) (padded :: replies)
     = exec (getPracticePlan evaluation s) (bare :: replies).
Proof.
  intros Hb Ha padded bare.
  assert (Htrim : trim (before ++ json ++ after) = trim json) by (apply trim_app_trimmed; auto).
  unfold exec. split; [|split].
  - unfold generateComprehensiveTest. async_unfold. rewrite Htrim. reflexivity.
  - unfold evaluateComprehensiveTest. async_unfold. rewrite Htrim. reflexivity.
  - unfold getPracticePlan. async_unfold.
    destruct (decide _); [reflexivity|]. simpl. rewrite Htrim. reflexivity.
Qed.

End ServiceOutcomes.

(** ** The download of the test content *)

Section DownloadFacts.
Import TestScreen.

Lemma includes_mjoin_imap {A} (f : nat -> A -> jsstring) (l : list A) (i : nat) (x : A) needle :
  l !! i = Some x -> includes needle (f i x) -> includes needle (mjoin (imap f l)).
Proof.
  revert f i. induction l as [|y l IH]; intros f i Hi Hx; [discriminate|].
  simpl. destruct i as [|i]; simpl in Hi.
  - injection Hi as ->. apply includes_app_r. exact Hx.
  - apply includes_app_l. apply (IH (f ∘ S) i Hi). exact Hx.
Qed.

Lemma imap_through {A B C} (f : nat -> B -> C) (g : A -> B) (l l' : list A) :
  g <$> l = g <$> l' -> imap (fun i x => f i (g x)) l = imap (fun i x => f i (g x)) l'.
Proof.
  intros Hg. change (imap (fun i => f i ∘ g) l = imap (fun i => f i ∘ g) l').
  rewrite <- !imap_fmap, Hg. reflexivity.
Qed.

(** X21: the download holds the questions, not the answers. Two tests with
    the same transcript, the same listening and reading question texts in
    the same order, the same writing prompts and the same chart data give
    the same file for a video URL: the correct answers, the kinds and
    options of the questions, the speaking questions and the chart image do
    not go into it. *)
Theorem download_leaves_out_the_answers (videoUrl : jsstring)
    (test test' : IComprehensiveTest) :
  rs_transcript (ct_reading test) = rs_transcript (ct_reading test') ->
  lq_question <$> ls_questions (ct_listening test)
    = lq_question <$> ls_questions (ct_listening test') ->
  rq_question <$> rs_questions (ct_reading test)
    = rq_question <$> rs_questions (ct_reading test') ->
  t1_prompt (ws_task1 (ct_writing test)) = t1_prompt (ws_task1 (ct_writing test')) ->
  chartData (ws_task1 (ct_writing test)) = chartData (ws_task1 (ct_writing test')) ->
  ws_task2 (ct_writing test) = ws_task2 (ct_writing test') ->
  handleDownloadTest test videoUrl = handleDownloadTest test' videoUrl.
Proof.
  intros Htranscript Hlistening Hreading Hprompt Hchart Htask2. unfold handleDownloadTest.
  rewrite Htranscript, Hprompt, Hchart, Htask2.
  rewrite (imap_through (fun i question => decimal (i + 1) ++ lit ". " ++ question ++ [LF])
             lq_question _ _ Hlistening).
  rewrite (imap_through (fun i question => decimal (i + 1) ++ lit ". " ++ question ++ [LF])
             rq_question _ _ Hreading).
  assert (Hl : length (ls_questions (ct_listening test))
               = length (ls_questions (ct_listening test')))
    by (apply (f_equal length) in Hlistening; rewrite !length_fmap in Hlistening; exact Hlistening).
  assert (Hr : length (rs_questions (ct_reading test))
               = length (rs_questions (ct_reading test')))
    by (apply (f_equal length) in Hreading; rewrite !length_fmap in Hreading; exact Hreading).
  rewrite Hl, Hr. reflexivity.
Qed.

(** The file, part by part. *)
Lemma handleDownloadTest_parts (videoUrl : jsstring) (test : IComprehensiveTest) :
  exists listeningPart readingPart writingPart,
    handleDownloadTest test videoUrl =
      lit "IELTS Mock Test Content" ++ [LF; LF]
      ++ (lit "Video URL: " ++ videoUrl ++ [LF]) ++ [LF]
      ++ lit "--- TRANSCRIPT / READING PASSAGE ---" ++ [LF]
      ++ (rs_transcript (ct_reading test) ++ [LF]) ++ [LF]
      ++ listeningPart ++ readingPart ++ writingPart
    /\ (forall i q, ls_questions (ct_listening test) !! i = Some q ->
          includes (decimal (i + 1) ++ lit ". " ++ lq_question q ++ [LF]) listeningPart)
    /\ (forall i q, rs_questions (ct_reading test) !! i = Some q ->
          includes (decimal (i + 1) ++ lit ". " ++ rq_question q ++ [LF]) readingPart)
    /\ (t1_prompt (ws_task1 (ct_writing test)) <> [] \/ ws_task2 (ct_writing test) <> [] ->
          includes (lit "Task 1: " ++ t1_prompt (ws_task1 (ct_writing test)) ++ [LF]) writingPart
          /\ includes (lit "Task 2: " ++ ws_task2 (ct_writing test) ++ [LF]) writingPart).
Proof.
  exists
    (if decide (0 < length (ls_questions (ct_listening test))) then
       lit "--- LISTENING QUESTIONS ---" ++ [LF]
       ++ mjoin (imap (fun i q => decimal (i + 1) ++ lit ". " ++ lq_question q ++ [LF])
                   (ls_questions (ct_listening test)))
       ++ [LF]
     else []),
    (if decide (0 < length (rs_questions (ct_reading test))) then
       lit "--- READING QUESTIONS ---" ++ [LF]
       ++ mjoin (imap (fun i q => decimal (i + 1) ++ lit ". " ++ rq_question q ++ [LF])
                   (rs_questions (ct_reading test)))
       ++ [LF]
     else []),
    (if decide (orElse (t1_prompt (ws_task1 (ct_writing test)))
                  (ws_task2 (ct_writing test)) <> [])
     then
       lit "--- WRITING QUESTIONS ---" ++ [LF]
       ++ (lit "Task 1: " ++ t1_prompt (ws_task1 (ct_writing test)) ++ [LF])
       ++ match chartData (ws_task1 (ct_writing test)) with
          | Some chart =>
              lit "Chart Title: " ++ cd_title chart ++ [LF]
              ++ lit "Chart Type: " ++ chartTypeName (cd_type chart) ++ [LF]
              ++ lit "Chart Data: " ++ cd_data chart ++ [LF]
          | None => []
          end
       ++ [LF] ++ (lit "Task 2: " ++ ws_task2 (ct_writing test) ++ [LF])
     else []).
  split; [|split; [|split]].
  - unfold handleDownloadTest. repeat case_decide; rewrite <- ?app_assoc, ?app_nil_r;
      simpl; rewrite <- ?app_assoc; reflexivity.
  - intros i q Hq. case_decide as Hpos; [|apply lookup_lt_Some in Hq; lia].
    do 2 apply includes_app_l. apply includes_app_r.
    apply (includes_mjoin_imap _ _ i q); [exact Hq | apply includes_refl].
  - intros i q Hq. case_decide as Hpos; [|apply lookup_lt_Some in Hq; lia].
    do 2 apply includes_app_l. apply includes_app_r.
    apply (includes_mjoin_imap _ _ i q); [exact Hq | apply includes_refl].
  - intros Hsome. case_decide as Hyes.
    + split.
      * do 2 apply includes_app_l. apply includes_app_r, includes_refl.
      * do 5 apply includes_app_l. apply includes_refl.
    + exfalso. unfold orElse in Hyes.
      destruct (t1_prompt (ws_task1 (ct_writing test))); [|discriminate].
      destruct Hsome; congruence.
Qed.

(** X22: the download lists what the test asks. For every test and video
    URL the file holds the URL and the transcript; every listening and
    every reading question on a line of its own, numbered from 1 in the
    order of the test; and, when there is a writing task, the two writing
    prompts. *)
Theorem download_lists_the_questions (videoUrl : jsstring) (test : IComprehensiveTest) :
  let content := handleDownloadTest test videoUrl in
  includes (lit "Video URL: " ++ videoUrl ++ [LF]) content
  /\ includes (rs_transcript (ct_reading test) ++ [LF]) content
  /\ (forall i q, ls_questions (ct_listening test) !! i = Some q ->
        includes (decimal (i + 1) ++ lit ". " ++ lq_question q ++ [LF]) content)
  /\ (forall i q, rs_questions (ct_reading test) !! i = Some q ->
        includes (decimal (i + 1) ++ lit ". " ++ rq_question q ++ [LF]) content)
  /\ (t1_prompt (ws_task1 (ct_writing test)) <> [] \/ ws_task2 (ct_writing test) <> [] ->
        includes (lit "Task 1: " ++ t1_prompt (ws_task1 (ct_writing test)) ++ [LF]) content
        /\ includes (lit "Task 2: " ++ ws_task2 (ct_writing test) ++ [LF]) content).
Proof.
  intros content. subst content.
  destruct (handleDownloadTest_parts videoUrl test)
    as (listeningPart & readingPart & writingPart & -> & Hlistening & Hreading & Hwriting).
  split; [|split; [|split; [|split]]].
  - do 2 apply includes_app_l. apply includes_app_r, includes_refl.
  - do 6 apply includes_app_l. apply includes_app_r, includes_refl.
  - intros i q Hq. do 8 apply includes_app_l. apply includes_app_r, Hlistening, Hq.
  - intros i q Hq. do 9 apply includes_app_l. apply includes_app_r, Hreading, Hq.
  - intros Hsome. destruct (Hwriting Hsome) as [Htask1 Htask2].
    split; do 10 apply includes_app_l; assumption.
Qed.

End DownloadFacts.

(** ** The score circle *)

Section ScoreFacts.
Context `{Platform}.
Import EvaluationScreen.

Lemma SFcompare_refl a : a <> S754_nan -> SFcompare a a = Some Eq.
Proof.
  destruct a as [sa | sa | | sa ma ea]; simpl; try congruence; intros _.
  - destruct sa; reflexivity.
  - destruct sa; rewrite Z.compare_refl.
    + rewrite Pos.compare_cont_refl. reflexivity.
    + rewrite Pos.compare_cont_refl. reflexivity.
Qed.

(** Only NaN differs from itself. *)
Lemma eqb_false_nan (x : number) : (x =? x)%float = false -> Prim2SF x = S754_nan.
Proof.
  rewrite FloatAxioms.eqb_spec. unfold SFeqb. intros Hneq.
  destruct (Prim2SF x) as [sx | sx | | sx mx ex] eqn:Hx; [| |reflexivity|];
    rewrite SFcompare_refl in Hneq by discriminate; discriminate.
Qed.

Lemma leb_nan (x y : number) : Prim2SF y = S754_nan -> (x <=? y)%float = false.
Proof.
  intros Hnan. rewrite leb_spec. unfold SFleb. rewrite Hnan.
  destruct (Prim2SF x) as [| | |]; reflexivity.
Qed.

(** X23: the colours of the score circle. The figure is green from 7.5 up,
    yellow from 6.0 up to 7.5 and red below 6.0, and red as well for a
    score that is not a number; the ring always has the colour of the
    figure. A score that is a number is green exactly when
    [getPracticePlan] does not count it as a weakness. *)
Theorem ScoreCircle_colours (score : number) :
  let hue :=
    if (7.5 <=? score)%float then lit "green-500"
    else if (6.0 <=? score)%float then lit "yellow-500"
    else lit "red-500" in
  figureColor (ScoreCircle score) = lit "text-" ++ hue
  /\ ring (ScoreCircle score) = lit "border-" ++ hue
  /\ figure (ScoreCircle score) = Number_toFixed1 score
  /\ ((score =? score)%float = false -> hue = lit "red-500")
  /\ ((score =? score)%float = true ->
      forall c, Types.score c = score ->
        (hue = lit "green-500" <-> belowTarget c = false)).
Proof.
  intros hue. subst hue. unfold ScoreCircle, getScoreColor. simpl.
  assert (Hgreen : lit "green-500" <> lit "yellow-500" /\ lit "green-500" <> lit "red-500").
  { split; intros Heq; apply (f_equal length) in Heq; vm_compute in Heq; discriminate. }
  split; [|split; [|split; [reflexivity|split]]].
  - destruct (7.5 <=? score)%float; [reflexivity|].
    destruct (6.0 <=? score)%float; reflexivity.
  - destruct (7.5 <=? score)%float; [vm_compute; reflexivity|].
    destruct (6.0 <=? score)%float; vm_compute; reflexivity.
  - intros Hnan. apply eqb_false_nan in Hnan.
    rewrite !(leb_nan _ _ Hnan). reflexivity.
  - intros Hnum c Hc. unfold belowTarget. rewrite Hc.
    destruct (7.5 <=? score)%float eqn:Hle.
    + rewrite (leb_not_ltb _ _ Hle). tauto.
    + rewrite (not_leb_ltb score 7.5 Hnum eq_refl Hle).
      destruct Hgreen as [Hyellow Hred].
      destruct (6.0 <=? score)%float; split; congruence.
Qed.

End ScoreFacts.

(** ** What is sent for evaluation *)

Section PromptFacts.
Context `{Platform} {S : Type}.

Lemma includes_join (sep piece : jsstring) (pieces : list jsstring) :
  piece ∈ pieces -> includes piece (join sep pieces).
Proof.
  induction pieces as [|p pieces IH]; intros Hin; [inversion Hin|].
  destruct pieces as [|q pieces].
  - apply list_elem_of_singleton in Hin as ->. apply includes_refl.
  - change (join sep (p :: q :: pieces)) with (p ++ sep ++ join sep (q :: pieces)).
    apply elem_of_cons in Hin as [-> | Hin].
    + apply includes_app_r, includes_refl.
    + do 2 apply includes_app_l. apply IH, Hin.
Qed.

(** Finds the joined pieces among the operands of a concatenation. *)
Local Ltac find_joined :=
  first [ apply includes_app_r; apply includes_join
        | apply includes_app_l; find_joined ].

(** X24: the evaluation request carries every answer. The one request
    [evaluateComprehensiveTest] sends holds, in its prompt, both essays as
    typed, the listening and reading answers as JSON, and for every spoken
    answer a line with its number, counted from 1, its question and the
    answer; nothing of what the user submitted is left out. *)
Theorem evaluation_request_carries_the_answers (testContent : IComprehensiveTest)
    (userAnswers : Answers) (s : S) (replies : list Outcome) :
  let prompt := evaluationPrompt testContent userAnswers in
  head (requests (exec (evaluateComprehensiveTest testContent userAnswers s) replies).1)
    = Some (generateContent textModel prompt (lit "application/json")
              comprehensiveEvaluationSchema)
  /\ includes (wa_task1 (ans_writing userAnswers)) prompt
  /\ includes (wa_task2 (ans_writing userAnswers)) prompt
  /\ includes (JSON_stringify_record (ans_listening userAnswers)) prompt
  /\ includes (JSON_stringify_record (ans_reading userAnswers)) prompt
  /\ (forall i answer, ans_speaking userAnswers !! i = Some answer ->
        includes (speakingLine i answer) prompt
        /\ includes (decimal (i + 1)) (speakingLine i answer)
        /\ includes (sa_question answer) (speakingLine i answer)
        /\ includes (sa_answer answer) (speakingLine i answer)).
Proof.
  intros prompt. split.
  - unfold exec. destruct replies as [|o replies].
    + rewrite evaluateComprehensiveTest_pending. reflexivity.
    + destruct (evaluateComprehensiveTest_reply testContent userAnswers s o replies)
        as (fin & -> & _). reflexivity.
  - subst prompt. unfold evaluationPrompt.
    split; [find_includes|]. split; [find_includes|].
    split; [find_includes|]. split; [find_includes|].
    intros i answer Hanswer. split; [|unfold speakingLine; repeat split; find_includes].
    find_joined; apply elem_of_lookup_imap; eauto.
Qed.

End PromptFacts.

(** ** From the generation to the writing section *)

Section VisualFacts.
Context `{Platform}.
Import App.

(** X25: what the writing section shows above Task 1 after a successful
    generation. For a test with chart data that [startTest] installs, the
    writing section can always be shown. If the chart is a table, no image
    was asked for and the table is drawn from the chart data. Otherwise one
    image was asked for, the first image of the reply was attached to the
    test, and it is shown as a PNG data URL under the chart's title, or
    nothing is shown if its bytes are empty. *)
Theorem generated_chart_is_shown (replies : list Outcome) (testContent : IComprehensiveTest)
    (drawn : option IChartData) (chart : IChartData) (t : TestScreen.State) :
  generationRun replies = generated testContent drawn ->
  chartData (ws_task1 (ct_writing testContent)) = Some chart ->
  exists visual,
    TestScreen.renderWriting testContent t =
      Some (TestScreen.WritingView visual
              (t1_prompt (ws_task1 (ct_writing testContent)))
              (wa_task1 (ans_writing (TestScreen.answers t)))
              (ws_task2 (ct_writing testContent))
              (wa_task2 (ans_writing (TestScreen.answers t))))
    /\ if decide (cd_type chart = table) then
         drawn = None
         /\ visual = TestScreen.TableVisual
                       (TestScreen.TableRenderer (cd_data chart) (cd_title chart))
       else
         drawn = Some chart
         /\ exists o o' rest image,
              replies = o :: o' :: rest
              /\ imageOf o' = Some image
              /\ chartImage (ws_task1 (ct_writing testContent)) = Some image
              /\ visual = match image with
                          | [] => TestScreen.NoVisual
                          | _ => TestScreen.ImageVisual
                                   (lit "data:image/png;base64," ++ image) (cd_title chart)
                          end.
Proof.
  intros Hrun Hchart. unfold TestScreen.renderWriting. rewrite Hchart. simpl.
  unfold generationRun in Hrun.
  destruct replies as [|o rest]; [discriminate|].
  destruct (testOf o) as [parsed|]; [|discriminate].
  unfold chartToDraw in Hrun.
  destruct (chartData (ws_task1 (ct_writing parsed))) as [chart'|] eqn:Hparsed.
  - destruct (decide (cd_type chart' <> table)) as [Hdraw | Htable].
    + destruct rest as [|o' rest]; [discriminate|].
      destruct (imageOf o') as [image|] eqn:Himage; [|discriminate].
      injection Hrun as <- <-. simpl in Hchart. rewrite Hparsed in Hchart.
      injection Hchart as ->.
      destruct (decide (Some (cd_type chart) = Some table)) as [[=] | _]; [congruence|].
      destruct (decide (cd_type chart = table)); [congruence|]. simpl.
      destruct image as [|c image]; simpl; eauto 12.
    + injection Hrun as <- <-. rewrite Hparsed in Hchart. injection Hchart as ->.
      assert (Htype : cd_type chart = table)
        by (destruct (decide (cd_type chart = table)); [assumption | contradiction]).
      destruct (decide (Some (cd_type chart) = Some table)) as [_ | Hno]; [|congruence].
      destruct (decide (cd_type chart = table)); [|contradiction]. simpl. eauto.
  - injection Hrun as <- <-. congruence.
Qed.

End VisualFacts.

(** ** The export and the screen *)

Section ExportFacts.
Context `{Platform}.
Import EvaluationScreen.

Context (userAnswers : Answers) (testContent : IComprehensiveTest).

Local Abbreviation render := (EvaluationScreen.render userAnswers testContent).
Local Abbreviation handleSaveAsMarkdown :=
  (EvaluationScreen.handleSaveAsMarkdown userAnswers testContent).

Lemma speakingBlock_comparison index item :
  speakingBlock userAnswers index item =
    comparisonBlock
      (AnswerComparison
         (lit "Speaking Question: " ++ [DQUOTE] ++ isa_question item ++ [DQUOTE])
         (sa_answer <$> ans_speaking userAnswers !! index)
         (improvedAnswer item)).
Proof.
  assert (Hhead : lit "### Speaking Question: " = lit "### " ++ lit "Speaking Question: ")
    by reflexivity.
  unfold speakingBlock, comparisonBlock, AnswerComparison.
  cbn [cmp_title cmp_prompt cmp_original cmp_improved].
  rewrite Hhead, <- !app_assoc. reflexivity.
Qed.

Lemma writingSection_comparisons improved :
  writingSection userAnswers testContent improved =
    lit "## Path to Band 7.5: Model Answers" ++ [LF; LF]
    ++ comparisonBlock
         {| cmp_title := lit "Writing Task 1";
            cmp_prompt := Some (t1_prompt (ws_task1 (ct_writing testContent)));
            cmp_original :=
              orElse (wa_task1 (ans_writing userAnswers)) (lit "No answer provided.");
            cmp_improved := writingTask1 improved |}
    ++ comparisonBlock
         {| cmp_title := lit "Writing Task 2";
            cmp_prompt := Some (ws_task2 (ct_writing testContent));
            cmp_original :=
              orElse (wa_task2 (ans_writing userAnswers)) (lit "No answer provided.");
            cmp_improved := writingTask2 improved |}.
Proof.
  assert (Hfirst : lit "### Writing Task 1" = lit "### " ++ lit "Writing Task 1")
    by reflexivity.
  assert (Hsecond : lit "### Writing Task 2" = lit "### " ++ lit "Writing Task 2")
    by reflexivity.
  unfold writingSection, comparisonBlock.
  cbn [cmp_title cmp_prompt cmp_original cmp_improved].
  rewrite Hfirst, Hsecond, <- !app_assoc. reflexivity.
Qed.

(** X26: the export prints what the screen shows. For every evaluation
    and practice plan the exported text is the title, then the report as
    the screen shows it (the overall figure, the cards of the main skills
    and of the detailed criteria with the same one-decimal figures, the
    summary, and one block per comparison with the same answer or
    placeholder and the same model answer, the spoken answers paired by
    position), then the practice plan. The plan's heading is written for
    an empty plan too, which the screen hides, and the answer key the
    screen shows is not written. *)
Theorem export_prints_the_screen (evaluation : option IEvaluation)
    (practicePlan : option (list IPracticeItem)) :
  handleSaveAsMarkdown evaluation practicePlan =
    (lit "# IELTS Evaluation Report" ++ [LF; LF])
    ++ match report (render evaluation practicePlan) with
       | Some shownReport => reportText shownReport
       | None => []
       end
    ++ match practicePlan with
       | Some items =>
           (lit "## Your Personalized Practice Plan" ++ [LF; LF])
           ++ mjoin (practiceBlock <$> items)
       | None => []
       end
  /\ (plan (render evaluation practicePlan) = None <->
      practicePlan = None \/ practicePlan = Some [])
  /\ (report (render evaluation practicePlan) = None <-> evaluation = None).
Proof.
  split; [|split].
  - unfold EvaluationScreen.handleSaveAsMarkdown, EvaluationScreen.render.
    cbv zeta. fold reportTitle practiceHead.
    assert (Hplan : forall text,
              match practicePlan with
              | Some items => text ++ practiceHead ++ mjoin (practiceBlock <$> items)
              | None => text
              end
              = text ++ match practicePlan with
                        | Some items => practiceHead ++ mjoin (practiceBlock <$> items)
                        | None => []
                        end).
    { intros text. destruct practicePlan; [reflexivity | rewrite app_nil_r; reflexivity]. }
    rewrite Hplan. destruct evaluation as [e|].
    2: { reflexivity. }
    cbn [report mbind option_bind]. unfold reportText.
    cbn [rep_circle rep_mainScores rep_summary rep_detailed rep_modelAnswers
         ScoreCircle figure].
    rewrite <- !list_fmap_compose.
    unfold scoreTableHead, summarySection.
    destruct (improvedAnswers e) as [improved|]; cbn [mbind option_bind].
    + rewrite writingSection_comparisons.
      rewrite fmap_app, fmap_imap, join_app.
      erewrite (imap_ext (speakingBlock userAnswers) _ (ia_speaking improved))
        by (intros i item _; apply speakingBlock_comparison).
      cbn [fmap list_fmap mjoin list_join].
      rewrite <- !app_assoc. reflexivity.
    + rewrite <- !app_assoc. reflexivity.
  - unfold EvaluationScreen.render. simpl.
    destruct practicePlan as [[|item items]|]; split; auto; try discriminate.
    intros [[=] | [=]].
  - unfold EvaluationScreen.render. simpl.
    destruct evaluation; split; auto; discriminate.
Qed.

End ExportFacts.

(** ** The screens at the sample inputs *)

Section SampleScreens.
Import Sample.

Local Abbreviation P := samplePlatform.

(** X4 at the sample inputs: a table of two columns and two body rows. *)
Lemma TableRenderer_csv_round_trip_witness :
  TestScreen.TableRenderer
    (TestScreen.csv [[lit "Year"; lit "Riders"]; [lit "2022"; lit "5M"]; [lit "2023"; lit "8M"]])
    (lit "Riders")
  = TestScreen.Table (lit "Riders") [lit "Year"; lit "Riders"]
      [[lit "2022"; lit "5M"]; [lit "2023"; lit "8M"]].
Proof.
  apply TableRenderer_csv_round_trip; [discriminate|].
  repeat constructor; try discriminate;
    try (apply (bool_decide_unpack _); vm_compute; exact I).
Defined.

(** X5 at the sample inputs: blanks around the cells and a blank last line
    do not show. *)
Lemma TableRenderer_cells_witness :
  TestScreen.TableRenderer ridersCsv (lit "Riders")
  = TestScreen.Table (lit "Riders") [lit "Year"; lit "Riders"]
      [[lit "2022"; lit "5M"]; [lit "2023"; lit "8M"]]
  /\ Forall TestScreen.rowShown
       [[lit "Year"; lit "Riders"]; [lit "2022"; lit "5M"]; [lit "2023"; lit "8M"]].
Proof.
  assert (Hrender : TestScreen.TableRenderer ridersCsv (lit "Riders")
                    = TestScreen.Table (lit "Riders") [lit "Year"; lit "Riders"]
                        [[lit "2022"; lit "5M"]; [lit "2023"; lit "8M"]])
    by (vm_compute; reflexivity).
  split; [exact Hrender|].
  pose proof (TableRenderer_cells _ _ _ _ _ Hrender) as Hcells.
  cbv zeta in Hcells. apply Hcells.
Defined.

(** X8 at the sample inputs: after the first of two questions the pointer
    is on the second. *)
Lemma speaking_question_in_range_witness :
  ct_speaking sampleTest <> []
  /\ TestScreen.currentSpeakingQuestionIndex
       (TestScreen.play sampleTest speaking
          [TestScreen.TranscriptEdit (lit "Yes, I do."); TestScreen.NextSpeakingQuestionClick]
          (TestScreen.initial speaking true)).1
     < length (ct_speaking sampleTest).
Proof.
  assert (Hquestions : ct_speaking sampleTest <> []) by discriminate.
  split; [exact Hquestions|].
  pose proof (speaking_question_in_range (H := P) sampleTest sampleUrl speaking
                [TestScreen.TranscriptEdit (lit "Yes, I do.");
                 TestScreen.NextSpeakingQuestionClick] true Hquestions) as Hrange.
  cbv zeta in Hrange. apply Hrange.
Defined.

(** X9 at the sample inputs: the typed speaking test completes with its
    two questions. *)
Lemma completion_has_every_question_witness :
  TestScreen.allowed (H := P) sampleTest sampleUrl speaking typedSpeaking
    (TestScreen.initial speaking true) = true
  /\ sa_question <$> ans_speaking spokenAnswers = q_question <$> ct_speaking sampleTest.
Proof.
  assert (Hallowed : TestScreen.allowed (H := P) sampleTest sampleUrl speaking typedSpeaking
                       (TestScreen.initial speaking true) = true)
    by (vm_compute; reflexivity).
  split; [exact Hallowed|].
  apply (completion_has_every_question (H := P) sampleTest sampleUrl speaking typedSpeaking true
           spokenAnswers (or_introl eq_refl) Hallowed).
  vm_compute. reflexivity.
Defined.

(** X12 at the sample inputs: the writing test shows [Finish & Submit], and
    a press on it completes the test. *)
Lemma buttons_say_what_they_do_witness :
  exists view,
    TestScreen.render (H := P) sampleTest sampleUrl writing (TestScreen.initial writing true)
    = Some view
    /\ TestScreen.nextButton view = Some (lit "Finish & Submit")
    /\ is_Some (TestScreen.nextSection writing (TestScreen.initial writing true)).2.
Proof.
  destruct (TestScreen.render (H := P) sampleTest sampleUrl writing
              (TestScreen.initial writing true)) as [view|] eqn:Hrender;
    [|vm_compute in Hrender; discriminate].
  assert (Hlabel : TestScreen.nextButton view = Some (lit "Finish & Submit")).
  { vm_compute in Hrender. injection Hrender as <-. vm_compute. reflexivity. }
  exists view. split; [reflexivity|]. split; [exact Hlabel|].
  destruct (buttons_say_what_they_do (H := P) sampleTest sampleUrl writing
              (TestScreen.initial writing true) view Hrender) as [Hnext _].
  apply (Hnext _ Hlabel). reflexivity.
Defined.

(** X18 at the sample inputs: the first answer as corrected, the second
    emptied and so shown as not answered. *)
Lemma answer_key_shows_what_was_typed_witness :
  exists answers,
    App.renderContent
      (App.app (App.testScreenEvent (H := P) TestScreen.NextSectionClick []
                  (App.testScreenEvents (H := P) quizTyping quizPage)).2)
    = App.EvaluationScreenElement None None answers quizTest
    /\ EvaluationScreen.key_yourAnswer
         <$> EvaluationScreen.key_rows
               (EvaluationScreen.AnswerKey lq_question lq_answer (lit "Listening")
                  (ls_questions (ct_listening quizTest)) (ans_listening answers))
       = [Some (lit "public transport"); None].
Proof.
  pose proof (answer_key_shows_what_was_typed (H := P) quizPage quizTest sampleUrl listening true
                quizTyping [] eq_refl eq_refl (or_introl eq_refl)) as Hkey.
  cbv zeta in Hkey.
  destruct Hkey as (answers & Hpage & _ & Hlistening & _).
  { repeat constructor; eauto. }
  exists answers. split; [exact Hpage|].
  pose proof (Hlistening 0 _ eq_refl) as Hfirst.
  pose proof (Hlistening 1 _ eq_refl) as Hsecond.
  assert (Hlength : length (EvaluationScreen.key_rows
                              (EvaluationScreen.AnswerKey lq_question lq_answer (lit "Listening")
                                 (ls_questions (ct_listening quizTest))
                                 (ans_listening answers))) = 2) by reflexivity.
  destruct (EvaluationScreen.key_rows _) as [|row1 [|row2 [|row3 rows]]];
    try discriminate Hlength.
  simpl in Hfirst, Hsecond. injection Hfirst as ->. injection Hsecond as ->.
  vm_compute. reflexivity.
Defined.

(** X17 at the sample inputs: the report of a listening test is exported
    as the title alone. *)
Lemma report_follows_the_test_type_witness :
  App.renderContent (App.app (App.session (H := P) listeningSession))
  = App.EvaluationScreenElement None None TestScreen.noAnswers generatedTest
  /\ EvaluationScreen.handleSaveAsMarkdown (H := P) TestScreen.noAnswers generatedTest None None
     = lit "# IELTS Evaluation Report" ++ [LF; LF].
Proof.
  assert (Hpage : App.renderContent (App.app (App.session (H := P) listeningSession))
                  = App.EvaluationScreenElement None None TestScreen.noAnswers generatedTest)
    by (vm_compute; reflexivity).
  split; [exact Hpage|].
  destruct (report_follows_the_test_type (H := P) listeningSession None None
              TestScreen.noAnswers generatedTest Hpage) as (type & Htype & _ & Hobjective).
  assert (Hlistening : type = listening).
  { vm_compute in Htype. injection Htype as <-. reflexivity. }
  apply Hobjective. left. exact Hlistening.
Defined.

(** X20 at the sample inputs: the sample test between two blanks and a
    line break. *)
Lemma reply_padding_is_ignored_witness :
  exec (generateComprehensiveTest (H := P) sampleUrl sampleTranscript full tt)
    [Resolved {| text := Some (lit "  " ++ testJson sampleTest ++ [LF]);
                 generatedImages := None |}]
  = exec (generateComprehensiveTest (H := P) sampleUrl sampleTranscript full tt)
      [Resolved {| text := Some (testJson sampleTest); generatedImages := None |}].
Proof.
  pose proof (reply_padding_is_ignored (H := P) (lit "  ") (testJson sampleTest) [LF] None tt []
                sampleUrl sampleTranscript full sampleTest TestScreen.noAnswers sampleEvaluation)
    as Hpadding.
  cbv zeta in Hpadding. apply Hpadding; repeat constructor.
Defined.

(** X21 at the sample inputs: the test with and without its chart image
    gives the same file. *)
Lemma download_leaves_out_the_answers_witness :
  chartImage (ws_task1 (ct_writing sampleTest))
    <> chartImage (ws_task1 (ct_writing generatedTest))
  /\ TestScreen.handleDownloadTest sampleTest sampleUrl
     = TestScreen.handleDownloadTest generatedTest sampleUrl.
Proof.
  split; [discriminate|].
  apply download_leaves_out_the_answers; reflexivity.
Defined.

(** X25 at the sample inputs: the bar chart of the sample test is shown
    as the image that came back. *)
Lemma generated_chart_is_shown_witness :
  App.generationRun (H := P) generationReplies
  = App.generated generatedTest (chartData (ws_task1 (ct_writing sampleTest)))
  /\ is_Some (TestScreen.renderWriting generatedTest (TestScreen.initial writing true)).
Proof.
  assert (Hrun : App.generationRun (H := P) generationReplies
                 = App.generated generatedTest (chartData (ws_task1 (ct_writing sampleTest))))
    by (vm_compute; reflexivity).
  split; [exact Hrun|].
  destruct (generated_chart_is_shown (H := P) generationReplies generatedTest _ _
              (TestScreen.initial writing true) Hrun eq_refl) as (visual & Hshown & _).
  rewrite Hshown. eexists. reflexivity.
Defined.

End SampleScreens.
